(** * pkg/remote: resolving remote source references into cached local paths

    A shallow embedding of [pkg/remote/remote.go] (package [remote] of
    helmfile): [Parse], [ParseNormal], [ParseNormalProtocol], [Fetch] and
    [Locate], together with executable models of the Go library functions
    they call ([strings], [path/filepath], [net/url], [go.uber.org/multierr]).

    Go strings are byte strings and are modelled as [string]; a Go [error]
    is a value of the inductive type [error]; a function that returns
    [(T, error)] returns a pair whose second component is an [option error]
    ([None] is Go's [nil]); a run-time panic is an explicit outcome.

    [Fetch] and [Locate] act on the outside world through the file system
    of [Remote], the three retrieval strategies (the interface [Getter]) and
    [os.RemoveAll].  These are parameters of the model: functions on a state
    [W] of the outside world.  The calls that change it are logged in order,
    so that "no retrieval strategy was called" is a statement about the log.

    The rest of the file is modelled after them: [ParseS3Url], [init],
    [CacheDir] and [NewRemote] over the values read from the process
    environment, and the three implementations of [Getter] over the calls of
    go-getter, [net/http], [os] and the AWS SDK they make, which are
    parameters as well.  The logger only traces and is left out. *)

From Stdlib Require Import String Ascii List Bool Arith NArith Lia Permutation.
Import ListNotations.
Local Open Scope list_scope.
Local Open Scope string_scope.

Set Implicit Arguments.

(** ** Bytes *)

Definition byte_of (c : ascii) : nat := nat_of_ascii c.

Definition between (lo hi c : ascii) : bool :=
  Nat.leb (byte_of lo) (byte_of c) && Nat.leb (byte_of c) (byte_of hi).

Definition isLower (c : ascii) : bool := between "a" "z" c.
Definition isUpper (c : ascii) : bool := between "A" "Z" c.
Definition isDigit (c : ascii) : bool := between "0" "9" c.
Definition isAlpha (c : ascii) : bool := isLower c || isUpper c.

Definition oneOf (cs : string) (c : ascii) : bool :=
  existsb (Ascii.eqb c) (list_ascii_of_string cs).

(** ** Package [strings] *)

Module strings.

Definition HasPrefix (s prefix : string) : bool := String.prefix prefix s.

(** [s[n:]] for [n <= len(s)]. *)
Fixpoint drop (n : nat) (s : string) : string :=
  match n, s with
  | 0, _ => s
  | S _, EmptyString => EmptyString
  | S n', String _ s' => drop n' s'
  end.

(** [s[:n]] for [n <= len(s)]. *)
Fixpoint take (n : nat) (s : string) : string :=
  match n, s with
  | 0, _ => EmptyString
  | S _, EmptyString => EmptyString
  | S n', String c s' => String c (take n' s')
  end.

(** The text before and after the first occurrence of [sep] in [s]
    (what [strings.Index] finds), or [None] when [sep] does not occur. *)
Fixpoint cutAt (sep s : string) : option (string * string) :=
  if HasPrefix s sep then Some (EmptyString, drop (String.length sep) s)
  else match s with
       | EmptyString => None
       | String c s' =>
           match cutAt sep s' with
           | Some (before, after) => Some (String c before, after)
           | None => None
           end
       end.

Definition Contains (s substr : string) : bool :=
  match cutAt substr s with Some _ => true | None => false end.

(** [strings.Cut]. *)
Definition Cut (s sep : string) : string * string * bool :=
  match cutAt sep s with
  | Some (before, after) => (before, after, true)
  | None => (s, EmptyString, false)
  end.

(** [strings.Split(s, sep)]: the pieces between the non-overlapping
    occurrences of [sep], found left to right.  [skip] counts the bytes of
    the separator just matched that are still to be passed over. *)
Fixpoint splitFrom (sep : string) (skip : nat) (s : string) : list string :=
  match s with
  | EmptyString => [EmptyString]
  | String c s' =>
      match skip with
      | S k => splitFrom sep k s'
      | 0 =>
          if HasPrefix s sep
          then EmptyString :: splitFrom sep (String.length sep - 1) s'
          else match splitFrom sep 0 s' with
               | piece :: pieces => String c piece :: pieces
               | [] => [String c EmptyString]
               end
      end
  end.

(** With an empty [sep] Go splits after each UTF-8 sequence; the model
    splits after each byte. *)
Definition Split (s sep : string) : list string :=
  match sep with
  | EmptyString => map (fun c => String c EmptyString) (list_ascii_of_string s)
  | _ => splitFrom sep 0 s
  end.

Fixpoint Join (elems : list string) (sep : string) : string :=
  match elems with
  | [] => EmptyString
  | [e] => e
  | e :: rest => e ++ sep ++ Join rest sep
  end.

(** [strings.ReplaceAll(s, old, new)] for a non-empty [old]. *)
Definition ReplaceAll (s old new : string) : string :=
  Join (Split s old) new.

Definition lowerByte (c : ascii) : ascii :=
  if isUpper c then ascii_of_nat (byte_of c + 32) else c.

(** [strings.ToLower] on the ASCII letters; other bytes are kept. *)
Fixpoint ToLower (s : string) : string :=
  match s with
  | EmptyString => EmptyString
  | String c s' => String (lowerByte c) (ToLower s')
  end.

Fixpoint LastIndexByte (s : string) (c : ascii) : option nat :=
  match s with
  | EmptyString => None
  | String a s' =>
      match LastIndexByte s' c with
      | Some i => Some (S i)
      | None => if Ascii.eqb a c then Some 0 else None
      end
  end.

(** [strings.Count(s, substr)] for a non-empty [substr]. *)
Definition Count (s substr : string) : nat :=
  List.length (Split s substr) - 1.

Definition HasSuffix (s suffix : string) : bool :=
  Nat.leb (String.length suffix) (String.length s)
  && String.eqb (drop (String.length s - String.length suffix) s) suffix.

(** A [strings.Replacer] built by [strings.NewReplacer(oldnew...)] with
    non-empty [old] strings: at each position of the input the first pair,
    in argument order, whose [old] matches there is applied; matches do not
    overlap. *)
Fixpoint lookup (oldnew : list (string * string)) (s : string)
  : option (string * nat) :=
  match oldnew with
  | [] => None
  | (old, new) :: rest =>
      if HasPrefix s old then Some (new, String.length old)
      else lookup rest s
  end.

Fixpoint replaceFrom (oldnew : list (string * string)) (skip : nat) (s : string)
  : string :=
  match s with
  | EmptyString => EmptyString
  | String c s' =>
      match skip with
      | S k => replaceFrom oldnew k s'
      | 0 =>
          match lookup oldnew s with
          | Some (new, n) => new ++ replaceFrom oldnew (n - 1) s'
          | None => String c (replaceFrom oldnew 0 s')
          end
      end
  end.

Definition Replace (oldnew : list (string * string)) (s : string) : string :=
  replaceFrom oldnew 0 s.

Definition TrimPrefix (s prefix : string) : string :=
  if HasPrefix s prefix then drop (String.length prefix) s else s.

End strings.

(** [strconv.Itoa] on a length, for the [%d] verb. *)
Fixpoint digitsOf (fuel n : nat) (acc : string) : string :=
  match fuel with
  | 0 => acc
  | S fuel' =>
      let acc' := String (ascii_of_nat (48 + n mod 10)) acc in
      if Nat.ltb n 10 then acc' else digitsOf fuel' (n / 10) acc'
  end.

Definition Itoa (n : nat) : string := digitsOf (S n) n EmptyString.

(** ** Package [path/filepath] (Unix: the separator is [/], no volume names) *)

Module filepath.

(** One step of [Clean]'s loop over the path elements; [out] is the stack
    of elements written so far, innermost first.  A [..] removes the last
    real element; where there is none it is dropped for a rooted path
    and kept for a relative one. *)
Definition cleanStep (rooted : bool) (out : list string) (e : string)
  : list string :=
  if String.eqb e "" || String.eqb e "." then out
  else if String.eqb e ".." then
    match out with
    | top :: rest => if String.eqb top ".." then e :: out else rest
    | [] => if rooted then [] else [e]
    end
  else e :: out.

(** [filepath.Clean]. *)
Definition Clean (path : string) : string :=
  if String.eqb path "" then "."
  else
    let rooted := strings.HasPrefix path "/" in
    let out := fold_left (cleanStep rooted) (strings.Split path "/") [] in
    let body := strings.Join (rev out) "/" in
    if rooted then "/" ++ body
    else if String.eqb body "" then "." else body.

(** [filepath.Join]: the leading empty elements are skipped, the rest is
    joined with [/] and cleaned; with no non-empty element the result is
    empty. *)
Fixpoint Join (elem : list string) : string :=
  match elem with
  | [] => ""
  | e :: rest =>
      if String.eqb e "" then Join rest else Clean (strings.Join elem "/")
  end.

(** [filepath.Dir]: all but the last element of [path], cleaned. *)
Definition Dir (path : string) : string :=
  match strings.LastIndexByte path "/" with
  | Some i => Clean (strings.take (S i) path)
  | None => Clean ""
  end.

Fixpoint stripTrailingSlashes (fuel : nat) (path : string) : string :=
  match fuel with
  | 0 => path
  | S fuel' =>
      if strings.HasSuffix path "/"
      then stripTrailingSlashes fuel' (strings.take (String.length path - 1) path)
      else path
  end.

(** [filepath.Base]: the last element of [path]. *)
Definition Base (path : string) : string :=
  if String.eqb path "" then "."
  else
    let path := stripTrailingSlashes (String.length path) path in
    let path := match strings.LastIndexByte path "/" with
                | Some i => strings.drop (S i) path
                | None => path
                end in
    if String.eqb path "" then "/" else path.

End filepath.

(** ** Package [path]: with [/] as the separator of [filepath], [path.Base]
    is [filepath.Base]. *)

Module path.

Definition Base (path : string) : string := filepath.Base path.

End path.

(** ** Package [net/url]

    [url.Parse] of go-getter's [helper/url] is, on Unix, [net/url.Parse].  The
    model follows the library source (Go 1.21) and keeps the fields of
    [url.URL] that [remote.go] reads and the ones that decide success; a
    failure is the message of the Go error, to which [Error_Error] adds the
    wrapper of [url.Error]. *)

Module url.

Record Userinfo := {
  username : string;
  password : string;
  passwordSet : bool
}.

Record URL := {
  Scheme : string;
  Opaque : string;
  User : option Userinfo;
  Host : string;
  Path : string;
  RawQuery : string;
  Fragment : string
}.

Inductive encoding :=
| encodePath | encodePathSegment | encodeHost | encodeZone
| encodeUserPassword | encodeQueryComponent | encodeFragment.

Definition isHostMode (mode : encoding) : bool :=
  match mode with encodeHost | encodeZone => true | _ => false end.

(** [shouldEscape]: must byte [c] be escaped in the part [mode] of a URL? *)
Definition shouldEscape (c : ascii) (mode : encoding) : bool :=
  if isAlpha c || isDigit c then false
  else if isHostMode mode && oneOf "!$&'()*+,;=:[]<>" c then false
  else if isHostMode mode && Ascii.eqb c (ascii_of_nat 34) then false
  else if oneOf "-_.~" c then false
  else if oneOf "$&+,/:;=?@" c then
    match mode with
    | encodePath => Ascii.eqb c "?"
    | encodePathSegment => oneOf "/;,?" c
    | encodeUserPassword => oneOf "@/?:" c
    | encodeQueryComponent => true
    | encodeFragment => false
    | encodeHost | encodeZone => true
    end
  else match mode with
       | encodeFragment => negb (oneOf "!()*" c)
       | _ => true
       end.

Definition ishex (c : ascii) : bool :=
  isDigit c || between "a" "f" c || between "A" "F" c.

Definition unhex (c : ascii) : nat :=
  if isDigit c then byte_of c - 48
  else if between "a" "f" c then byte_of c - 97 + 10
  else if between "A" "F" c then byte_of c - 65 + 10
  else 0.

Definition quote : string := String (ascii_of_nat 34) "".

Definition EscapeError (s : string) : string :=
  "invalid URL escape " ++ quote ++ s ++ quote.

Definition InvalidHostError (s : string) : string :=
  "invalid character " ++ quote ++ s ++ quote ++ " in host name".

(** [unescape]: undo the percent-encoding of [s]; in a query component
    [+] is a space.  The result is the decoded text or the message of the
    first malformed escape. *)
Fixpoint unescape (s : string) (mode : encoding) : string + string :=
  match s with
  | EmptyString => inl EmptyString
  | String c rest =>
      if Ascii.eqb c "%" then
        match rest with
        | String h (String l rest') =>
            let v := ascii_of_nat (unhex h * 16 + unhex l) in
            let esc := String c (String h (String l EmptyString)) in
            if negb (ishex h && ishex l) then inr (EscapeError esc)
            else if match mode with
                    | encodeHost =>
                        Nat.ltb (unhex h) 8 && negb (String.eqb esc "%25")
                    | encodeZone =>
                        negb (String.eqb esc "%25") && negb (Ascii.eqb v " ")
                        && shouldEscape v encodeHost
                    | _ => false
                    end
            then inr (EscapeError esc)
            else match unescape rest' mode with
                 | inl t => inl (String v t)
                 | inr e => inr e
                 end
        | _ => inr (EscapeError (strings.take 3 s))
        end
      else if isHostMode mode && Nat.ltb (byte_of c) 128
              && shouldEscape c encodeHost
      then inr (InvalidHostError (String c EmptyString))
      else match unescape rest mode with
           | inl t =>
               inl (String (match mode with
                            | encodeQueryComponent =>
                                if Ascii.eqb c "+" then " "%char else c
                            | _ => c
                            end) t)
           | inr e => inr e
           end
  end.

Definition QueryUnescape (s : string) : string + string :=
  unescape s encodeQueryComponent.

Definition upperhex (n : nat) : ascii :=
  if Nat.ltb n 10 then ascii_of_nat (48 + n) else ascii_of_nat (55 + n).

(** [escape]: percent-encode the bytes [shouldEscape] names; in a query
    component a space becomes [+]. *)
Fixpoint escape (s : string) (mode : encoding) : string :=
  match s with
  | EmptyString => EmptyString
  | String c rest =>
      if shouldEscape c mode then
        match mode with
        | encodeQueryComponent =>
            if Ascii.eqb c " " then String "+" (escape rest mode)
            else String "%" (String (upperhex (byte_of c / 16))
                              (String (upperhex (byte_of c mod 16))
                                 (escape rest mode)))
        | _ => String "%" (String (upperhex (byte_of c / 16))
                             (String (upperhex (byte_of c mod 16))
                                (escape rest mode)))
        end
      else String c (escape rest mode)
  end.

Definition QueryEscape (s : string) : string := escape s encodeQueryComponent.

(** The text of a [url.Error] of [Parse] (the [%q] verb is taken to add
    the quotes only). *)
Definition Error_Error (URL err : string) : string :=
  "parse " ++ quote ++ URL ++ quote ++ ": " ++ err.

(** The [String] method of [Userinfo]; a nil pointer gives the empty
    string. *)
Definition Userinfo_String (u : option Userinfo) : string :=
  match u with
  | None => ""
  | Some u =>
      let s := escape (username u) encodeUserPassword in
      if passwordSet u then s ++ ":" ++ escape (password u) encodeUserPassword
      else s
  end.

(** [getScheme]: split a leading [scheme:] off [rawURL].  [None] is the
    error "missing protocol scheme" (the input starts with a colon). *)
Fixpoint getSchemeFrom (i : nat) (rawURL rest : string)
  : option (string * string) :=
  match rest with
  | EmptyString => Some ("", rawURL)
  | String c rest' =>
      if isAlpha c then getSchemeFrom (S i) rawURL rest'
      else if isDigit c || oneOf "+-." c then
        if Nat.eqb i 0 then Some ("", rawURL)
        else getSchemeFrom (S i) rawURL rest'
      else if Ascii.eqb c ":" then
        if Nat.eqb i 0 then None
        else Some (strings.take i rawURL, rest')
      else Some ("", rawURL)
  end.

Definition getScheme (rawURL : string) : option (string * string) :=
  getSchemeFrom 0 rawURL rawURL.

Definition stringContainsCTLByte (s : string) : bool :=
  existsb (fun b => Nat.ltb (byte_of b) 32 || Nat.eqb (byte_of b) 127)
    (list_ascii_of_string s).

Definition validOptionalPort (port : string) : bool :=
  match port with
  | EmptyString => true
  | String c digits =>
      Ascii.eqb c ":" && forallb isDigit (list_ascii_of_string digits)
  end.

Definition validUserinfo (s : string) : bool :=
  forallb (fun r => isAlpha r || isDigit r || oneOf "-._:~!$&'()*+,;=%@" r)
    (list_ascii_of_string s).

(** [parseHost]: a registered name, an IPv4 address or a bracketed IP
    literal, each with an optional [:port]. *)
Definition parseHost (host : string) : string + string :=
  let unescaped := unescape host encodeHost in
  if strings.HasPrefix host "[" then
    match strings.LastIndexByte host "]" with
    | None => inr "missing ']' in host"
    | Some i =>
        let colonPort := strings.drop (S i) host in
        if negb (validOptionalPort colonPort) then
          inr ("invalid port " ++ quote ++ colonPort ++ quote ++ " after host")
        else
          match strings.cutAt "%25" (strings.take i host) with
          | Some (host1, _) =>
              let zone := String.length host1 in
              match unescape host1 encodeHost with
              | inr e => inr e
              | inl host1 =>
                  match unescape (strings.drop zone (strings.take i host))
                          encodeZone with
                  | inr e => inr e
                  | inl host2 =>
                      match unescape (strings.drop i host) encodeHost with
                      | inr e => inr e
                      | inl host3 => inl (host1 ++ host2 ++ host3)
                      end
                  end
              end
          | None => unescaped
          end
    end
  else
    match strings.LastIndexByte host ":" with
    | Some i =>
        let colonPort := strings.drop i host in
        if negb (validOptionalPort colonPort) then
          inr ("invalid port " ++ quote ++ colonPort ++ quote ++ " after host")
        else unescaped
    | None => unescaped
    end.

(** [parseAuthority]: [[userinfo@]host]. *)
Definition parseAuthority (authority : string)
  : (option Userinfo * string) + string :=
  let i := strings.LastIndexByte authority "@" in
  match parseHost (match i with
                   | None => authority
                   | Some i => strings.drop (S i) authority
                   end) with
  | inr e => inr e
  | inl host =>
      match i with
      | None => inl (None, host)
      | Some i =>
          let userinfo := strings.take i authority in
          if negb (validUserinfo userinfo) then inr "net/url: invalid userinfo"
          else if negb (strings.Contains userinfo ":") then
            match unescape userinfo encodeUserPassword with
            | inr e => inr e
            | inl userinfo =>
                inl (Some {| username := userinfo; password := "";
                             passwordSet := false |}, host)
            end
          else
            let '(username, password, _) := strings.Cut userinfo ":" in
            match unescape username encodeUserPassword with
            | inr e => inr e
            | inl username =>
                match unescape password encodeUserPassword with
                | inr e => inr e
                | inl password =>
                    inl (Some {| username := username; password := password;
                                 passwordSet := true |}, host)
                end
            end
      end
  end.

(** The query is what follows the first [?]; a lone [?] at the very end
    gives an empty query. *)
Definition splitQuery (rest : string) : string * string :=
  if strings.HasSuffix rest "?" && Nat.eqb (strings.Count rest "?") 1
  then (strings.take (String.length rest - 1) rest, "")
  else let '(rest, rawQuery, _) := strings.Cut rest "?" in
       (rest, rawQuery).

(** What [parse] does with the text between the scheme and the query:
    opaque data, or an authority and a path. *)
Definition parseHierarchy (scheme rest rawQuery : string) : URL + string :=
  if negb (strings.HasPrefix rest "/") && negb (String.eqb scheme "") then
    inl {| Scheme := scheme; Opaque := rest; User := None; Host := "";
           Path := ""; RawQuery := rawQuery; Fragment := "" |}
  else if negb (strings.HasPrefix rest "/")
          && (let '(segment, _, _) := strings.Cut rest "/" in
              strings.Contains segment ":")
  then inr "first path segment in URL cannot contain colon"
  else
    let authorityAndPath :=
      if (negb (String.eqb scheme "") || negb (strings.HasPrefix rest "///"))
         && strings.HasPrefix rest "//"
      then
        let authority := strings.drop 2 rest in
        let '(authority, rest) :=
          match strings.cutAt "/" authority with
          | Some (a, r) => (a, "/" ++ r)
          | None => (authority, "")
          end in
        match parseAuthority authority with
        | inr e => inr e
        | inl (user, host) => inl (user, host, rest)
        end
      else inl (None, "", rest) in
    match authorityAndPath with
    | inr e => inr e
    | inl (user, host, rest) =>
        match unescape rest encodePath with
        | inr e => inr e
        | inl path =>
            inl {| Scheme := scheme; Opaque := ""; User := user;
                   Host := host; Path := path; RawQuery := rawQuery;
                   Fragment := "" |}
        end
    end.

(** [parse(rawURL, false)]: everything of [Parse] but the fragment. *)
Definition parse (rawURL : string) : URL + string :=
  if stringContainsCTLByte rawURL then
    inr "net/url: invalid control character in URL"
  else if String.eqb rawURL "*" then
    inl {| Scheme := ""; Opaque := ""; User := None; Host := "";
           Path := "*"; RawQuery := ""; Fragment := "" |}
  else
    match getScheme rawURL with
    | None => inr "missing protocol scheme"
    | Some (scheme, rest) =>
        let scheme := strings.ToLower scheme in
        let '(rest, rawQuery) := splitQuery rest in
        parseHierarchy scheme rest rawQuery
    end.

(** [url.Parse]: cut the fragment off, parse the rest, decode the
    fragment. *)
Definition Parse (rawURL : string) : URL + string :=
  let '(u, frag, _) := strings.Cut rawURL "#" in
  match parse u with
  | inr e => inr e
  | inl url =>
      if String.eqb frag "" then inl url
      else match unescape frag encodeFragment with
           | inr e => inr e
           | inl f =>
               inl {| Scheme := Scheme url; Opaque := Opaque url;
                      User := User url; Host := Host url; Path := Path url;
                      RawQuery := RawQuery url; Fragment := f |}
           end
  end.

(** [url.Values], a Go [map[string][]string]: one entry per key.  The
    order of the entries is not observable: [Values_Encode] sorts them. *)
Definition Values := list (string * list string).

Definition Values_Has (v : Values) (key : string) : bool :=
  existsb (fun kv => String.eqb (fst kv) key) v.

Fixpoint Values_Set (v : Values) (key value : string) : Values :=
  match v with
  | [] => [(key, [value])]
  | (k, vs) :: rest =>
      if String.eqb k key then (k, [value]) :: rest
      else (k, vs) :: Values_Set rest key value
  end.

(** [m[key] = append(m[key], value)]. *)
Fixpoint Values_append (v : Values) (key value : string) : Values :=
  match v with
  | [] => [(key, [value])]
  | (k, vs) :: rest =>
      if String.eqb k key then (k, (vs ++ [value])%list) :: rest
      else (k, vs) :: Values_append rest key value
  end.

(** One round of the loop of [parseQuery], on the piece [key] of the
    query: a piece with a semicolon or a malformed escape is dropped and
    reported, an empty piece is skipped. *)
Definition parsePair (st : Values * option string) (key : string)
  : Values * option string :=
  let '(m, err) := st in
  let first err1 := match err with None => Some err1 | Some _ => err end in
  if strings.Contains key ";"
  then (m, Some "invalid semicolon separator in query")
  else if String.eqb key "" then (m, err)
  else
    let '(key, value, _) := strings.Cut key "=" in
    match QueryUnescape key with
    | inr err1 => (m, first err1)
    | inl key =>
        match QueryUnescape value with
        | inr err1 => (m, first err1)
        | inl value => (Values_append m key value, err)
        end
    end.

(** [url.ParseQuery]: the loop cuts the query at each [&] and handles the
    pieces in order; the map of the well-formed pairs is returned together
    with the first error. *)
Definition ParseQuery (query : string) : Values * option string :=
  fold_left parsePair (strings.Split query "&") ([], None).

(** [sort.Strings]: byte-wise lexicographic order. *)
Fixpoint insertSorted (k : string) (keys : list string) : list string :=
  match keys with
  | [] => [k]
  | k' :: rest =>
      if String.leb k k' then k :: keys else k' :: insertSorted k rest
  end.

Definition sortStrings (keys : list string) : list string :=
  fold_right insertSorted [] keys.

Definition Values_Get (v : Values) (key : string) : list string :=
  match find (fun kv => String.eqb (fst kv) key) v with
  | Some (_, vs) => vs
  | None => []
  end.

(** [Values.Encode]: [key=value] pairs, escaped, sorted by key and joined
    with [&]. *)
Definition Values_Encode (v : Values) : string :=
  strings.Join
    (flat_map (fun k => map (fun value => QueryEscape k ++ "=" ++ QueryEscape value)
                          (Values_Get v k))
       (sortStrings (map fst v)))
    "&".

End url.

(** ** Package [strconv] *)

Module strconv.

(** [strconv.ParseBool]: six spellings of true, six of false, and a
    syntax error (with the value false) for everything else. *)
Definition ParseBool (str : string) : bool * option string :=
  if existsb (String.eqb str) ["1"; "t"; "T"; "true"; "TRUE"; "True"]
  then (true, None)
  else if existsb (String.eqb str) ["0"; "f"; "F"; "false"; "FALSE"; "False"]
  then (false, None)
  else (false, Some ("strconv.ParseBool: parsing " ++ url.quote ++ str
                     ++ url.quote ++ ": invalid syntax")).

End strconv.

(** ** Go errors and [go.uber.org/multierr] *)

(** The dynamic types of [error] values that [remote.go] tells apart:
    its own [InvalidURLError], the combined error of [multierr], and every
    other error ([fmt.Errorf], [net/url], a retrieval strategy), known by its
    message. *)
#[warnings="-register-all"]
Inductive error :=
| InvalidURLError (err : string)
| errorString (s : string)
| multiError (errors : list error).

(** The method [Error]: the text of an error, as the verbs [%v] and [%s]
    print it.  A combined error lists its errors separated by [; ]. *)
Fixpoint Error (e : error) : string :=
  match e with
  | InvalidURLError err => err
  | errorString s => s
  | multiError errors => strings.Join (map Error errors) "; "
  end.

Module multierr.

Definition extractErrors (err : error) : list error :=
  match err with
  | multiError errors => errors
  | _ => [err]
  end.

(** [multierr.Append]: nil is the unit; two errors combine into one that
    lists the errors of both. *)
Definition Append (left right : option error) : option error :=
  match left, right with
  | None, _ => right
  | _, None => left
  | Some l, Some r => Some (multiError (extractErrors l ++ extractErrors r)%list)
  end.

(** [multierr.Errors]. *)
Definition Errors (err : option error) : list error :=
  match err with
  | None => []
  | Some e => extractErrors e
  end.

End multierr.

(** A call returns or panics. *)
Inductive outcome (A : Type) :=
| Returns (a : A)
| Panics (msg : string).

Arguments Panics {A} msg.

(** ** Package [remote] *)

Module remote.

Record Source := {
  Getter : string;
  Scheme : string;
  User : string;
  Host : string;
  Dir : string;
  File : string;
  RawQuery : string
}.

Definition nilDereference : string :=
  "runtime error: invalid memory address or nil pointer dereference".

(** [fmt.Errorf("failed to parse URL %s", path)], the error of
    [ParseNormalProtocol]: the UnsupportedSchemeError of the
    specification. *)
Definition UnsupportedSchemeError (path : string) : error :=
  errorString ("failed to parse URL " ++ path).

Definition protocols : list string := ["s3"; "http"; "https"].

(** Is [protocol] one of the schemes of the direct syntax?  (The loop of
    [ParseNormalProtocol].) *)
Definition isProtocol (protocol : string) : bool :=
  existsb (fun option => String.eqb option protocol) protocols.

Definition ParseNormalProtocol (path : string) : string * option error :=
  let parts := strings.Split path "://" in
  match parts with
  | [] => ("", Some (UnsupportedSchemeError path))
  | part0 :: _ =>
      let protocol := strings.ToLower part0 in
      if isProtocol protocol then (protocol, None)
      else ("", Some (UnsupportedSchemeError path))
  end.

(** [ParseNormal] reads [u.Path] before it looks at the error of
    [url.Parse]: when that call fails, [u] is nil and the read panics. *)
Definition ParseNormal (path : string) : outcome (option Source * option error) :=
  match ParseNormalProtocol path with
  | (_, Some err) => Returns (None, Some err)
  | (_, None) =>
      match url.Parse path with
      | inr _ => Panics nilDereference
      | inl u =>
          let dir := filepath.Dir (url.Path u) in
          let dir := if String.eqb dir "/" then "" else dir in
          Returns (Some {| Getter := "normal";
                           User := url.Userinfo_String (url.User u);
                           Scheme := url.Scheme u;
                           Host := url.Host u;
                           Dir := dir;
                           File := filepath.Base (url.Path u);
                           RawQuery := url.RawQuery u |}, None)
      end
  end.

(** The tail of [Parse] (from the call of [url.Parse] on), reached with
    the forced getter, if any, split off. *)
Definition parseGetterSrc (getter goGetterSrc : string)
  : outcome (option Source * option error) :=
  match url.Parse goGetterSrc with
  | inr err =>
      Returns (None, Some (InvalidURLError
                             ("parse url: " ++ url.Error_Error goGetterSrc err)))
  | inl u =>
      if String.eqb (url.Scheme u) "" then
        Returns (None, Some (InvalidURLError
          ("parse url: missing scheme - probably this is a local file path? "
           ++ goGetterSrc)))
      else
        let pathComponents := strings.Split (url.Path u) "@" in
        let pathComponents :=
          if negb (Nat.eqb (List.length pathComponents) 2) then
            let dir := filepath.Dir (url.Path u) in
            let dir := if String.eqb dir "/" then "" else dir in
            [dir; filepath.Base (url.Path u)]
          else pathComponents in
        Returns (Some {| Getter := getter;
                         User := url.Userinfo_String (url.User u);
                         Scheme := url.Scheme u;
                         Host := url.Host u;
                         Dir := nth 0 pathComponents "";
                         File := nth 1 pathComponents "";
                         RawQuery := url.RawQuery u |}, None)
  end.

Definition Parse (goGetterSrc : string) : outcome (option Source * option error) :=
  let items := strings.Split goGetterSrc "::" in
  if Nat.eqb (List.length items) 2 then
    parseGetterSrc (nth 0 items "") (nth 1 items "")
  else
    let items := strings.Split goGetterSrc "://" in
    if Nat.eqb (List.length items) 2 then ParseNormal goGetterSrc
    else parseGetterSrc "" goGetterSrc.

Definition IsRemote (goGetterSrc : string) : outcome bool :=
  match Parse goGetterSrc with
  | Panics msg => Panics msg
  | Returns (_, Some _) => Returns false
  | Returns (_, None) => Returns true
  end.

(** *** The cache key and the paths derived from a descriptor *)

Definition srcDir (u : Source) : string :=
  Scheme u ++ "://" ++ Host u ++ Dir u.

Definition replacer : list (string * string) :=
  [(":", ""); ("//", "_"); ("/", "_"); (".", "_")].

Definition cacheKey (u : Source) : string :=
  let query := RawQuery u in
  let dirKey := strings.Replace replacer (srcDir u) in
  if Nat.ltb 0 (String.length query) then
    let q := fst (url.ParseQuery query) in
    let q := if url.Values_Has q "sshkey"
             then url.Values_Set q "sshkey" "redacted" else q in
    let paramsKey := strings.ReplaceAll (url.Values_Encode q) "&" "_" in
    dirKey ++ "." ++ paramsKey
  else dirKey.

Definition getterDst (cacheBaseDir : string) (u : Source) : string :=
  filepath.Join [cacheBaseDir; cacheKey u].

(** The source handed to the retrieval strategy: user and query are put
    back, the query as it was given. *)
Definition getterSrc (u : Source) : string :=
  let query := RawQuery u in
  let getterSrc :=
    if negb (String.eqb (User u) "")
    then Scheme u ++ "://" ++ User u ++ "@" ++ Host u ++ Dir u
    else Scheme u ++ "://" ++ Host u ++ Dir u in
  if Nat.ltb 0 (String.length query)
  then strings.Join [getterSrc; query] "?" else getterSrc.

(** The error of [Fetch] for a plain file at the cache path: the
    CachePathConflictError of the specification. *)
Definition CachePathConflictError (getterDst : string) : error :=
  errorString (getterDst ++ " is not directory. please remove it so that variant could use it for dependency caching").

(** The base directory the optional argument of [Fetch] selects. *)
Definition cacheBaseDirOf (cacheDirOpt : list string) : string :=
  if Nat.eqb (List.length cacheDirOpt) 1 then nth 0 cacheDirOpt "" else "".

(** The error of [Fetch] for more than one optional argument. *)
Definition cacheDirOptError (n : nat) : error :=
  errorString ("[bug] cacheDirOpt's length: want 0 or 1, got " ++ Itoa n).

(** *** The collaborators of [Remote]

    [W] is the state of everything outside the program: the disk and the
    remote ends.  The file system of [Remote] reads it, a retrieval
    strategy and [os.RemoveAll] change it. *)

Inductive strategy := viaGetter | viaS3Getter | viaHttpGetter.

(** What a call of [Fetch] or [Locate] did to the outside, in order. *)
Inductive event :=
| GetCalled (which : strategy) (wd src dst : string)
| RemoveAllCalled (path : string).

Definition isGet (e : event) : bool :=
  match e with GetCalled _ _ _ _ => true | RemoveAllCalled _ => false end.

(** The strategy the cache-miss branch of [Fetch] picks for a descriptor,
    and the source string it hands over. *)
Definition strategyOf (u : Source) : strategy :=
  if String.eqb (Getter u) "normal" && String.eqb (Scheme u) "s3"
  then viaS3Getter
  else if String.eqb (Getter u) "normal"
          && (String.eqb (Scheme u) "https" || String.eqb (Scheme u) "http")
  then viaHttpGetter
  else viaGetter.

Definition retrievalSrc (path : string) (u : Source) : string :=
  match strategyOf u with
  | viaGetter =>
      if negb (String.eqb (Getter u) "")
      then Getter u ++ "::" ++ getterSrc u else getterSrc u
  | _ => path
  end.

Section Remote.

Context {W : Type}.

(** [filesystem.FileSystem], the two fields [remote.go] calls. *)
Record FileSystem := {
  FileExistsAt : string -> W -> bool;
  DirectoryExistsAt : string -> W -> bool
}.

(** The interface [Getter]. *)
Record GetterI := {
  Get : string -> string -> string -> W -> option error * W
}.

(** The struct [Remote]; its field [Getter] is [Getter_] here, and the
    logger, which only traces, is left out. *)
Record Remote := {
  Home : string;
  Getter_ : GetterI;
  S3Getter : GetterI;
  HttpGetter : GetterI;
  fs : FileSystem
}.

Record State := {
  world : W;
  calls : list event
}.

Definition M (A : Type) : Type := State -> A * State.

Definition ret {A} (a : A) : M A := fun st => (a, st).

Definition bind {A B} (m : M A) (k : A -> M B) : M B :=
  fun st => let '(a, st') := m st in k a st'.

Notation "x <- m ;; k" := (bind m (fun x => k))
  (at level 61, m at next level, right associativity).

Definition getter (r : Remote) (which : strategy) : GetterI :=
  match which with
  | viaGetter => Getter_ r
  | viaS3Getter => S3Getter r
  | viaHttpGetter => HttpGetter r
  end.

Definition callGet (r : Remote) (which : strategy) (wd src dst : string)
  : M (option error) :=
  fun st =>
    let '(err, w) := Get (getter r which) wd src dst (world st) in
    (err, {| world := w;
             calls := (calls st ++ [GetCalled which wd src dst])%list |}).

Variable os_RemoveAll : string -> W -> option error * W.

Definition RemoveAll (path : string) : M (option error) :=
  fun st =>
    let '(err, w) := os_RemoveAll path (world st) in
    (err, {| world := w;
             calls := (calls st ++ [RemoveAllCalled path])%list |}).

Definition cacheDirPath (r : Remote) (cacheBaseDir : string) (u : Source)
  : string :=
  filepath.Join [Home r; getterDst cacheBaseDir u].

(** The conflict check and the cache-hit test of [Fetch]; both only
    read the outside. *)
Definition conflict (r : Remote) (cacheBaseDir : string) (u : Source) (w : W)
  : bool :=
  FileExistsAt (fs r) (cacheDirPath r cacheBaseDir u) w.

Definition isCached (r : Remote) (cacheBaseDir : string) (u : Source) (w : W)
  : bool :=
  let cacheDirPath := cacheDirPath r cacheBaseDir u in
  let cachedFilePath := filepath.Join [cacheDirPath; File u] in
  if String.eqb (Getter u) "normal" && FileExistsAt (fs r) cachedFilePath w
  then true
  else if DirectoryExistsAt (fs r) cacheDirPath w then true
  else false.

(** The cache-miss branch of [Fetch]: [None] when the retrieval went
    through, otherwise the error [Fetch] returns. *)
Definition retrieve (r : Remote) (path cacheBaseDir : string) (u : Source)
  : M (option error) :=
  let cacheDirPath := cacheDirPath r cacheBaseDir u in
  let getterSrc := getterSrc u in
  if String.eqb (Getter u) "normal" && String.eqb (Scheme u) "s3" then
    err <- callGet r viaS3Getter (Home r) path cacheDirPath ;;
    match err with
    | Some _ => ret (multierr.Append err err)
    | None => ret None
    end
  else if String.eqb (Getter u) "normal"
          && (String.eqb (Scheme u) "https" || String.eqb (Scheme u) "http")
  then
    err <- callGet r viaHttpGetter (Home r) path cacheDirPath ;;
    match err with
    | Some _ => ret (multierr.Append err err)
    | None => ret None
    end
  else
    let getterSrc :=
      if negb (String.eqb (Getter u) "")
      then Getter u ++ "::" ++ getterSrc else getterSrc in
    err <- callGet r viaGetter (Home r) getterSrc cacheDirPath ;;
    match err with
    | Some _ =>
        rmerr <- RemoveAll cacheDirPath ;;
        match rmerr with
        | Some _ => ret (multierr.Append err rmerr)
        | None => ret err
        end
    | None => ret None
    end.

Definition Fetch (r : Remote) (path : string) (cacheDirOpt : list string)
  : M (outcome (string * option error)) :=
  match Parse path with
  | Panics msg => ret (Panics msg)
  | Returns (_, Some err) => ret (Returns ("", Some err))
  | Returns (None, None) => ret (Panics nilDereference)
  | Returns (Some u, None) =>
      let file := File u in
      if negb (Nat.eqb (List.length cacheDirOpt) 1)
         && Nat.ltb 0 (List.length cacheDirOpt)
      then ret (Returns ("", Some (cacheDirOptError (List.length cacheDirOpt))))
      else
        let cacheBaseDir := cacheBaseDirOf cacheDirOpt in
        let getterDst := getterDst cacheBaseDir u in
        let cacheDirPath := cacheDirPath r cacheBaseDir u in
        fun st =>
          if conflict r cacheBaseDir u (world st)
          then ret (Returns ("", Some (CachePathConflictError getterDst))) st
          else
            (err <- (if negb (isCached r cacheBaseDir u (world st))
                     then retrieve r path cacheBaseDir u
                     else ret None) ;;
             match err with
             | Some _ => ret (Returns ("", err))
             | None => ret (Returns (filepath.Join [cacheDirPath; file], None))
             end) st
  end.

Definition Locate (r : Remote) (urlOrPath : string) (cacheDirOpt : list string)
  : M (outcome (string * option error)) :=
  fun st =>
    if FileExistsAt (fs r) urlOrPath (world st)
       || DirectoryExistsAt (fs r) urlOrPath (world st)
    then ret (Returns (urlOrPath, None)) st
    else
      (res <- Fetch r urlOrPath cacheDirOpt ;;
       match res with
       | Panics msg => ret (Panics msg)
       | Returns (fetched, Some err) =>
           match err with
           | InvalidURLError _ => ret (Returns (urlOrPath, None))
           | _ => ret (Returns ("", Some err))
           end
       | Returns (fetched, None) => ret (Returns (fetched, None))
       end) st.

End Remote.

Arguments FileSystem W : clear implicits.
Arguments GetterI W : clear implicits.
Arguments Remote W : clear implicits.
Arguments State W : clear implicits.
Arguments M W A : clear implicits.

(** *** [ParseS3Url] *)

Definition ParseS3Url (s3URL : string) : string * string * option error :=
  match url.Parse s3URL with
  | inr err =>
      ("", "", Some (errorString ("failed to parse S3 URL: "
                                  ++ url.Error_Error s3URL err)))
  | inl parsedURL =>
      if negb (String.eqb (url.Scheme parsedURL) "s3")
      then ("", "", Some (errorString "invalid URL scheme (expected 's3')"))
      else (url.Host parsedURL, strings.TrimPrefix (url.Path parsedURL) "/", None)
  end.

(** *** The process environment, [init], [CacheDir] and [NewRemote]

    What the package reads from its process: the values [os.Getenv] gives
    for the two variables named in package [envvar], and the result of
    [os.UserCacheDir]. *)

Record Environment := {
  getenvDisableInsecureFeatures : string;
  getenvCacheHome : string;
  UserCacheDir : string * option error
}.

(** The package variable [disableInsecureFeatures] as [init] sets it: the
    error of [strconv.ParseBool] is dropped. *)
Definition disableInsecureFeatures (env : Environment) : bool :=
  fst (strconv.ParseBool (getenvDisableInsecureFeatures env)).

Definition CacheDir (env : Environment) : string :=
  let h := getenvCacheHome env in
  if negb (String.eqb h "") then h
  else match UserCacheDir env with
       | (_, Some _) => ".helmfile"
       | (dir, None) => filepath.Join [dir; "helmfile"]
       end.

(** The fields of [getter.Client] that [GoGetter.Get] sets from its
    arguments; the mode is always [ClientModeDir]. *)
Record Client := {
  Src : string;
  Dst : string;
  Pwd : string
}.

Definition disabledMessage : string :=
  "Remote sources are disabled due to 'DISABLE_INSECURE_FEATURES'".

Section Constructor.

Context {W : Type}.

(** [GoGetter.Get]: the call of go-getter's [Client.Get], a parameter
    here, with its error wrapped by [fmt.Errorf("get: %v", err)]. *)
Definition GoGetter (Client_Get : Client -> W -> option error * W)
  : GetterI W := {|
  Get wd src dst w :=
    let '(err, w') := Client_Get {| Src := src; Dst := dst; Pwd := wd |} w in
    (match err with
     | Some err => Some (errorString ("get: " ++ Error err))
     | None => None
     end, w')
|}.

(** [NewRemote].  The object-storage and the HTTP strategy it installs
    are passed in as [s3Getter] and [httpGetter]. *)
Definition NewRemote (env : Environment)
    (Client_Get : Client -> W -> option error * W)
    (s3Getter httpGetter : GetterI W)
    (homeDir : string) (fs : FileSystem W) : outcome (Remote W) :=
  if disableInsecureFeatures env then Panics disabledMessage
  else
    Returns {| Home := if String.eqb homeDir "" then CacheDir env else homeDir;
               Getter_ := GoGetter Client_Get;
               S3Getter := s3Getter;
               HttpGetter := httpGetter;
               fs := fs |}.

End Constructor.

(** *** The HTTP and the object-storage strategy

    [HttpGetter.Get], [HttpFileExists], [S3Getter.Get] and [S3FileExists]
    act through [net/http], [os] and the AWS SDK.  These calls are the
    fields of [Platform]: functions on the outside world [W] that return
    what the Go call returns.  A pointer result is an [option] ([None] is
    nil); [Body] stands for a non-nil [io.ReadCloser], [File] for an open
    [os.File] and [Session] for an AWS session.  The calls made are logged
    in order. *)

Inductive syscall :=
| Head (url : string)
| HttpGet (url : string)
| MkdirAll (path : string)
| Create (path : string)
| ReadFrom
| CloseFile
| CloseBody
| NewSession (region : option string)
| GetBucketLocation (bucket : string)
| HeadObject (bucket key : string)
| GetObject (bucket key : string).

Definition newline : string := String (ascii_of_nat 10) "".

Section Strategies.

Context {W Body File Session : Type}.

Record Platform := {
  http_Head : string -> W -> option error * W;
  http_Get : string -> W -> (option Body * option error) * W;
  os_MkdirAll : string -> W -> option error * W;
  os_Create : string -> W -> (File + error) * W;
  File_ReadFrom : File -> Body -> W -> option error * W;
  File_Close : File -> W -> option error * W;
  Body_Close : Body -> W -> option error * W;
  session_NewSession : option string -> W -> (Session + error) * W;
  s3_GetBucketLocation :
    Session -> string -> W -> (option (option string) * option error) * W;
  s3_HeadObject : Session -> string -> string -> W -> option error * W;
  s3_GetObject :
    Session -> string -> string -> W
    -> (option (option Body) * option error) * W
}.

Record Process := {
  outside : W;
  trace : list syscall
}.

Definition IO (A : Type) : Type := Process -> A * Process.

Definition unit_ {A} (a : A) : IO A := fun p => (a, p).

Definition then_ {A B} (m : IO A) (k : A -> IO B) : IO B :=
  fun p => let '(a, p') := m p in k a p'.

Notation "x <- m ;; k" := (then_ m (fun x => k))
  (at level 61, m at next level, right associativity).

(** One call of the platform, logged. *)
Definition sys {A} (c : syscall) (op : W -> A * W) : IO A :=
  fun p =>
    let '(a, w) := op (outside p) in
    (a, {| outside := w; trace := (trace p ++ [c])%list |}).

Variable pf : Platform.

Definition HttpFileExists (path : string) : IO (option error) :=
  sys (Head path) (http_Head pf path).

(** The deferred [Body.Close()]: its error is only logged. *)
Definition closeBody {A} (body : Body) (result : outcome A) : IO (outcome A) :=
  _ <- sys CloseBody (Body_Close pf body) ;; unit_ result.

(** The deferred [localFile.Close()]. *)
Definition closeFile {A} (localFile : File) (result : outcome A)
  : IO (outcome A) :=
  _ <- sys CloseFile (File_Close pf localFile) ;; unit_ result.

(** [HttpGetter.Get].  The argument [resp.Body] of the first deferred
    call is read when the [defer] statement runs, before the error of
    [http.Get] is looked at: with a nil response the read panics. *)
Definition HttpGetter_Get (wd src dst : string) : IO (outcome (option error)) :=
  match url.Parse src with
  | inr err => unit_ (Returns (Some (errorString (url.Error_Error src err))))
  | inl u =>
      let file := path.Base (url.Path u) in
      let targetFilePath := filepath.Join [dst; file] in
      err <- HttpFileExists src ;;
      match err with
      | Some _ => unit_ (Returns err)
      | None =>
          err <- sys (MkdirAll dst) (os_MkdirAll pf dst) ;;
          match err with
          | Some _ => unit_ (Returns err)
          | None =>
              res <- sys (HttpGet src) (http_Get pf src) ;;
              match res with
              | (None, _) => unit_ (Panics nilDereference)
              | (Some body, Some err) => closeBody body (Returns (Some err))
              | (Some body, None) =>
                  created <- sys (Create targetFilePath)
                                 (os_Create pf targetFilePath) ;;
                  match created with
                  | inr err => closeBody body (Returns (Some err))
                  | inl localFile =>
                      err <- sys ReadFrom (File_ReadFrom pf localFile body) ;;
                      result <- closeFile localFile (Returns err) ;;
                      closeBody body result
                  end
              end
          end
      end
  end.

(** [session.Must(session.NewSessionWithOptions(...))]: an error is
    turned into a panic. *)
Definition mustNewSession (region : option string) : IO (outcome Session) :=
  res <- sys (NewSession region) (session_NewSession pf region) ;;
  match res with
  | inl sess => unit_ (Returns sess)
  | inr err => unit_ (Panics (Error err))
  end.

(** [S3FileExists].  The test of [err] after the session is made reads
    the error of [ParseS3Url], which is nil there.  The region is read
    through two pointers, [resp] and [resp.LocationConstraint], after
    [HeadObject] and whatever its error. *)
Definition S3FileExists (path : string) : IO (outcome (string * option error)) :=
  let '(bucket, key, err) := ParseS3Url path in
  match err with
  | Some _ => unit_ (Returns ("", err))
  | None =>
      sess <- mustNewSession None ;;
      match sess with
      | Panics msg => unit_ (Panics msg)
      | Returns sess =>
          match err with
          | Some err =>
              unit_ (Returns ("", Some (errorString
                       ("failed to authentication with aws " ++ Error err))))
          | None =>
              res <- sys (GetBucketLocation bucket)
                         (s3_GetBucketLocation pf sess bucket) ;;
              match res with
              | (_, Some err) =>
                  unit_ (Returns ("", Some (errorString
                           ("Error: Failed to retrieve bucket location: "
                            ++ Error err ++ newline))))
              | (resp, None) =>
                  err <- sys (HeadObject bucket key)
                             (s3_HeadObject pf sess bucket key) ;;
                  match resp with
                  | Some (Some region) => unit_ (Returns (region, err))
                  | _ => unit_ (Panics nilDereference)
                  end
              end
          end
      end
  end.

(** The deferred [Body.Close()] of [S3Getter.Get]: [Body] is an
    interface value, and closing a nil one panics. *)
Definition closeS3Body {A} (body : option Body) (result : outcome A)
  : IO (outcome A) :=
  match body with
  | Some body => closeBody body result
  | None => unit_ (Panics nilDereference)
  end.

(** [S3Getter.Get].  As in [S3FileExists], the test of [err] after the
    session is made reads an error that is nil there (the one of
    [os.MkdirAll]).  A nil [resp] panics where [resp.Body] is read, a nil
    [Body] where it is closed or read from. *)
Definition S3Getter_Get (wd src dst : string) : IO (outcome (option error)) :=
  match url.Parse src with
  | inr err => unit_ (Returns (Some (errorString (url.Error_Error src err))))
  | inl u =>
      let file := path.Base (url.Path u) in
      let targetFilePath := filepath.Join [dst; file] in
      exists_ <- S3FileExists src ;;
      match exists_ with
      | Panics msg => unit_ (Panics msg)
      | Returns (_, Some err) => unit_ (Returns (Some err))
      | Returns (region, None) =>
          let '(bucket, key, err) := ParseS3Url src in
          match err with
          | Some _ => unit_ (Returns err)
          | None =>
              err <- sys (MkdirAll dst) (os_MkdirAll pf dst) ;;
              match err with
              | Some _ => unit_ (Returns err)
              | None =>
                  sess <- mustNewSession (Some region) ;;
                  match sess, err with
                  | Panics msg, _ => unit_ (Panics msg)
                  | Returns _, Some _ => unit_ (Returns err)
                  | Returns sess, None =>
                      res <- sys (GetObject bucket key)
                                 (s3_GetObject pf sess bucket key) ;;
                      match res with
                      | (None, _) => unit_ (Panics nilDereference)
                      | (Some body, Some err) =>
                          closeS3Body body (Returns (Some err))
                      | (Some body, None) =>
                          created <- sys (Create targetFilePath)
                                         (os_Create pf targetFilePath) ;;
                          match created with
                          | inr err => closeS3Body body (Returns (Some err))
                          | inl localFile =>
                              match body with
                              | None =>
                                  closeFile localFile (Panics nilDereference)
                              | Some body =>
                                  err <- sys ReadFrom
                                             (File_ReadFrom pf localFile body) ;;
                                  result <- closeFile localFile (Returns err) ;;
                                  closeBody body result
                              end
                          end
                      end
                  end
              end
          end
      end
  end.

End Strategies.

Arguments Platform W Body File Session : clear implicits.
Arguments Process W : clear implicits.
Arguments IO W A : clear implicits.

End remote.

(** ** A sample outside world

    A disk that maps paths to plain files and directories, a list of the
    sources a retrieval can reach, and a switch that makes removals fail.
    It serves to run [Fetch] and [Locate] on concrete inputs. *)

Module sample.

Import remote.

Inductive node := plainFile | directory.

Record World := {
  disk : list (string * node);
  reachable : list string;
  readOnly : bool
}.

Definition stat (w : World) (path : string) : option node :=
  match find (fun entry => String.eqb (fst entry) path) (disk w) with
  | Some (_, n) => Some n
  | None => None
  end.

Definition osFS : FileSystem World := {|
  FileExistsAt path w :=
    match stat w path with Some plainFile => true | _ => false end;
  DirectoryExistsAt path w :=
    match stat w path with Some directory => true | _ => false end
|}.

Definition below (path entry : string) : bool :=
  String.eqb entry path || strings.HasPrefix entry (path ++ "/").

Definition removeAll (path : string) (w : World) : option error * World :=
  if readOnly w
  then (Some (errorString ("unlinkat " ++ path ++ ": read-only file system")), w)
  else (None, {| disk := filter (fun entry => negb (below path (fst entry))) (disk w);
                 reachable := reachable w;
                 readOnly := readOnly w |}).

Definition mkdirAll (path : string) (w : World) : World :=
  match stat w path with
  | Some _ => w
  | None => {| disk := (path, directory) :: disk w;
               reachable := reachable w;
               readOnly := readOnly w |}
  end.

(** A retrieval strategy: a reachable source is materialised as a
    directory at [dst] (which fails over a plain file); an unreachable one
    fails, leaving a half-made [dst] behind when [leavesPartial] is set. *)
Definition fetcher (leavesPartial : bool) : GetterI World := {|
  Get wd src dst w :=
    if existsb (String.eqb src) (reachable w) then
      match stat w dst with
      | Some plainFile =>
          (Some (errorString ("mkdir " ++ dst ++ ": not a directory")), w)
      | _ => (None, mkdirAll dst w)
      end
    else (Some (errorString ("get: " ++ src ++ ": not found")),
          if leavesPartial then mkdirAll dst w else w)
|}.

Definition r : Remote World := {|
  Home := "/cache";
  Getter_ := fetcher true;
  S3Getter := fetcher false;
  HttpGetter := fetcher false;
  fs := osFS
|}.

(** A strategy that reports success and writes nothing, as a test double
    would. *)
Definition forgetful : GetterI World := {|
  Get wd src dst w := (None, w)
|}.

Definition rForgetful : Remote World := {|
  Home := "/cache";
  Getter_ := forgetful;
  S3Getter := forgetful;
  HttpGetter := forgetful;
  fs := osFS
|}.

Definition start (d : list (string * node)) (srcs : list string) (ro : bool)
  : State World :=
  {| world := {| disk := d; reachable := srcs; readOnly := ro |};
     calls := [] |}.

(** Strategies that all leave a half-made destination behind when they
    fail. *)
Definition rPartial : Remote World := {|
  Home := "/cache";
  Getter_ := fetcher true;
  S3Getter := fetcher true;
  HttpGetter := fetcher true;
  fs := osFS
|}.

(** A go-getter client, and the [Remote] with [GoGetter] over it. *)
Definition client (c : Client) (w : World) : option error * World :=
  if existsb (String.eqb (Src c)) (reachable w)
  then (None, mkdirAll (Dst c) w)
  else (Some (errorString ("error downloading '" ++ Src c ++ "'")), w).

Definition rGo : Remote World := {|
  Home := "/cache";
  Getter_ := GoGetter client;
  S3Getter := fetcher false;
  HttpGetter := fetcher false;
  fs := osFS
|}.

(** A platform over the sample world.  A reachable URL answers [HEAD];
    with [flaky] set, the download itself then fails: [http.Get] returns no
    response, [GetObject] a response without a body.  Directories and files
    can be made unless the disk is read-only.  The bucket [classic] has no
    location constraint. *)
Definition refused (op url : string) : error :=
  errorString (op ++ " " ++ url ++ ": connection refused").

Definition touch (path : string) (w : World) : World :=
  {| disk := (path, plainFile) :: disk w;
     reachable := reachable w;
     readOnly := readOnly w |}.

Definition objectURL (bucket key : string) : string :=
  "s3://" ++ bucket ++ "/" ++ key.

Definition platform (flaky : bool) : Platform World string string unit := {|
  http_Head url w :=
    (if existsb (String.eqb url) (reachable w) then None
     else Some (refused "Head" url), w);
  http_Get url w :=
    (if existsb (String.eqb url) (reachable w) && negb flaky
     then (Some url, None)
     else (None, Some (refused "Get" url)), w);
  os_MkdirAll path w :=
    if readOnly w
    then (Some (errorString ("mkdir " ++ path ++ ": read-only file system")), w)
    else (None, mkdirAll path w);
  os_Create path w :=
    if readOnly w
    then (inr (errorString ("open " ++ path ++ ": read-only file system")), w)
    else (inl path, touch path w);
  File_ReadFrom localFile body w := (None, w);
  File_Close localFile w := (None, w);
  Body_Close body w := (None, w);
  session_NewSession region w := (inl tt, w);
  s3_GetBucketLocation sess bucket w :=
    (Some (if String.eqb bucket "classic" then None else Some "eu-west-1"),
     None, w);
  s3_HeadObject sess bucket key w :=
    (if existsb (String.eqb (objectURL bucket key)) (reachable w) then None
     else Some (refused "HeadObject" (objectURL bucket key)), w);
  s3_GetObject sess bucket key w :=
    (if existsb (String.eqb (objectURL bucket key)) (reachable w) && negb flaky
     then (Some (Some (objectURL bucket key)), None)
     else (Some None, Some (refused "GetObject" (objectURL bucket key))), w)
|}.

Definition boot (srcs : list string) : Process World :=
  {| outside := {| disk := []; reachable := srcs; readOnly := false |};
     trace := [] |}.

End sample.

(** * The vocabulary of the claims *)

Import remote.

Unset Implicit Arguments.

Section Vocabulary.

Context {W : Type}.
Variable os_RemoveAll : string -> W -> option error * W.
Variable r : Remote W.

(** The state after one call of a retrieval strategy, and after one call
    of [os.RemoveAll]. *)
Definition afterGet (st : State W) (which : strategy) (src dst : string)
  (w : W) : State W :=
  {| world := w;
     calls := (calls st ++ [GetCalled which (Home r) src dst])%list |}.

Definition afterRemoveAll (st : State W) (path : string) (w : W)
  : State W :=
  {| world := w; calls := (calls st ++ [RemoveAllCalled path])%list |}.

(** What the retrieval strategies and the file system owe each other: a
    retrieval that reports success has made its destination directory, a
    directory is not a plain file, and a removal that reports success has
    left nothing at the path. *)
Definition getters_create_destination : Prop :=
  forall which wd src dst w w',
    Get (getter r which) wd src dst w = (None, w') ->
    DirectoryExistsAt (fs r) dst w' = true.

Definition directories_are_not_files : Prop :=
  forall path w,
    DirectoryExistsAt (fs r) path w = true -> FileExistsAt (fs r) path w = false.

Definition RemoveAll_removes : Prop :=
  forall path w w',
    os_RemoveAll path w = (None, w') -> DirectoryExistsAt (fs r) path w' = false.

(** C1 as the specification states it: after a successful [Fetch], the
    same [Fetch] again succeeds with the same path and calls nothing, and
    exactly one [Get] was called across the two. *)
Definition round_trip_with_exactly_one_Get
    (path : string) (cacheDirOpt : list string) (st : State W) : Prop :=
  forall p st1,
    Fetch os_RemoveAll r path cacheDirOpt st = (Returns (p, None), st1) ->
    exists st2,
      Fetch os_RemoveAll r path cacheDirOpt st1 = (Returns (p, None), st2)
      /\ calls st2 = calls st1
      /\ List.length (filter isGet (calls st2))
         = List.length (filter isGet (calls st)) + 1.

(** C10 as the specification states it: with two or more overrides the
    error of [Fetch] is the caller-bug error, for every reference. *)
Definition two_overrides_report_caller_bug
    (path : string) (cacheDirOpt : list string) (st : State W) : Prop :=
  2 <= List.length cacheDirOpt ->
  Fetch os_RemoveAll r path cacheDirOpt st
  = (Returns ("", Some (cacheDirOptError (List.length cacheDirOpt))), st).

End Vocabulary.

(** Where a parameter can sit in a query: after the start or an [&],
    before the end or an [&]. *)
Definition startsParameter (pre : string) : Prop :=
  pre = "" \/ exists pre', pre = pre' ++ "&".

Definition endsParameter (post : string) : Prop :=
  post = "" \/ exists post', post = "&" ++ post'.

(** A value [url.ParseQuery] keeps: no [&] (it would end the value), no
    semicolon and no malformed percent-escape. *)
Definition wellFormedValue (v : string) : Prop :=
  strings.Contains v "&" = false
  /\ strings.Contains v ";" = false
  /\ exists t, url.QueryUnescape v = inl t.

(** Two maps that hold the key and agree once it is set. *)
Definition agree_but_at (key : string) (m1 m2 : url.Values) : Prop :=
  url.Values_Has m1 key = true /\ url.Values_Has m2 key = true
  /\ forall x, url.Values_Set m1 key x = url.Values_Set m2 key x.

(** A query without a colon, a [?] or a [#]: nothing in it that the
    parsing of the reference before the query could take for a separator. *)
Definition plainQuery (q : string) : Prop :=
  strings.Contains q ":" = false
  /\ strings.Contains q "?" = false
  /\ strings.Contains q "#" = false.

(** Two URLs, two descriptors that differ in the query at most. *)
Definition sameButQuery (u1 u2 : url.URL) : Prop :=
  url.Scheme u1 = url.Scheme u2 /\ url.Opaque u1 = url.Opaque u2
  /\ url.User u1 = url.User u2 /\ url.Host u1 = url.Host u2
  /\ url.Path u1 = url.Path u2 /\ url.Fragment u1 = url.Fragment u2.

Definition sameButRawQuery (u1 u2 : Source) : Prop :=
  Getter u1 = Getter u2 /\ Scheme u1 = Scheme u2 /\ User u1 = User u2
  /\ Host u1 = Host u2 /\ Dir u1 = Dir u2 /\ File u1 = File u2.

(** The pieces [l], with [tail] added to the last one. *)
Fixpoint extendLast (l : list string) (tail : string) : list string :=
  match l with
  | [] => []
  | [x] => [x ++ tail]
  | x :: l' => x :: extendLast l' tail
  end.

(** C2 as the specification states it: two references that are the same
    but for the value of the [sshkey] parameter of the query get the same
    cache key, whatever the two values are. *)
Definition sshkey_value_never_matters : Prop :=
  forall pre v1 v2 post u1 u2,
    (exists base, pre = base ++ "?") \/ (exists front, pre = front ++ "&") ->
    endsParameter post ->
    strings.Contains v1 "&" = false -> strings.Contains v2 "&" = false ->
    strings.Contains v1 "#" = false -> strings.Contains v2 "#" = false ->
    Parse (pre ++ "sshkey=" ++ v1 ++ post) = Returns (Some u1, None) ->
    Parse (pre ++ "sshkey=" ++ v2 ++ post) = Returns (Some u2, None) ->
    cacheKey u1 = cacheKey u2.

(** C8 as the specification states it: every reference without [::] that
    has a direct [scheme://] with an unsupported scheme is rejected. *)
Definition every_unsupported_direct_scheme_is_rejected : Prop :=
  forall scheme rest,
    let path := scheme ++ "://" ++ rest in
    strings.Contains path "::" = false ->
    isProtocol (strings.ToLower scheme) = false ->
    Parse path = Returns (None, Some (UnsupportedSchemeError path)).

(** A scheme as [url.Parse] reads one: a letter, then letters and digits
    (the signs [+], [-] and [.], which it also reads, do not occur in the
    schemes of the direct syntax). *)
Definition schemeByte (c : ascii) : bool := isAlpha c || isDigit c.

Definition schemeLike (s : string) : bool :=
  match s with
  | EmptyString => false
  | String c s' => isAlpha c && forallb schemeByte (list_ascii_of_string s')
  end.

(** A path element that names a directory entry: not empty, not [.] or
    [..], and without a separator. *)
Definition properElement (e : string) : Prop :=
  e <> "" /\ e <> "." /\ e <> ".." /\ strings.Contains e "/" = false.

(** What [filepath.Clean] keeps of a path: elements that are not empty,
    not [.] and without a slash. *)
Definition kept (x : string) : Prop :=
  x <> "" /\ x <> "." /\ strings.Contains x "/" = false.

(** The entry [e] of the directory with the clean path [dir]. *)
Definition child (dir e : string) : string :=
  if String.eqb dir "/" then "/" ++ e
  else if String.eqb dir "." then e
  else dir ++ "/" ++ e.

(** One piece of a query as the loop of [url.ParseQuery] reads it: the
    decoded key and value, or nothing when the piece is dropped. *)
Definition decodePiece (piece : string) : option (string * string) :=
  if strings.Contains piece ";" then None
  else if String.eqb piece "" then None
  else
    let '(key, value, _) := strings.Cut piece "=" in
    match url.QueryUnescape key, url.QueryUnescape value with
    | inl key, inl value => Some (key, value)
    | _, _ => None
    end.

(** The pairs a list of pieces gives, in order. *)
Definition decoded (pieces : list string) : list (string * string) :=
  flat_map (fun piece => match decodePiece piece with
                         | Some kv => [kv]
                         | None => []
                         end) pieces.

(** [m[key] = append(m[key], value)] for a pair. *)
Definition appendPair (m : url.Values) (kv : string * string) : url.Values :=
  url.Values_append m (fst kv) (snd kv).

(** The entry a first pair of its key makes. *)
Definition single (kv : string * string) : string * list string :=
  (fst kv, [snd kv]).

(** What [Values.Set] does to the entry of [key]. *)
Definition redact (key value : string) (entry : string * list string)
  : string * list string :=
  if String.eqb (fst entry) key then (fst entry, [value]) else entry.

(** ** Concrete inputs *)

Module examples.

Import sample.

Definition chart : string :=
  "git::https://example.com/org/repo.git@file.yaml?ref=v1.0".

Definition chartSource : Source :=
  {| Getter := "git"; Scheme := "https"; User := ""; Host := "example.com";
     Dir := "/org/repo.git"; File := "file.yaml"; RawQuery := "ref=v1.0" |}.

Definition chartSrc : string := "git::https://example.com/org/repo.git?ref=v1.0".

Definition chartDir : string := "/cache/https_example_com_org_repo_git.ref=v1.0".

Definition chartFile : string :=
  "/cache/https_example_com_org_repo_git.ref=v1.0/file.yaml".

(** Nothing cached, the repository reachable. *)
Definition fresh : State World := start [] [chartSrc] false.

Definition fetched : State World :=
  {| world := {| disk := [(chartDir, directory)];
                 reachable := [chartSrc];
                 readOnly := false |};
     calls := [GetCalled viaGetter "/cache" chartSrc chartDir] |}.

(** The chart already in the cache. *)
Definition warm : State World := start [(chartDir, directory)] [chartSrc] false.

(** A plain file where the cache directory would be. *)
Definition blocked : State World := start [(chartDir, plainFile)] [chartSrc] false.

(** Nothing cached, nothing reachable. *)
Definition offline : State World := start [] [] false.

Definition object : string := "s3://bucket/charts/values.yaml".

Definition objectSource : Source :=
  {| Getter := "normal"; Scheme := "s3"; User := ""; Host := "bucket";
     Dir := "/charts"; File := "values.yaml"; RawQuery := "" |}.

Definition notFound (src : string) : error :=
  errorString ("get: " ++ src ++ ": not found").

(** A repository fetched over SSH with a private key in the query. *)
Definition keyed (query : string) : string :=
  "git::ssh://git@example.com/org/repo.git?" ++ query.

Definition keyedSource (query : string) : Source :=
  {| Getter := "git"; Scheme := "ssh"; User := "git"; Host := "example.com";
     Dir := "/org"; File := "repo.git"; RawQuery := query |}.

(** The object as a plain file of the working directory. *)
Definition localCopy : State World :=
  start [(object, plainFile)] [object] false.

Definition localPath : string := "./relative/not-a-url".

(** The object and another one of the same bucket directory, and their
    cache directory. *)
Definition sibling : string := "s3://bucket/charts/other.yaml".

Definition siblingSource : Source :=
  {| Getter := "normal"; Scheme := "s3"; User := ""; Host := "bucket";
     Dir := "/charts"; File := "other.yaml"; RawQuery := "" |}.

Definition objectDir : string := "/cache/s3_bucket_charts".

(** Nothing cached, the object reachable; and the state after it has
    been fetched. *)
Definition online : State World := start [] [object] false.

Definition fetchedObject : State World :=
  {| world := {| disk := [(objectDir, directory)];
                 reachable := [object];
                 readOnly := false |};
     calls := [GetCalled viaS3Getter "/cache" object objectDir] |}.

(** The state a failed retrieval of the object leaves when the strategy
    had made the destination. *)
Definition halfMade : State World :=
  {| world := {| disk := [(objectDir, directory)];
                 reachable := [];
                 readOnly := false |};
     calls := [GetCalled viaS3Getter "/cache" object objectDir] |}.

(** The object with the getter forced. *)
Definition forced : string := "normal::s3://bucket/charts/values.yaml".

(** A file served over HTTPS. *)
Definition page : string := "https://example.com/charts/values.yaml".

Definition pageSource : Source :=
  {| Getter := "normal"; Scheme := "https"; User := ""; Host := "example.com";
     Dir := "/charts"; File := "values.yaml"; RawQuery := "" |}.

Definition pageDir : string := "/cache/https_example_com_charts".

Definition pageFile : string := "/cache/https_example_com_charts/values.yaml".

Definition objectFile : string := "/cache/s3_bucket_charts/values.yaml".

(** The platform after the page, and after the object, has been
    downloaded into the cache directory. *)
Definition pageDownloaded : Process World :=
  {| outside := {| disk := [(pageFile, plainFile); (pageDir, directory)];
                   reachable := [page];
                   readOnly := false |};
     trace := [Head page; MkdirAll pageDir; HttpGet page; Create pageFile;
               ReadFrom; CloseFile; CloseBody] |}.

Definition objectDownloaded : Process World :=
  {| outside := {| disk := [(objectFile, plainFile); (objectDir, directory)];
                   reachable := [object];
                   readOnly := false |};
     trace := [NewSession None; GetBucketLocation "bucket";
               HeadObject "bucket" "charts/values.yaml"; MkdirAll objectDir;
               NewSession (Some "eu-west-1");
               GetObject "bucket" "charts/values.yaml"; Create objectFile;
               ReadFrom; CloseFile; CloseBody] |}.

(** The error of the sample go-getter client, wrapped by [GoGetter]. *)
Definition clientError (src : string) : error :=
  errorString ("get: error downloading '" ++ src ++ "'").

End examples.

Import examples.

(** * Properties *)

(** ** How [Fetch] unfolds *)

Section FetchFacts.

Context {W : Type}.
Variable os_RemoveAll : string -> W -> option error * W.
Variable r : Remote W.

Abbreviation Fetch := (Fetch os_RemoveAll r).
Abbreviation Locate := (Locate os_RemoveAll r).
Abbreviation retrieve := (retrieve os_RemoveAll r).

Lemma short_cacheDirOpt (cacheDirOpt : list string) :
  List.length cacheDirOpt <= 1 ->
  negb (Nat.eqb (List.length cacheDirOpt) 1)
  && Nat.ltb 0 (List.length cacheDirOpt) = false.
Proof.
  destruct cacheDirOpt as [|a [|b l]]; simpl; intros H; try reflexivity; lia.
Qed.

Lemma long_cacheDirOpt (cacheDirOpt : list string) :
  2 <= List.length cacheDirOpt ->
  negb (Nat.eqb (List.length cacheDirOpt) 1)
  && Nat.ltb 0 (List.length cacheDirOpt) = true.
Proof.
  destruct cacheDirOpt as [|a [|b l]]; simpl; intros H; try reflexivity; lia.
Qed.

Lemma Fetch_parse_error path cacheDirOpt st u err :
  Parse path = Returns (u, Some err) ->
  Fetch path cacheDirOpt st = (Returns ("", Some err), st).
Proof. intros H. unfold remote.Fetch. rewrite H. destruct u; reflexivity. Qed.

Lemma Fetch_too_many_overrides path cacheDirOpt st u :
  Parse path = Returns (Some u, None) ->
  2 <= List.length cacheDirOpt ->
  Fetch path cacheDirOpt st =
    (Returns ("", Some (cacheDirOptError (List.length cacheDirOpt))), st).
Proof.
  intros HP Hlen. unfold remote.Fetch. rewrite HP.
  rewrite (long_cacheDirOpt _ Hlen). reflexivity.
Qed.

Lemma Fetch_parsed path cacheDirOpt st u :
  Parse path = Returns (Some u, None) ->
  List.length cacheDirOpt <= 1 ->
  Fetch path cacheDirOpt st =
    let base := cacheBaseDirOf cacheDirOpt in
    if conflict r base u (world st)
    then (Returns ("", Some (CachePathConflictError (getterDst base u))), st)
    else if isCached r base u (world st)
    then (Returns (filepath.Join [cacheDirPath r base u; File u], None), st)
    else
      let '(err, st') := retrieve path base u st in
      (match err with
       | Some _ => Returns ("", err)
       | None => Returns (filepath.Join [cacheDirPath r base u; File u], None)
       end, st').
Proof.
  intros HP Hlen. unfold remote.Fetch. rewrite HP.
  rewrite (short_cacheDirOpt _ Hlen). cbv zeta.
  destruct (conflict r _ u (world st)); [reflexivity|].
  destruct (isCached r _ u (world st)); simpl; [reflexivity|].
  unfold bind. destruct (retrieve _ _ _ _) as [[e|] st']; reflexivity.
Qed.

(** The cache-miss branch calls the strategy [strategyOf] names, on
    [retrievalSrc], once; only a failure of the generic strategy is
    followed by [os.RemoveAll]. *)
Lemma retrieve_unfold path base u st :
  retrieve path base u st =
    let dst := cacheDirPath r base u in
    let which := strategyOf u in
    let src := retrievalSrc path u in
    let '(err, w1) := Get (getter r which) (Home r) src dst (world st) in
    match err, which with
    | None, _ => (None, afterGet r st which src dst w1)
    | Some _, viaGetter =>
        let '(rmerr, w2) := os_RemoveAll dst w1 in
        (match rmerr with
         | Some _ => multierr.Append err rmerr
         | None => err
         end, afterRemoveAll (afterGet r st which src dst w1) dst w2)
    | Some _, _ => (multierr.Append err err, afterGet r st which src dst w1)
    end.
Proof.
  unfold remote.retrieve, retrievalSrc, strategyOf, bind, callGet, RemoveAll,
    afterGet, afterRemoveAll, ret.
  destruct (String.eqb (Getter u) "normal" && String.eqb (Scheme u) "s3").
  - cbn [getter]. destruct (Get _ _ _ _ _) as [[e|] w1]; reflexivity.
  - destruct (String.eqb (Getter u) "normal"
              && (String.eqb (Scheme u) "https" || String.eqb (Scheme u) "http")).
    + cbn [getter]. destruct (Get _ _ _ _ _) as [[e|] w1]; reflexivity.
    + cbn [getter]. destruct (Get _ _ _ _ _) as [[e|] w1]; cbn [world calls].
      * destruct (os_RemoveAll _ _) as [[e'|] w2]; reflexivity.
      * reflexivity.
Qed.

End FetchFacts.

(** ** The claims about [Fetch] and [Locate] over any collaborators *)

Section FetchClaims.

Context {W : Type}.
Variable os_RemoveAll : string -> W -> option error * W.
Variable r : Remote W.

Abbreviation Fetch := (Fetch os_RemoveAll r).
Abbreviation Locate := (Locate os_RemoveAll r).

(** C3: a reference that exists locally, as a file or as a directory, is
    returned by [Locate] as it is and without an error, whatever [Parse]
    makes of it; the state is the one before the call, so [Fetch] did not
    run and no retrieval strategy was called. *)
Theorem Locate_local_precedence urlOrPath cacheDirOpt st :
  FileExistsAt (fs r) urlOrPath (world st) = true
  \/ DirectoryExistsAt (fs r) urlOrPath (world st) = true ->
  Locate urlOrPath cacheDirOpt st = (Returns (urlOrPath, None), st).
Proof.
  intros H. unfold remote.Locate.
  assert (E : FileExistsAt (fs r) urlOrPath (world st)
              || DirectoryExistsAt (fs r) urlOrPath (world st) = true)
    by (apply orb_true_iff; exact H).
  rewrite E. reflexivity.
Qed.

(** C5: when [Parse] accepts the reference and a plain file sits at the
    cache path computed for it (from no or one override), [Fetch] returns
    the cache-path-conflict error and the state is the one before the call:
    no retrieval strategy was called and nothing was changed. *)
Theorem Fetch_cache_path_conflict path cacheDirOpt st u :
  Parse path = Returns (Some u, None) ->
  List.length cacheDirOpt <= 1 ->
  FileExistsAt (fs r) (cacheDirPath r (cacheBaseDirOf cacheDirOpt) u) (world st)
  = true ->
  Fetch path cacheDirOpt st =
    (Returns ("", Some (CachePathConflictError
                          (getterDst (cacheBaseDirOf cacheDirOpt) u))), st).
Proof.
  intros HP Hlen Hfile.
  rewrite (Fetch_parsed os_RemoveAll r path cacheDirOpt st u HP Hlen).
  cbv zeta. unfold conflict. rewrite Hfile. reflexivity.
Qed.

(** C10, as amended: with two or more cache-dir overrides [Fetch] returns
    an error and leaves the state as it was (no retrieval, no change on
    disk); the error is the caller-bug error when [Parse] accepts the
    reference, and the error of [Parse] when it rejects it. *)
Theorem Fetch_rejects_two_overrides path cacheDirOpt st :
  2 <= List.length cacheDirOpt ->
  (forall u, Parse path = Returns (Some u, None) ->
     Fetch path cacheDirOpt st =
       (Returns ("", Some (cacheDirOptError (List.length cacheDirOpt))), st))
  /\ (forall u err, Parse path = Returns (u, Some err) ->
        Fetch path cacheDirOpt st = (Returns ("", Some err), st)).
Proof.
  intros Hlen. split.
  - intros u HP.
    apply (Fetch_too_many_overrides os_RemoveAll r path cacheDirOpt st u HP Hlen).
  - intros u err HP.
    apply (Fetch_parse_error os_RemoveAll r path cacheDirOpt st u err HP).
Qed.

(** A failed retrieval on the cache-miss path, strategy by strategy. *)
Lemma Fetch_retrieval_failed path cacheDirOpt st u e w1 :
  let base := cacheBaseDirOf cacheDirOpt in
  let dst := cacheDirPath r base u in
  let src := retrievalSrc path u in
  Parse path = Returns (Some u, None) ->
  List.length cacheDirOpt <= 1 ->
  conflict r base u (world st) = false ->
  isCached r base u (world st) = false ->
  Get (getter r (strategyOf u)) (Home r) src dst (world st) = (Some e, w1) ->
  Fetch path cacheDirOpt st =
    match strategyOf u with
    | viaGetter =>
        let '(rmerr, w2) := os_RemoveAll dst w1 in
        (Returns ("", match rmerr with
                      | Some _ => multierr.Append (Some e) rmerr
                      | None => Some e
                      end),
         afterRemoveAll (afterGet r st viaGetter src dst w1) dst w2)
    | which =>
        (Returns ("", multierr.Append (Some e) (Some e)),
         afterGet r st which src dst w1)
    end.
Proof.
  intros base dst src HP Hlen Hconf Hmiss HGet.
  rewrite (Fetch_parsed os_RemoveAll r path cacheDirOpt st u HP Hlen).
  cbv zeta. fold base. rewrite Hconf, Hmiss.
  rewrite retrieve_unfold. cbv zeta. fold dst src. rewrite HGet.
  destruct (strategyOf u); try reflexivity.
  destruct (os_RemoveAll dst w1) as [[rm|] w2]; reflexivity.
Qed.

(** C6: when the generic strategy fails on a cache miss, [Fetch] calls
    [os.RemoveAll] on the cache path right after the failed [Get] and
    before it returns.  When the removal succeeds, the error returned is
    the retrieval error and no directory is left at the cache path; when
    the removal fails too, the error returned lists the retrieval error
    and the removal error. *)
Theorem Fetch_generic_failure_cleanup path cacheDirOpt st u e w1 rmerr w2 :
  let base := cacheBaseDirOf cacheDirOpt in
  let dst := cacheDirPath r base u in
  let src := retrievalSrc path u in
  RemoveAll_removes os_RemoveAll r ->
  Parse path = Returns (Some u, None) ->
  List.length cacheDirOpt <= 1 ->
  conflict r base u (world st) = false ->
  isCached r base u (world st) = false ->
  strategyOf u = viaGetter ->
  Get (Getter_ r) (Home r) src dst (world st) = (Some e, w1) ->
  os_RemoveAll dst w1 = (rmerr, w2) ->
  exists err,
    Fetch path cacheDirOpt st =
      (Returns ("", Some err),
       {| world := w2;
          calls := (calls st ++ [GetCalled viaGetter (Home r) src dst;
                                 RemoveAllCalled dst])%list |})
    /\ (rmerr = None ->
        err = e /\ DirectoryExistsAt (fs r) dst w2 = false)
    /\ (forall rm, rmerr = Some rm ->
        multierr.Errors (Some err)
        = (multierr.Errors (Some e) ++ multierr.Errors (Some rm))%list).
Proof.
  intros base dst src Hrm HP Hlen Hconf Hmiss Hgen HGet HRm.
  assert (HGet' : Get (getter r (strategyOf u)) (Home r) src dst (world st)
                  = (Some e, w1)) by (rewrite Hgen; exact HGet).
  pose proof (Fetch_retrieval_failed path cacheDirOpt st u e w1
                HP Hlen Hconf Hmiss HGet') as HF.
  cbv zeta in HF. fold base dst src in HF. rewrite Hgen, HRm in HF.
  unfold afterRemoveAll, afterGet in HF. cbn [world calls] in HF.
  rewrite <- app_assoc in HF. cbn [app] in HF.
  destruct rmerr as [rm|].
  - exists (multiError (multierr.extractErrors e ++ multierr.extractErrors rm)%list).
    split; [exact HF|]. split; [discriminate|].
    intros rm' E. inversion E; subst. reflexivity.
  - exists e. split; [exact HF|]. split.
    + intros _. split; [reflexivity|]. apply (Hrm dst w1 w2 HRm).
    + discriminate.
Qed.

(** A successful [Fetch], taken apart: the reference was parsed, no
    plain file was in the way, and either the cache was hit and nothing
    happened, or one strategy was called once and reported success. *)
Lemma Fetch_succeeded path cacheDirOpt st p st1 :
  Fetch path cacheDirOpt st = (Returns (p, None), st1) ->
  exists u,
    let base := cacheBaseDirOf cacheDirOpt in
    let dst := cacheDirPath r base u in
    Parse path = Returns (Some u, None)
    /\ List.length cacheDirOpt <= 1
    /\ conflict r base u (world st) = false
    /\ p = filepath.Join [dst; File u]
    /\ (if isCached r base u (world st) then st1 = st
        else exists w1,
            Get (getter r (strategyOf u)) (Home r) (retrievalSrc path u) dst
              (world st) = (None, w1)
            /\ st1 = afterGet r st (strategyOf u) (retrievalSrc path u) dst w1).
Proof.
  intros HF.
  destruct (Parse path) as [[[u|] [err|]]|msg] eqn:HP.
  - rewrite (Fetch_parse_error os_RemoveAll r path cacheDirOpt st _ err HP) in HF.
    discriminate.
  - exists u. cbv zeta.
    destruct (Nat.le_gt_cases (List.length cacheDirOpt) 1) as [Hlen|Hlen].
    + rewrite (Fetch_parsed os_RemoveAll r path cacheDirOpt st u HP Hlen) in HF.
      cbv zeta in HF.
      destruct (conflict r _ u (world st)); [discriminate|].
      split; [reflexivity|]. split; [exact Hlen|]. split; [reflexivity|].
      destruct (isCached r _ u (world st)).
      * inversion HF; subst. split; reflexivity.
      * rewrite retrieve_unfold in HF. cbv zeta in HF.
        destruct (Get _ _ _ _ _) as [[e|] w1].
        -- destruct (strategyOf u);
             [destruct (os_RemoveAll _ _) as [[rm|] w2]| |]; discriminate.
        -- inversion HF; subst. split; [reflexivity|].
           exists w1. split; reflexivity.
    + rewrite (Fetch_too_many_overrides os_RemoveAll r path cacheDirOpt st u
                 HP Hlen) in HF.
      discriminate.
  - rewrite (Fetch_parse_error os_RemoveAll r path cacheDirOpt st _ err HP) in HF.
    discriminate.
  - unfold remote.Fetch in HF. rewrite HP in HF. discriminate.
  - unfold remote.Fetch in HF. rewrite HP in HF. discriminate.
Qed.

(** C1, as amended: provided a strategy that reports success has made
    the destination directory (and a directory is not a plain file), a
    second [Fetch] with the same reference and override, run on the state
    the first successful one left, succeeds with the same path and calls
    nothing.  Across the two calls there is one [Get] when the first call
    missed the cache, on the strategy chosen for the descriptor, and none
    when it hit. *)
Theorem Fetch_twice_same_path path cacheDirOpt st p st1 :
  getters_create_destination r ->
  directories_are_not_files r ->
  Fetch path cacheDirOpt st = (Returns (p, None), st1) ->
  Fetch path cacheDirOpt st1 = (Returns (p, None), st1)
  /\ exists u,
      let base := cacheBaseDirOf cacheDirOpt in
      Parse path = Returns (Some u, None)
      /\ calls st1 =
         (calls st ++
            if isCached r base u (world st) then []
            else [GetCalled (strategyOf u) (Home r) (retrievalSrc path u)
                    (cacheDirPath r base u)])%list.
Proof.
  intros Hmk Hexcl HF.
  destruct (Fetch_succeeded path cacheDirOpt st p st1 HF)
    as (u & HP & Hlen & Hconf & Hp & Hrun).
  destruct (isCached r (cacheBaseDirOf cacheDirOpt) u (world st)) eqn:Hhit.
  - subst st1. split; [exact HF|].
    exists u. cbv zeta. split; [exact HP|]. rewrite Hhit, app_nil_r. reflexivity.
  - destruct Hrun as (w1 & HGet & Hst1). split.
    + rewrite (Fetch_parsed os_RemoveAll r path cacheDirOpt st1 u HP Hlen).
      cbv zeta. pose proof (Hmk _ _ _ _ _ _ HGet) as Hdir.
      assert (Hw : world st1 = w1) by (subst st1; reflexivity).
      rewrite Hw. unfold conflict. rewrite (Hexcl _ _ Hdir).
      unfold isCached. rewrite Hdir.
      destruct (String.eqb (Getter u) "normal" && _); rewrite Hp; reflexivity.
    + exists u. cbv zeta. split; [exact HP|]. rewrite Hhit. subst st1.
      reflexivity.
Qed.

(** The object-storage and the HTTP strategy: a failure is returned to
    the caller combined with itself, and nothing is removed. *)
Lemma Fetch_direct_failure path cacheDirOpt st u e w1 :
  let base := cacheBaseDirOf cacheDirOpt in
  let dst := cacheDirPath r base u in
  Parse path = Returns (Some u, None) ->
  List.length cacheDirOpt <= 1 ->
  conflict r base u (world st) = false ->
  isCached r base u (world st) = false ->
  strategyOf u <> viaGetter ->
  Get (getter r (strategyOf u)) (Home r) path dst (world st) = (Some e, w1) ->
  Fetch path cacheDirOpt st =
    (Returns ("", Some (multiError (multierr.extractErrors e
                                      ++ multierr.extractErrors e)%list)),
     {| world := w1;
        calls := (calls st ++ [GetCalled (strategyOf u) (Home r) path dst])%list |}).
Proof.
  intros base dst HP Hlen Hconf Hmiss Hdirect HGet.
  assert (Hsrc : retrievalSrc path u = path).
  { unfold retrievalSrc. destruct (strategyOf u); congruence. }
  rewrite <- Hsrc in HGet.
  rewrite (Fetch_retrieval_failed path cacheDirOpt st u e w1
             HP Hlen Hconf Hmiss HGet).
  rewrite Hsrc. destruct (strategyOf u); [congruence| |]; reflexivity.
Qed.

End FetchClaims.

(** ** References without a colon

    A scheme, a forced getter and a direct [scheme://] all need a colon: a
    reference without one reaches the URL parser whole and comes back
    without a scheme. *)

Section NoColon.

Lemma Contains_cons c s sep :
  strings.Contains (String c s) sep = false ->
  strings.HasPrefix (String c s) sep = false /\ strings.Contains s sep = false.
Proof.
  unfold strings.Contains. cbn [strings.cutAt].
  destruct (strings.HasPrefix (String c s) sep); [discriminate|].
  destruct (strings.cutAt sep s) as [[a b]|]; [discriminate|].
  intros _. split; reflexivity.
Qed.

Lemma prefix_cons a s1 b s2 :
  String.prefix (String a s1) (String b s2)
  = if Ascii.ascii_dec a b then String.prefix s1 s2 else false.
Proof. reflexivity. Qed.

Lemma Contains_colon_cons c s :
  strings.Contains (String c s) ":" = false ->
  Ascii.eqb c ":" = false /\ strings.Contains s ":" = false.
Proof.
  intros H. apply Contains_cons in H. destruct H as [Hp Hs]. split; [|exact Hs].
  unfold strings.HasPrefix in Hp. rewrite prefix_cons in Hp.
  destruct (Ascii.ascii_dec ":" c) as [E|E].
  - destruct s; discriminate Hp.
  - apply Ascii.eqb_neq. congruence.
Qed.

(** A separator that starts with a colon does not occur. *)
Lemma HasPrefix_colon_sep c s sep' :
  Ascii.eqb c ":" = false ->
  strings.HasPrefix (String c s) (String ":" sep') = false.
Proof.
  intros H. unfold strings.HasPrefix. rewrite prefix_cons.
  destruct (Ascii.ascii_dec ":" c) as [E|E]; [|reflexivity].
  subst c. discriminate.
Qed.

Lemma splitFrom_no_colon s sep' :
  strings.Contains s ":" = false ->
  strings.splitFrom (String ":" sep') 0 s = [s].
Proof.
  induction s as [|c s IH]; intros H; [reflexivity|].
  apply Contains_colon_cons in H. destruct H as [Hc Hs].
  cbn [strings.splitFrom]. rewrite (HasPrefix_colon_sep c s sep' Hc).
  rewrite (IH Hs). reflexivity.
Qed.

Lemma cutAt_no_colon sep s before after :
  strings.Contains s ":" = false ->
  strings.cutAt sep s = Some (before, after) ->
  strings.Contains before ":" = false.
Proof.
  revert before after. induction s as [|c s IH]; intros before after H HC.
  - cbn in HC. destruct sep; [|discriminate HC].
    inversion HC; reflexivity.
  - cbn [strings.cutAt] in HC.
    destruct (strings.HasPrefix (String c s) sep).
    + inversion HC; reflexivity.
    + destruct (strings.cutAt sep s) as [[a b]|] eqn:E; [|discriminate].
      inversion HC; subst. apply Contains_colon_cons in H.
      destruct H as [Hc Hs]. specialize (IH a after Hs eq_refl).
      unfold strings.Contains in *. cbn [strings.cutAt].
      rewrite (HasPrefix_colon_sep c a "" Hc).
      destruct (strings.cutAt ":" a) as [[x y]|]; [discriminate|reflexivity].
Qed.

Lemma getSchemeFrom_no_colon rest i rawURL :
  strings.Contains rest ":" = false ->
  url.getSchemeFrom i rawURL rest = Some ("", rawURL).
Proof.
  revert i. induction rest as [|c rest IH]; intros i H; [reflexivity|].
  apply Contains_colon_cons in H. destruct H as [Hc Hs].
  cbn [url.getSchemeFrom]. rewrite Hc.
  destruct (isAlpha c); [apply IH; exact Hs|].
  destruct (isDigit c || oneOf "+-." c); [|reflexivity].
  destruct (Nat.eqb i 0); [reflexivity|apply IH; exact Hs].
Qed.

(** Whatever [parse] returns carries the scheme [getScheme] found,
    lower-cased. *)
Lemma parse_Scheme rawURL u :
  url.parse rawURL = inl u ->
  url.Scheme u = ""
  \/ exists scheme rest,
      url.getScheme rawURL = Some (scheme, rest)
      /\ url.Scheme u = strings.ToLower scheme.
Proof.
  unfold url.parse. intros H.
  destruct (url.stringContainsCTLByte rawURL); [discriminate|].
  destruct (String.eqb rawURL "*"); [inversion H; left; reflexivity|].
  destruct (url.getScheme rawURL) as [[scheme rest]|]; [|discriminate].
  right. exists scheme, rest. split; [reflexivity|].
  unfold url.parseHierarchy in H.
  repeat match type of H with
         | (let '(_, _) := ?x in _) = _ => destruct x
         | (if ?b then _ else _) = _ => destruct b
         | match ?x with _ => _ end = _ => destruct x
         | inr _ = inl _ => discriminate
         | inl _ = inl _ => inversion H; subst; clear H
         end; reflexivity.
Qed.

Lemma parse_Scheme_no_colon rawURL u :
  strings.Contains rawURL ":" = false ->
  url.parse rawURL = inl u -> url.Scheme u = "".
Proof.
  intros Hc Hu.
  destruct (parse_Scheme rawURL u Hu) as [E|(scheme & rest & Hs & E)];
    [exact E|].
  unfold url.getScheme in Hs.
  rewrite (getSchemeFrom_no_colon rawURL 0 rawURL Hc) in Hs.
  inversion Hs; subst. exact E.
Qed.

Lemma Parse_Scheme_no_colon rawURL u :
  strings.Contains rawURL ":" = false ->
  url.Parse rawURL = inl u -> url.Scheme u = "".
Proof.
  intros Hno. unfold url.Parse, strings.Cut.
  destruct (strings.cutAt "#" rawURL) as [[before after]|] eqn:Ecut.
  - pose proof (cutAt_no_colon "#" rawURL before after Hno Ecut) as Hb.
    destruct (url.parse before) as [v|e] eqn:Ep; [|discriminate].
    pose proof (parse_Scheme_no_colon before v Hb Ep) as Hv.
    destruct (String.eqb after "").
    + intros H; inversion H; subst. exact Hv.
    + destruct (url.unescape after url.encodeFragment); [|discriminate].
      intros H; inversion H; subst. exact Hv.
  - destruct (url.parse rawURL) as [v|e] eqn:Ep; [|discriminate].
    pose proof (parse_Scheme_no_colon rawURL v Hno Ep) as Hv.
    destruct (String.eqb "" ""); intros H; inversion H; subst; exact Hv.
Qed.

(** [Parse] turns down a reference without a colon as not a URL. *)
Lemma Parse_no_colon path :
  strings.Contains path ":" = false ->
  exists msg, Parse path = Returns (None, Some (InvalidURLError msg)).
Proof.
  intros Hno. unfold Parse, strings.Split.
  rewrite (splitFrom_no_colon path ":" Hno).
  rewrite (splitFrom_no_colon path "//" Hno). cbn [List.length Nat.eqb].
  unfold parseGetterSrc.
  destruct (url.Parse path) as [u|err] eqn:EP.
  - rewrite (Parse_Scheme_no_colon path u Hno EP). cbn [String.eqb].
    eexists; reflexivity.
  - eexists; reflexivity.
Qed.

End NoColon.

Section LocateFallback.

Context {W : Type}.
Variable os_RemoveAll : string -> W -> option error * W.
Variable r : Remote W.

Abbreviation Fetch := (Fetch os_RemoveAll r).
Abbreviation Locate := (Locate os_RemoveAll r).

Lemma Locate_not_local urlOrPath cacheDirOpt st :
  FileExistsAt (fs r) urlOrPath (world st) = false ->
  DirectoryExistsAt (fs r) urlOrPath (world st) = false ->
  Locate urlOrPath cacheDirOpt st =
    let '(res, st1) := Fetch urlOrPath cacheDirOpt st in
    (match res with
     | Panics msg => Panics msg
     | Returns (_, Some (InvalidURLError _)) => Returns (urlOrPath, None)
     | Returns (_, Some err) => Returns ("", Some err)
     | Returns (fetched, None) => Returns (fetched, None)
     end, st1).
Proof.
  intros Hf Hd. unfold remote.Locate. rewrite Hf, Hd. cbn [orb]. unfold bind.
  destruct (Fetch urlOrPath cacheDirOpt st) as [[[p [[m|m|l]|]]|msg] st1];
    reflexivity.
Qed.

(** C4: for a reference that does not exist locally, [Locate] turns an
    [InvalidURLError] of [Fetch] into the reference itself with no error,
    and returns every other error of [Fetch] as it is, with an empty
    path.  [Parse] rejecting the reference with [InvalidURLError] is such a
    case, and every reference without a colon (no scheme, no forced
    getter), such as [./relative/not-a-url], is rejected that way. *)
Theorem Locate_falls_back_on_InvalidURLError urlOrPath cacheDirOpt st :
  FileExistsAt (fs r) urlOrPath (world st) = false ->
  DirectoryExistsAt (fs r) urlOrPath (world st) = false ->
  (forall p msg st1,
      Fetch urlOrPath cacheDirOpt st
      = (Returns (p, Some (InvalidURLError msg)), st1) ->
      Locate urlOrPath cacheDirOpt st = (Returns (urlOrPath, None), st1))
  /\ (forall p err st1,
        Fetch urlOrPath cacheDirOpt st = (Returns (p, Some err), st1) ->
        (forall msg, err <> InvalidURLError msg) ->
        Locate urlOrPath cacheDirOpt st = (Returns ("", Some err), st1))
  /\ (forall u msg,
        Parse urlOrPath = Returns (u, Some (InvalidURLError msg)) ->
        Locate urlOrPath cacheDirOpt st = (Returns (urlOrPath, None), st))
  /\ (strings.Contains urlOrPath ":" = false ->
      (exists msg,
          Fetch urlOrPath cacheDirOpt st
          = (Returns ("", Some (InvalidURLError msg)), st))
      /\ Locate urlOrPath cacheDirOpt st = (Returns (urlOrPath, None), st)).
Proof.
  intros Hf Hd.
  pose proof (Locate_not_local urlOrPath cacheDirOpt st Hf Hd) as HL.
  assert (Hparse : forall u msg,
             Parse urlOrPath = Returns (u, Some (InvalidURLError msg)) ->
             Locate urlOrPath cacheDirOpt st = (Returns (urlOrPath, None), st)).
  { intros u msg HP. rewrite HL.
    rewrite (Fetch_parse_error os_RemoveAll r urlOrPath cacheDirOpt st u _ HP).
    reflexivity. }
  repeat split.
  - intros p msg st1 HF. rewrite HL, HF. reflexivity.
  - intros p err st1 HF Hne. rewrite HL, HF.
    destruct err as [m| |]; [exfalso; apply (Hne m); reflexivity| |];
      reflexivity.
  - exact Hparse.
  - destruct (Parse_no_colon urlOrPath H) as [msg HP]. exists msg.
    apply (Fetch_parse_error os_RemoveAll r urlOrPath cacheDirOpt st None _ HP).
  - destruct (Parse_no_colon urlOrPath H) as [msg HP].
    apply (Hparse None msg HP).
Qed.

End LocateFallback.

(** ** The claims about [Parse] *)

(** [Parse] returns a descriptor or an error, never both and never
    neither; what is left is the panic of [ParseNormal]. *)
Lemma Parse_returns_descriptor_or_error path u err :
  Parse path = Returns (u, err) ->
  (exists d, u = Some d /\ err = None) \/ (u = None /\ exists e, err = Some e).
Proof.
  unfold Parse, ParseNormal, ParseNormalProtocol, parseGetterSrc. intros H.
  repeat match type of H with
         | (if ?b then _ else _) = _ => destruct b
         | match ?x with _ => _ end = _ => destruct x
         | Panics _ = Returns _ => discriminate H
         | Returns _ = Returns _ => inversion H; subst; clear H
         end;
    first [left; eexists; split; reflexivity
          |right; split; [reflexivity|eexists; reflexivity]].
Qed.

Section Totality.

Context {W : Type}.
Variable os_RemoveAll : string -> W -> option error * W.
Variable r : Remote W.

(** [Fetch] returns, with a path or an error, unless [Parse] panics. *)
Lemma Fetch_returns_unless_Parse_panics path cacheDirOpt st :
  (exists msg,
      Parse path = Panics msg
      /\ Fetch os_RemoveAll r path cacheDirOpt st = (Panics msg, st))
  \/ (exists p err st1,
        Fetch os_RemoveAll r path cacheDirOpt st = (Returns (p, err), st1)).
Proof.
  destruct (Parse path) as [[u err]|msg] eqn:HP.
  - right.
    destruct (Parse_returns_descriptor_or_error path u err HP)
      as [(d & -> & ->)|(-> & e & ->)].
    + destruct (Nat.le_gt_cases (List.length cacheDirOpt) 1) as [Hlen|Hlen].
      * rewrite (Fetch_parsed os_RemoveAll r path cacheDirOpt st d HP Hlen).
        cbv zeta. destruct (conflict r _ d (world st)); [repeat eexists|].
        destruct (isCached r _ d (world st)); [repeat eexists|].
        destruct (retrieve os_RemoveAll r path _ d st) as [[e|] st1];
          repeat eexists.
      * rewrite (Fetch_too_many_overrides os_RemoveAll r path cacheDirOpt st d
                   HP Hlen).
        repeat eexists.
    + rewrite (Fetch_parse_error os_RemoveAll r path cacheDirOpt st None e HP).
      repeat eexists.
  - left. exists msg. split; [reflexivity|].
    unfold Fetch. rewrite HP. reflexivity.
Qed.

End Totality.

(** C8, as amended: a reference that does not split in two at [::] and
    splits in exactly two at [://] -- one direct [scheme://] -- is rejected
    with the unsupported-scheme error when the part before [://], in lower
    case, is none of [s3], [http] and [https]. *)
Theorem Parse_rejects_unsupported_direct_scheme path :
  List.length (strings.Split path "::") <> 2 ->
  List.length (strings.Split path "://") = 2 ->
  isProtocol (strings.ToLower (hd "" (strings.Split path "://"))) = false ->
  Parse path = Returns (None, Some (UnsupportedSchemeError path)).
Proof.
  intros Hforced Hdirect Hscheme. unfold Parse.
  apply Nat.eqb_neq in Hforced. rewrite Hforced.
  rewrite Hdirect. cbn [Nat.eqb].
  unfold ParseNormal, ParseNormalProtocol.
  destruct (strings.Split path "://") as [|part0 parts]; [discriminate Hdirect|].
  cbn [hd] in Hscheme. rewrite Hscheme. reflexivity.
Qed.

(** A reference with a second [://] is not taken for the direct syntax:
    [ftp://host/x://y] goes to the URL parser and is accepted. *)
Lemma second_direct_scheme_is_accepted :
  Parse "ftp://host/x://y"
  = Returns (Some {| Getter := ""; Scheme := "ftp"; User := ""; Host := "host";
                     Dir := "/x:"; File := "y"; RawQuery := "" |}, None)
  /\ ~ every_unsupported_direct_scheme_is_rejected.
Proof.
  assert (E : Parse "ftp://host/x://y"
              = Returns (Some {| Getter := ""; Scheme := "ftp"; User := "";
                                 Host := "host"; Dir := "/x:"; File := "y";
                                 RawQuery := "" |}, None))
    by (vm_compute; reflexivity).
  split; [exact E|].
  intros H. specialize (H "ftp" "host/x://y" eq_refl eq_refl).
  cbv zeta in H. change ("ftp" ++ "://" ++ "host/x://y") with "ftp://host/x://y" in H.
  rewrite E in H. discriminate H.
Qed.

(** The other scenario of the specification, in the direct syntax. *)
Example Parse_s3_example :
  Parse "s3://my-bucket/path/to/object.yaml"
  = Returns (Some {| Getter := "normal"; Scheme := "s3"; User := "";
                     Host := "my-bucket"; Dir := "/path/to";
                     File := "object.yaml"; RawQuery := "" |}, None).
Proof. vm_compute. reflexivity. Qed.

(** In the direct syntax a supported scheme is not enough: when the URL
    parser rejects the reference (here for the space in the host),
    [ParseNormal] reads the path of the nil URL and panics. *)
Example ParseNormal_panics_on_rejected_URL :
  url.Parse "http://a b/" = inr (url.InvalidHostError " ")
  /\ Parse "http://a b/" = Panics nilDereference.
Proof. split; vm_compute; reflexivity. Qed.

(** C9: the forced-getter example.  [git] is split off at [::], the rest
    is parsed as a URL, and its path [/org/repo.git//sub@file.yaml] splits in
    exactly two at [@] into [Dir] and [File]. *)
Theorem Parse_forced_git_example :
  Parse "git::https://example.com/org/repo.git//sub@file.yaml?ref=v1.0"
  = Returns (Some {| Getter := "git";
                     Scheme := "https";
                     User := "";
                     Host := "example.com";
                     Dir := "/org/repo.git//sub";
                     File := "file.yaml";
                     RawQuery := "ref=v1.0" |}, None)
  /\ strings.Split "/org/repo.git//sub@file.yaml" "@"
     = ["/org/repo.git//sub"; "file.yaml"].
Proof. split; vm_compute; reflexivity. Qed.

(** ** The cache key and the secret in the query *)

Section Redaction.

Lemma length_app (a b : string) :
  String.length (a ++ b) = String.length a + String.length b.
Proof. induction a as [|c a IH]; cbn; [reflexivity|rewrite IH; reflexivity]. Qed.

Lemma HasPrefix_byte c s d :
  strings.HasPrefix (String c s) (String d "")
  = if Ascii.ascii_dec d c then true else false.
Proof.
  unfold strings.HasPrefix. rewrite prefix_cons.
  destruct (Ascii.ascii_dec d c); [destruct s|]; reflexivity.
Qed.

Lemma Contains_byte_cons c s d :
  strings.Contains (String c s) (String d "") = false ->
  c <> d /\ strings.Contains s (String d "") = false.
Proof.
  intros H. apply Contains_cons in H. destruct H as [Hp Hs]. split; [|exact Hs].
  rewrite HasPrefix_byte in Hp.
  destruct (Ascii.ascii_dec d c); [discriminate Hp|congruence].
Qed.

Lemma Contains_byte_app a b d :
  strings.Contains a (String d "") = false ->
  strings.Contains b (String d "") = false ->
  strings.Contains (a ++ b) (String d "") = false.
Proof.
  induction a as [|c a IH]; intros Ha Hb; [exact Hb|].
  apply Contains_byte_cons in Ha. destruct Ha as [Hc Ha].
  specialize (IH Ha Hb). unfold strings.Contains in *. cbn [append strings.cutAt].
  rewrite HasPrefix_byte.
  destruct (Ascii.ascii_dec d c); [congruence|].
  destruct (strings.cutAt (String d "") (a ++ b)) as [[x y]|];
    [discriminate IH|reflexivity].
Qed.

Lemma splitFrom_nonempty sep skip s : strings.splitFrom sep skip s <> [].
Proof.
  revert skip. induction s as [|c s IH]; intros skip; [discriminate|].
  cbn [strings.splitFrom]. destruct skip; [|apply IH].
  destruct (strings.HasPrefix (String c s) sep); [discriminate|].
  destruct (strings.splitFrom sep 0 s); discriminate.
Qed.

(** Splitting at a byte: a string without it is one piece, and a byte in
    the middle splits the pieces of the two sides. *)
Lemma Split_byte_none s d :
  strings.Contains s (String d "") = false ->
  strings.Split s (String d "") = [s].
Proof.
  unfold strings.Split. induction s as [|c s IH]; intros H; [reflexivity|].
  apply Contains_byte_cons in H. destruct H as [Hc Hs].
  cbn [strings.splitFrom]. rewrite HasPrefix_byte.
  destruct (Ascii.ascii_dec d c); [congruence|]. rewrite (IH Hs). reflexivity.
Qed.

Lemma Split_byte_app a b d :
  strings.Split (a ++ String d b) (String d "")
  = (strings.Split a (String d "") ++ strings.Split b (String d ""))%list.
Proof.
  unfold strings.Split. induction a as [|c a IH].
  - cbn [append strings.splitFrom]. rewrite HasPrefix_byte.
    destruct (Ascii.ascii_dec d d); [reflexivity|congruence].
  - cbn [append strings.splitFrom]. rewrite !HasPrefix_byte.
    destruct (Ascii.ascii_dec d c).
    + cbn [String.length Nat.sub]. rewrite IH. reflexivity.
    + rewrite IH.
      destruct (strings.splitFrom (String d "") 0 a) as [|p ps] eqn:E;
        [exfalso; apply (splitFrom_nonempty _ _ _ E)|reflexivity].
Qed.

(** [Values]: setting a key forgets what was appended to it, and passes
    over what is appended to another key. *)
Lemma Values_Set_append_same m key value x :
  url.Values_Set (url.Values_append m key value) key x = url.Values_Set m key x.
Proof.
  induction m as [|[k vs] m IH]; cbn.
  - rewrite String.eqb_refl. reflexivity.
  - destruct (String.eqb k key) eqn:E; cbn; rewrite E; [reflexivity|].
    rewrite IH. reflexivity.
Qed.

Lemma Values_Set_append_other m key k value x :
  url.Values_Has m key = true -> k <> key ->
  url.Values_Set (url.Values_append m k value) key x
  = url.Values_append (url.Values_Set m key x) k value.
Proof.
  intros Hhas Hne. induction m as [|[k' vs] m IH]; [discriminate Hhas|].
  cbn in Hhas |- *.
  destruct (String.eqb k' k) eqn:Ek; destruct (String.eqb k' key) eqn:Ekey;
    cbn; rewrite ?Ek, ?Ekey; try reflexivity.
  - apply String.eqb_eq in Ek, Ekey. congruence.
  - cbn in Hhas. rewrite (IH Hhas). reflexivity.
Qed.

Lemma Values_Has_append m k value key :
  url.Values_Has (url.Values_append m k value) key
  = url.Values_Has m key || String.eqb k key.
Proof.
  unfold url.Values_Has. induction m as [|[k' vs] m IH]; cbn.
  - rewrite orb_false_r. reflexivity.
  - destruct (String.eqb k' k) eqn:Ek; cbn.
    + apply String.eqb_eq in Ek. subst k'. clear IH.
      destruct (String.eqb k key); cbn; [reflexivity|].
      rewrite orb_false_r. reflexivity.
    + rewrite IH. rewrite orb_assoc. reflexivity.
Qed.

Lemma agree_but_at_append key m1 m2 k value :
  agree_but_at key m1 m2 ->
  agree_but_at key (url.Values_append m1 k value) (url.Values_append m2 k value).
Proof.
  intros (H1 & H2 & HS). unfold agree_but_at.
  rewrite !Values_Has_append, H1, H2. repeat split.
  intros x. destruct (String.eqb_spec k key) as [E|E].
  - subst k. rewrite !Values_Set_append_same. apply HS.
  - rewrite !Values_Set_append_other by assumption. rewrite HS. reflexivity.
Qed.

Lemma parsePair_agree key m1 m2 e1 e2 piece :
  agree_but_at key m1 m2 ->
  agree_but_at key (fst (url.parsePair (m1, e1) piece))
                   (fst (url.parsePair (m2, e2) piece)).
Proof.
  intros H. unfold url.parsePair.
  destruct (strings.Contains piece ";"); [exact H|].
  destruct (String.eqb piece ""); [exact H|].
  destruct (strings.Cut piece "=") as [[k v] found].
  destruct (url.QueryUnescape k) as [k'|]; [|exact H].
  destruct (url.QueryUnescape v) as [v'|]; [|exact H].
  cbn [fst]. apply agree_but_at_append. exact H.
Qed.

Lemma fold_parsePair_agree key pieces m1 m2 e1 e2 :
  agree_but_at key m1 m2 ->
  agree_but_at key (fst (fold_left url.parsePair pieces (m1, e1)))
                   (fst (fold_left url.parsePair pieces (m2, e2))).
Proof.
  revert m1 m2 e1 e2. induction pieces as [|piece pieces IH];
    intros m1 m2 e1 e2 H; [exact H|].
  cbn [fold_left].
  pose proof (parsePair_agree key m1 m2 e1 e2 piece H) as H'.
  destruct (url.parsePair (m1, e1) piece) as [m1' e1'].
  destruct (url.parsePair (m2, e2) piece) as [m2' e2'].
  apply IH. exact H'.
Qed.

Lemma append_assoc (a b c : string) : (a ++ b) ++ c = a ++ b ++ c.
Proof. induction a as [|x a IH]; cbn; [reflexivity|rewrite IH; reflexivity]. Qed.

Lemma append_empty_r (a : string) : a ++ "" = a.
Proof. induction a as [|x a IH]; cbn; [reflexivity|rewrite IH; reflexivity]. Qed.

Lemma Split_around_sshkey pre post :
  startsParameter pre -> endsParameter post ->
  exists before after, forall v,
    strings.Contains v "&" = false ->
    strings.Split (pre ++ "sshkey=" ++ v ++ post) "&"
    = (before ++ ("sshkey=" ++ v)%string :: after)%list.
Proof.
  intros Hpre Hpost.
  assert (Htail : exists after, forall v,
             strings.Contains v "&" = false ->
             strings.Split ("sshkey=" ++ v ++ post) "&"
             = ("sshkey=" ++ v) :: after).
  { destruct Hpost as [E|[post' E]]; subst post.
    - exists []. intros v Hv. rewrite append_empty_r.
      apply Split_byte_none. apply Contains_byte_app; [reflexivity|exact Hv].
    - exists (strings.Split post' "&"). intros v Hv.
      rewrite <- append_assoc.
      change ("&" ++ post') with (String "&" post').
      rewrite Split_byte_app.
      rewrite Split_byte_none
        by (apply Contains_byte_app; [reflexivity|exact Hv]).
      reflexivity. }
  destruct Htail as [after Htail].
  destruct Hpre as [E|[pre' E]]; subst pre.
  - exists [], after. intros v Hv. apply (Htail v Hv).
  - exists (strings.Split pre' "&"), after. intros v Hv.
    rewrite append_assoc.
    change ("&" ++ "sshkey=" ++ v ++ post)
      with (String "&" ("sshkey=" ++ v ++ post)).
    rewrite Split_byte_app, (Htail v Hv). reflexivity.
Qed.

Lemma parsePair_sshkey m err v t :
  strings.Contains v ";" = false ->
  url.QueryUnescape v = inl t ->
  url.parsePair (m, err) ("sshkey=" ++ v)
  = (url.Values_append m "sshkey" t, err).
Proof.
  intros Hsemi Hv. unfold url.parsePair.
  rewrite (Contains_byte_app "sshkey=" v ";" eq_refl Hsemi).
  cbn [append String.eqb].
  assert (Hcut : strings.Cut ("sshkey=" ++ v) "=" = ("sshkey", v, true)).
  { unfold strings.Cut. cbn [append].
    repeat (cbn [strings.cutAt]; rewrite HasPrefix_byte;
            destruct (Ascii.ascii_dec _ _) as [E|E];
            [try discriminate E|try (exfalso; apply E; reflexivity); clear E]).
    reflexivity. }
  cbn [append] in Hcut. rewrite Hcut.
  change (url.QueryUnescape "sshkey") with (@inl string string "sshkey").
  cbv iota. rewrite Hv. reflexivity.
Qed.

Lemma ParseQuery_agree_but_at_sshkey pre post v1 v2 :
  startsParameter pre -> endsParameter post ->
  wellFormedValue v1 -> wellFormedValue v2 ->
  agree_but_at "sshkey"
    (fst (url.ParseQuery (pre ++ "sshkey=" ++ v1 ++ post)))
    (fst (url.ParseQuery (pre ++ "sshkey=" ++ v2 ++ post))).
Proof.
  intros Hpre Hpost (Ha1 & Hs1 & t1 & Ht1) (Ha2 & Hs2 & t2 & Ht2).
  destruct (Split_around_sshkey pre post Hpre Hpost) as (before & after & HS).
  unfold url.ParseQuery. rewrite (HS v1 Ha1), (HS v2 Ha2).
  rewrite !fold_left_app. cbn [fold_left].
  destruct (fold_left url.parsePair before ([], None)) as [m0 e0].
  rewrite (parsePair_sshkey m0 e0 v1 t1 Hs1 Ht1).
  rewrite (parsePair_sshkey m0 e0 v2 t2 Hs2 Ht2).
  apply fold_parsePair_agree. unfold agree_but_at.
  rewrite !Values_Has_append, String.eqb_refl, orb_true_r.
  repeat split. intros x. rewrite !Values_Set_append_same. reflexivity.
Qed.

(** C2, as amended: two references that [Parse] accepts with the same
    scheme, host and directory, and whose queries are the same but for the
    value of the [sshkey] parameter, get the same cache key, hence the
    same cache path, provided both values are well-formed query values. *)
Theorem cacheKey_ignores_sshkey_value path1 path2 u1 u2 pre post v1 v2 :
  Parse path1 = Returns (Some u1, None) ->
  Parse path2 = Returns (Some u2, None) ->
  Scheme u1 = Scheme u2 -> Host u1 = Host u2 -> Dir u1 = Dir u2 ->
  RawQuery u1 = pre ++ "sshkey=" ++ v1 ++ post ->
  RawQuery u2 = pre ++ "sshkey=" ++ v2 ++ post ->
  startsParameter pre -> endsParameter post ->
  wellFormedValue v1 -> wellFormedValue v2 ->
  cacheKey u1 = cacheKey u2
  /\ forall (W : Type) (r : Remote W) (cacheBaseDir : string),
      cacheDirPath r cacheBaseDir u1 = cacheDirPath r cacheBaseDir u2.
Proof.
  intros _ _ Hscheme Hhost Hdir Hq1 Hq2 Hpre Hpost Hv1 Hv2.
  assert (Hkey : cacheKey u1 = cacheKey u2).
  { unfold cacheKey, srcDir. rewrite Hscheme, Hhost, Hdir, Hq1, Hq2.
    destruct (ParseQuery_agree_but_at_sshkey pre post v1 v2 Hpre Hpost Hv1 Hv2)
      as (H1 & H2 & HS).
    assert (Hpos : forall v,
               Nat.ltb 0 (String.length (pre ++ "sshkey=" ++ v ++ post)) = true).
    { intros v. rewrite !length_app. apply Nat.ltb_lt.
      change (String.length "sshkey=") with 7. lia. }
    rewrite H1, H2, (HS "redacted"), !Hpos. reflexivity. }
  split; [exact Hkey|].
  intros W r cacheBaseDir. unfold cacheDirPath, getterDst. rewrite Hkey.
  reflexivity.
Qed.

End Redaction.

(** ** The sample world keeps the contracts *)

Section SampleWorld.

Import sample.

Lemma sample_getters_create_destination : getters_create_destination r.
Proof.
  intros which wd src dst w w' H.
  assert (HG : exists b, getter r which = fetcher b)
    by (destruct which; eexists; reflexivity).
  destruct HG as [b HG]. rewrite HG in H. cbn [Get fetcher] in H.
  destruct (existsb (String.eqb src) (reachable w)).
  2:{ discriminate H. }
  cbn [fs r DirectoryExistsAt osFS].
  destruct (stat w dst) as [[|]|] eqn:E; inversion H; subst; clear H;
    unfold mkdirAll; rewrite E.
  - rewrite E. reflexivity.
  - unfold stat. cbn [disk find fst]. rewrite String.eqb_refl. reflexivity.
Qed.

Lemma sample_directories_are_not_files : directories_are_not_files r.
Proof.
  intros path w. cbn [fs r DirectoryExistsAt FileExistsAt osFS].
  destruct (stat w path) as [[|]|]; intros H; try reflexivity; discriminate H.
Qed.

Lemma find_after_removal path entries :
  find (fun entry : string * node => String.eqb (fst entry) path)
    (filter (fun entry => negb (below path (fst entry))) entries) = None.
Proof.
  induction entries as [|[q n] entries IH]; [reflexivity|].
  cbn [filter fst]. unfold below at 1.
  destruct (String.eqb q path) eqn:E; cbn [orb negb]; [exact IH|].
  destruct (strings.HasPrefix q (path ++ "/")); cbn [negb]; [exact IH|].
  cbn [find fst]. rewrite E. exact IH.
Qed.

Lemma sample_RemoveAll_removes : RemoveAll_removes removeAll r.
Proof.
  intros path w w' H. unfold removeAll in H.
  destruct (readOnly w); [discriminate H|]. inversion H; subst; clear H.
  cbn [fs r DirectoryExistsAt osFS]. unfold stat. cbn [disk].
  rewrite find_after_removal. reflexivity.
Qed.

End SampleWorld.

(** ** The claims on concrete inputs *)


(** The round trip on the sample world: the first [Fetch] of the chart
    clones it, the second finds it in the cache. *)
Lemma Fetch_twice_same_path_witness :
  (getters_create_destination sample.r
   /\ directories_are_not_files sample.r
   /\ Fetch sample.removeAll sample.r chart [] fresh
      = (Returns (chartFile, None), fetched))
  /\ (Fetch sample.removeAll sample.r chart [] fetched
      = (Returns (chartFile, None), fetched)
      /\ exists u,
          let base := cacheBaseDirOf [] in
          Parse chart = Returns (Some u, None)
          /\ calls fetched =
             (calls fresh ++
                if isCached sample.r base u (world fresh) then []
                else [GetCalled (strategyOf u) (Home sample.r)
                        (retrievalSrc chart u)
                        (cacheDirPath sample.r base u)])%list).
Proof.
  assert (H : Fetch sample.removeAll sample.r chart [] fresh
              = (Returns (chartFile, None), fetched))
    by (vm_compute; reflexivity).
  split.
  - split; [exact sample_getters_create_destination|].
    split; [exact sample_directories_are_not_files|exact H].
  - exact (Fetch_twice_same_path sample.removeAll sample.r chart [] fresh
             chartFile fetched sample_getters_create_destination
             sample_directories_are_not_files H).
Defined.

(** Without the contract of the strategies the second call retrieves
    again: a strategy that reports success and leaves no directory is called
    once per [Fetch]. *)
Example forgetful_strategy_is_called_again :
  Fetch sample.removeAll sample.rForgetful chart [] fresh
  = (Returns (chartFile, None),
     {| world := world fresh;
        calls := [GetCalled viaGetter "/cache" chartSrc chartDir] |})
  /\ Fetch sample.removeAll sample.rForgetful chart []
       {| world := world fresh;
          calls := [GetCalled viaGetter "/cache" chartSrc chartDir] |}
     = (Returns (chartFile, None),
        {| world := world fresh;
           calls := [GetCalled viaGetter "/cache" chartSrc chartDir;
                     GetCalled viaGetter "/cache" chartSrc chartDir] |}).
Proof. split; vm_compute; reflexivity. Qed.

(** When the chart is in the cache before the first call, both calls hit
    it and no [Get] is called at all. *)
Lemma cached_round_trip_calls_no_Get :
  Fetch sample.removeAll sample.r chart [] warm = (Returns (chartFile, None), warm)
  /\ ~ round_trip_with_exactly_one_Get sample.removeAll sample.r chart [] warm.
Proof.
  assert (H : Fetch sample.removeAll sample.r chart [] warm
              = (Returns (chartFile, None), warm))
    by (vm_compute; reflexivity).
  split; [exact H|].
  intros C. destruct (C chartFile warm H) as (st2 & H2 & Hcalls & Hcount).
  rewrite H in H2. inversion H2; subst st2. cbn in Hcount. discriminate Hcount.
Qed.

(** Two private keys for the same repository: one cache key. *)
Lemma cacheKey_ignores_sshkey_value_witness :
  (Parse (keyed "ref=v1&sshkey=QUJD&depth=1")
   = Returns (Some (keyedSource "ref=v1&sshkey=QUJD&depth=1"), None)
   /\ Parse (keyed "ref=v1&sshkey=WFla&depth=1")
      = Returns (Some (keyedSource "ref=v1&sshkey=WFla&depth=1"), None)
   /\ startsParameter "ref=v1&" /\ endsParameter "&depth=1"
   /\ wellFormedValue "QUJD" /\ wellFormedValue "WFla")
  /\ cacheKey (keyedSource "ref=v1&sshkey=QUJD&depth=1")
     = "ssh_example_com_org.depth=1_ref=v1_sshkey=redacted"
  /\ cacheKey (keyedSource "ref=v1&sshkey=QUJD&depth=1")
     = cacheKey (keyedSource "ref=v1&sshkey=WFla&depth=1")
  /\ forall (W : Type) (r : Remote W) (cacheBaseDir : string),
      cacheDirPath r cacheBaseDir (keyedSource "ref=v1&sshkey=QUJD&depth=1")
      = cacheDirPath r cacheBaseDir (keyedSource "ref=v1&sshkey=WFla&depth=1").
Proof.
  assert (HP1 : Parse (keyed "ref=v1&sshkey=QUJD&depth=1")
                = Returns (Some (keyedSource "ref=v1&sshkey=QUJD&depth=1"), None))
    by (vm_compute; reflexivity).
  assert (HP2 : Parse (keyed "ref=v1&sshkey=WFla&depth=1")
                = Returns (Some (keyedSource "ref=v1&sshkey=WFla&depth=1"), None))
    by (vm_compute; reflexivity).
  assert (Hpre : startsParameter "ref=v1&") by (right; exists "ref=v1"; reflexivity).
  assert (Hpost : endsParameter "&depth=1") by (right; exists "depth=1"; reflexivity).
  assert (Hv1 : wellFormedValue "QUJD")
    by (repeat split; try reflexivity; exists "QUJD"; reflexivity).
  assert (Hv2 : wellFormedValue "WFla")
    by (repeat split; try reflexivity; exists "WFla"; reflexivity).
  split;
    [exact (conj HP1 (conj HP2 (conj Hpre (conj Hpost (conj Hv1 Hv2)))))|].
  split; [vm_compute; reflexivity|].
  exact (cacheKey_ignores_sshkey_value
           (keyed "ref=v1&sshkey=QUJD&depth=1") (keyed "ref=v1&sshkey=WFla&depth=1")
           (keyedSource "ref=v1&sshkey=QUJD&depth=1")
           (keyedSource "ref=v1&sshkey=WFla&depth=1")
           "ref=v1&" "&depth=1" "QUJD" "WFla"
           HP1 HP2 eq_refl eq_refl eq_refl eq_refl eq_refl Hpre Hpost Hv1 Hv2).
Defined.

(** A value with a malformed percent-escape is dropped by
    [url.ParseQuery] together with its key: the cache key then has no
    [sshkey] part, unlike the key of the same reference with a well-formed
    value. *)
Lemma malformed_sshkey_value_changes_cacheKey :
  Parse (keyed "sshkey=%zz") = Returns (Some (keyedSource "sshkey=%zz"), None)
  /\ Parse (keyed "sshkey=QUJD") = Returns (Some (keyedSource "sshkey=QUJD"), None)
  /\ cacheKey (keyedSource "sshkey=%zz") = "ssh_example_com_org."
  /\ cacheKey (keyedSource "sshkey=QUJD") = "ssh_example_com_org.sshkey=redacted"
  /\ ~ sshkey_value_never_matters.
Proof.
  assert (HP1 : Parse (keyed "sshkey=%zz")
                = Returns (Some (keyedSource "sshkey=%zz"), None))
    by (vm_compute; reflexivity).
  assert (HP2 : Parse (keyed "sshkey=QUJD")
                = Returns (Some (keyedSource "sshkey=QUJD"), None))
    by (vm_compute; reflexivity).
  assert (HK1 : cacheKey (keyedSource "sshkey=%zz") = "ssh_example_com_org.")
    by (vm_compute; reflexivity).
  assert (HK2 : cacheKey (keyedSource "sshkey=QUJD")
                = "ssh_example_com_org.sshkey=redacted")
    by (vm_compute; reflexivity).
  split; [exact HP1|]. split; [exact HP2|]. split; [exact HK1|].
  split; [exact HK2|].
  intros C.
  specialize (C "git::ssh://git@example.com/org/repo.git?" "%zz" "QUJD" ""
                (keyedSource "sshkey=%zz") (keyedSource "sshkey=QUJD")
                (or_introl (ex_intro _ "git::ssh://git@example.com/org/repo.git"
                              eq_refl))
                (or_introl eq_refl)
                eq_refl eq_refl eq_refl eq_refl HP1 HP2).
  rewrite HK1, HK2 in C. discriminate C.
Qed.

(** A plain file whose name reads like an object-storage reference is
    returned as a local path. *)
Lemma Locate_local_precedence_witness :
  (FileExistsAt (fs sample.r) object (world localCopy) = true
   \/ DirectoryExistsAt (fs sample.r) object (world localCopy) = true)
  /\ Parse object = Returns (Some objectSource, None)
  /\ Locate sample.removeAll sample.r object [] localCopy
     = (Returns (object, None), localCopy).
Proof.
  assert (H : FileExistsAt (fs sample.r) object (world localCopy) = true
              \/ DirectoryExistsAt (fs sample.r) object (world localCopy) = true)
    by (left; reflexivity).
  split; [exact H|]. split; [vm_compute; reflexivity|].
  exact (Locate_local_precedence sample.removeAll sample.r object [] localCopy H).
Defined.

(** The relative path of the specification. *)
Lemma Locate_falls_back_on_InvalidURLError_witness :
  (FileExistsAt (fs sample.r) localPath (world offline) = false
   /\ DirectoryExistsAt (fs sample.r) localPath (world offline) = false)
  /\ strings.Contains localPath ":" = false
  /\ Locate sample.removeAll sample.r localPath [] offline
     = (Returns (localPath, None), offline).
Proof.
  split; [split; reflexivity|]. split; [reflexivity|].
  exact (proj2 (proj2 (proj2 (proj2
           (Locate_falls_back_on_InvalidURLError sample.removeAll sample.r
              localPath [] offline eq_refl eq_refl))) eq_refl)).
Defined.

(** A plain file at the cache path of the chart. *)
Lemma Fetch_cache_path_conflict_witness :
  (Parse chart = Returns (Some chartSource, None)
   /\ List.length (@nil string) <= 1
   /\ FileExistsAt (fs sample.r)
        (cacheDirPath sample.r (cacheBaseDirOf []) chartSource) (world blocked)
      = true)
  /\ Fetch sample.removeAll sample.r chart [] blocked
     = (Returns ("", Some (CachePathConflictError
                             (getterDst (cacheBaseDirOf []) chartSource))),
        blocked).
Proof.
  assert (HP : Parse chart = Returns (Some chartSource, None))
    by (vm_compute; reflexivity).
  assert (Hlen : List.length (@nil string) <= 1) by (simpl; lia).
  assert (Hfile : FileExistsAt (fs sample.r)
                    (cacheDirPath sample.r (cacheBaseDirOf []) chartSource)
                    (world blocked) = true) by (vm_compute; reflexivity).
  split; [exact (conj HP (conj Hlen Hfile))|].
  exact (Fetch_cache_path_conflict sample.removeAll sample.r chart [] blocked
           chartSource HP Hlen Hfile).
Defined.

(** The repository out of reach: the half-made cache directory is
    removed again. *)
Lemma Fetch_generic_failure_cleanup_witness :
  (RemoveAll_removes sample.removeAll sample.r
   /\ Parse chart = Returns (Some chartSource, None)
   /\ conflict sample.r "" chartSource (world offline) = false
   /\ isCached sample.r "" chartSource (world offline) = false
   /\ strategyOf chartSource = viaGetter
   /\ Get (Getter_ sample.r) "/cache" chartSrc chartDir (world offline)
      = (Some (notFound chartSrc),
         {| sample.disk := [(chartDir, sample.directory)];
            sample.reachable := []; sample.readOnly := false |})
   /\ sample.removeAll chartDir
        {| sample.disk := [(chartDir, sample.directory)];
           sample.reachable := []; sample.readOnly := false |}
      = (None, world offline))
  /\ exists err,
      Fetch sample.removeAll sample.r chart [] offline
      = (Returns ("", Some err),
         {| world := world offline;
            calls := [GetCalled viaGetter "/cache" chartSrc chartDir;
                      RemoveAllCalled chartDir] |})
      /\ (@None error = None ->
          err = notFound chartSrc
          /\ DirectoryExistsAt (fs sample.r) chartDir (world offline) = false)
      /\ (forall rm, @None error = Some rm ->
          multierr.Errors (Some err)
          = (multierr.Errors (Some (notFound chartSrc))
             ++ multierr.Errors (Some rm))%list).
Proof.
  assert (HP : Parse chart = Returns (Some chartSource, None))
    by (vm_compute; reflexivity).
  assert (Hlen : List.length (@nil string) <= 1) by (simpl; lia).
  assert (Hconf : conflict sample.r "" chartSource (world offline) = false)
    by (vm_compute; reflexivity).
  assert (Hmiss : isCached sample.r "" chartSource (world offline) = false)
    by (vm_compute; reflexivity).
  assert (Hgen : strategyOf chartSource = viaGetter) by (vm_compute; reflexivity).
  assert (HGet : Get (Getter_ sample.r) "/cache" chartSrc chartDir (world offline)
                 = (Some (notFound chartSrc),
                    {| sample.disk := [(chartDir, sample.directory)];
                       sample.reachable := []; sample.readOnly := false |}))
    by (vm_compute; reflexivity).
  assert (HRm : sample.removeAll chartDir
                  {| sample.disk := [(chartDir, sample.directory)];
                     sample.reachable := []; sample.readOnly := false |}
                = (None, world offline)) by (vm_compute; reflexivity).
  split.
  - exact (conj sample_RemoveAll_removes
             (conj HP (conj Hconf (conj Hmiss (conj Hgen (conj HGet HRm)))))).
  - exact (Fetch_generic_failure_cleanup sample.removeAll sample.r chart []
             offline chartSource (notFound chartSrc) _ None (world offline)
             sample_RemoveAll_removes HP Hlen Hconf Hmiss Hgen HGet HRm).
Defined.

(** When the removal fails as well, both errors come back. *)
Example Fetch_generic_failure_on_read_only_disk :
  Fetch sample.removeAll sample.r chart [] (sample.start [] [] true)
  = (Returns ("", Some (multiError
                          [notFound chartSrc;
                           errorString ("unlinkat " ++ chartDir
                                        ++ ": read-only file system")])),
     {| world := {| sample.disk := [(chartDir, sample.directory)];
                    sample.reachable := []; sample.readOnly := true |};
        calls := [GetCalled viaGetter "/cache" chartSrc chartDir;
                  RemoveAllCalled chartDir] |}).
Proof. vm_compute. reflexivity. Qed.

(** C7: on a cache miss the object-storage strategy is called once on
    the reference, fails with [get: ...: not found], and nothing is removed;
    but the error [Fetch] returns is not that error: it is the combination
    [multierr.Append(err, err)], which lists the retrieval error twice. *)
Theorem Fetch_s3_failure_returns_error_twice :
  Get (S3Getter sample.r) "/cache" object "/cache/s3_bucket_charts" (world offline)
  = (Some (notFound object), world offline)
  /\ Fetch sample.removeAll sample.r object [] offline
     = (Returns ("", Some (multiError [notFound object; notFound object])),
        {| world := world offline;
           calls := [GetCalled viaS3Getter "/cache" object
                       "/cache/s3_bucket_charts"] |})
  /\ multiError [notFound object; notFound object] <> notFound object.
Proof.
  split; [vm_compute; reflexivity|]. split; [|discriminate].
  assert (HP : Parse object = Returns (Some objectSource, None))
    by (vm_compute; reflexivity).
  assert (Hlen : List.length (@nil string) <= 1) by (simpl; lia).
  assert (Hdirect : strategyOf objectSource <> viaGetter)
    by (vm_compute; discriminate).
  exact (Fetch_direct_failure sample.removeAll sample.r object [] offline
           objectSource (notFound object) (world offline)
           HP Hlen eq_refl eq_refl Hdirect eq_refl).
Qed.

(** The HTTP strategy goes the same way. *)
Example Fetch_http_failure_returns_error_twice :
  Fetch sample.removeAll sample.r "https://example.com/charts/values.yaml" []
    offline
  = (Returns ("", Some (multiError
                          [notFound "https://example.com/charts/values.yaml";
                           notFound "https://example.com/charts/values.yaml"])),
     {| world := world offline;
        calls := [GetCalled viaHttpGetter "/cache"
                    "https://example.com/charts/values.yaml"
                    "/cache/https_example_com_charts"] |}).
Proof. vm_compute. reflexivity. Qed.

(** [ftp] is not a scheme of the direct syntax. *)
Lemma Parse_rejects_unsupported_direct_scheme_witness :
  (List.length (strings.Split "ftp://host/chart.tgz" "::") <> 2
   /\ List.length (strings.Split "ftp://host/chart.tgz" "://") = 2
   /\ isProtocol (strings.ToLower (hd "" (strings.Split "ftp://host/chart.tgz" "://")))
      = false)
  /\ Parse "ftp://host/chart.tgz"
     = Returns (None, Some (UnsupportedSchemeError "ftp://host/chart.tgz")).
Proof.
  assert (H1 : List.length (strings.Split "ftp://host/chart.tgz" "::") <> 2)
    by (vm_compute; discriminate).
  split; [exact (conj H1 (conj eq_refl eq_refl))|].
  exact (Parse_rejects_unsupported_direct_scheme "ftp://host/chart.tgz"
           H1 eq_refl eq_refl).
Defined.

(** Two overrides, for a reference [Parse] accepts and for one it
    rejects. *)
Lemma Fetch_rejects_two_overrides_witness :
  2 <= List.length ["a"; "b"]
  /\ Fetch sample.removeAll sample.r chart ["a"; "b"] fresh
     = (Returns ("", Some (cacheDirOptError 2)), fresh)
  /\ Fetch sample.removeAll sample.r "ftp://host/chart.tgz" ["a"; "b"] fresh
     = (Returns ("", Some (UnsupportedSchemeError "ftp://host/chart.tgz")), fresh).
Proof.
  assert (Hlen : 2 <= List.length ["a"; "b"]) by (simpl; lia).
  split; [exact Hlen|]. split.
  - exact (proj1 (Fetch_rejects_two_overrides sample.removeAll sample.r chart
                    ["a"; "b"] fresh Hlen) chartSource eq_refl).
  - exact (proj2 (Fetch_rejects_two_overrides sample.removeAll sample.r
                    "ftp://host/chart.tgz" ["a"; "b"] fresh Hlen)
             None (UnsupportedSchemeError "ftp://host/chart.tgz") eq_refl).
Defined.

(** [Fetch] parses first: a reference [Parse] rejects comes back with the
    error of [Parse], however many overrides there are. *)
Lemma rejected_reference_hides_caller_bug :
  Fetch sample.removeAll sample.r "ftp://host/chart.tgz" ["a"; "b"] fresh
  = (Returns ("", Some (UnsupportedSchemeError "ftp://host/chart.tgz")), fresh)
  /\ ~ two_overrides_report_caller_bug sample.removeAll sample.r
        "ftp://host/chart.tgz" ["a"; "b"] fresh.
Proof.
  assert (H : Fetch sample.removeAll sample.r "ftp://host/chart.tgz" ["a"; "b"] fresh
              = (Returns ("", Some (UnsupportedSchemeError "ftp://host/chart.tgz")),
                 fresh)) by (vm_compute; reflexivity).
  split; [exact H|].
  intros C. assert (Hlen : 2 <= List.length ["a"; "b"]) by (simpl; lia).
  specialize (C Hlen). rewrite H in C. discriminate C.
Qed.

(** ** From the reference to its query

    What [Parse] makes of a reference [front ++ "?" ++ query] with a plain
    query: the query goes into [RawQuery] untouched and the rest of the
    descriptor comes from [front]. *)

Section QueryOfReference.

Lemma prefix_empty s : String.prefix "" s = true.
Proof. destruct s; reflexivity. Qed.

Lemma oneOf_cons d sep t :
  oneOf (String d sep) t = false -> d <> t /\ oneOf sep t = false.
Proof.
  unfold oneOf. cbn [list_ascii_of_string existsb]. intros H.
  apply orb_false_iff in H. destruct H as [H1 H2]. split; [|exact H2].
  apply Ascii.eqb_neq in H1. congruence.
Qed.

(** A separator without the byte [t] does not reach into a tail that
    starts with [t]. *)
Lemma HasPrefix_app_tail sep S t T :
  oneOf sep t = false ->
  strings.HasPrefix (S ++ String t T) sep = strings.HasPrefix S sep.
Proof.
  unfold strings.HasPrefix. revert S.
  induction sep as [|d sep IH]; intros S H.
  - rewrite !prefix_empty. reflexivity.
  - apply oneOf_cons in H. destruct H as [Hd Hsep].
    destruct S as [|a S]; cbn [append].
    + rewrite prefix_cons. destruct (Ascii.ascii_dec d t); [congruence|].
      reflexivity.
    + rewrite !prefix_cons. destruct (Ascii.ascii_dec d a); [|reflexivity].
      apply IH. exact Hsep.
Qed.

Lemma prefix_length sep s :
  String.prefix sep s = true -> String.length sep <= String.length s.
Proof.
  revert s. induction sep as [|d sep IH]; intros s H; [cbn; lia|].
  destruct s as [|a s]; [discriminate H|].
  rewrite prefix_cons in H. destruct (Ascii.ascii_dec d a); [|discriminate H].
  cbn. specialize (IH s H). lia.
Qed.

Lemma extendLast_cons x l tail :
  l <> [] -> extendLast (x :: l) tail = x :: extendLast l tail.
Proof. destruct l; [congruence|reflexivity]. Qed.

Lemma extendLast_length l tail :
  List.length (extendLast l tail) = List.length l.
Proof.
  induction l as [|x [|y l] IH]; [reflexivity|reflexivity|].
  change (extendLast (x :: y :: l) tail) with (x :: extendLast (y :: l) tail).
  cbn [List.length]. rewrite IH. reflexivity.
Qed.

(** Splitting at a separator that starts with a colon and has no [t] in
    it: a colon-free tail that starts with [t] stays in the last piece. *)
Lemma splitFrom_app_tail sep' t T X k :
  oneOf (String ":" sep') t = false ->
  strings.Contains (String t T) ":" = false ->
  k <= String.length X ->
  strings.splitFrom (String ":" sep') k (X ++ String t T)
  = extendLast (strings.splitFrom (String ":" sep') k X) (String t T).
Proof.
  intros Hsep Htail. revert k.
  induction X as [|c X IH]; intros k Hk.
  - assert (k = 0) by (cbn in Hk; lia). subst k. cbn [append].
    rewrite (splitFrom_no_colon (String t T) sep' Htail). reflexivity.
  - cbn [append strings.splitFrom]. destruct k as [|k].
    + change (String c (X ++ String t T)) with (String c X ++ String t T).
      rewrite (HasPrefix_app_tail (String ":" sep') (String c X) t T Hsep).
      destruct (strings.HasPrefix (String c X) (String ":" sep')) eqn:Hm.
      * apply prefix_length in Hm. cbn [String.length] in Hm |- *.
        rewrite IH by lia.
        rewrite extendLast_cons by apply splitFrom_nonempty. reflexivity.
      * rewrite IH by lia.
        destruct (strings.splitFrom (String ":" sep') 0 X) as [|p [|q ps]] eqn:E.
        -- exfalso. apply (splitFrom_nonempty _ _ _ E).
        -- reflexivity.
        -- reflexivity.
    + apply IH. cbn in Hk. lia.
Qed.

Lemma Split_app_tail sep' t T X :
  oneOf (String ":" sep') t = false ->
  strings.Contains (String t T) ":" = false ->
  strings.Split (X ++ String t T) (String ":" sep')
  = extendLast (strings.Split X (String ":" sep')) (String t T).
Proof.
  intros Hsep Htail. unfold strings.Split.
  apply splitFrom_app_tail; [exact Hsep|exact Htail|lia].
Qed.

Lemma take_app P rest : strings.take (String.length P) (P ++ rest) = P.
Proof. induction P as [|c P IH]; cbn; [destruct rest|rewrite IH]; reflexivity. Qed.

Lemma length_snoc P c : String.length (P ++ String c "") = S (String.length P).
Proof. rewrite length_app. cbn. lia. Qed.

Lemma append_snoc P c rest : P ++ String c rest = (P ++ String c "") ++ rest.
Proof. rewrite append_assoc. reflexivity. Qed.

(** [getScheme] stops at the [?] at the latest: what follows the [?]
    comes back as it is, at the end of the rest. *)
Lemma getSchemeFrom_app_query Y P T :
  url.getSchemeFrom (String.length P) (P ++ Y ++ String "?" T) (Y ++ String "?" T)
  = match url.getSchemeFrom (String.length P) (P ++ Y) Y with
    | None => None
    | Some (scheme, rest) => Some (scheme, rest ++ String "?" T)
    end.
Proof.
  revert P. induction Y as [|c Y IH]; intros P.
  - cbn [append url.getSchemeFrom]. rewrite append_empty_r.
    change (isAlpha "?") with false. change (isDigit "?" || oneOf "+-." "?") with false.
    change (Ascii.eqb "?" ":") with false. cbv iota. reflexivity.
  - cbn [append url.getSchemeFrom].
    assert (Hrec :
      url.getSchemeFrom (S (String.length P)) (P ++ String c (Y ++ String "?" T))
        (Y ++ String "?" T)
      = match url.getSchemeFrom (S (String.length P)) (P ++ String c Y) Y with
        | None => None
        | Some (scheme, rest) => Some (scheme, rest ++ String "?" T)
        end).
    { rewrite (append_snoc P c (Y ++ String "?" T)), (append_snoc P c Y).
      rewrite <- (length_snoc P c). apply IH. }
    assert (Hraw : P ++ String c (Y ++ String "?" T)
                   = (P ++ String c Y) ++ String "?" T)
      by (rewrite append_assoc; reflexivity).
    destruct (isAlpha c); [exact Hrec|].
    destruct (isDigit c || oneOf "+-." c).
    + destruct (Nat.eqb (String.length P) 0); [rewrite Hraw; reflexivity|].
      exact Hrec.
    + destruct (Ascii.eqb c ":"); [|rewrite Hraw; reflexivity].
      destruct (Nat.eqb (String.length P) 0); [reflexivity|].
      rewrite !take_app. reflexivity.
Qed.

Lemma getScheme_app_query Y T :
  url.getScheme (Y ++ String "?" T)
  = match url.getScheme Y with
    | None => None
    | Some (scheme, rest) => Some (scheme, rest ++ String "?" T)
    end.
Proof. apply (getSchemeFrom_app_query Y "" T). Qed.

(** The rest [getScheme] leaves is the input or an end of it. *)
Lemma getSchemeFrom_rest_Contains c Y i rawURL scheme rest :
  strings.Contains rawURL (String c "") = false ->
  strings.Contains Y (String c "") = false ->
  url.getSchemeFrom i rawURL Y = Some (scheme, rest) ->
  strings.Contains rest (String c "") = false.
Proof.
  intros Hraw. revert i. induction Y as [|a Y IH]; intros i HY H.
  - cbn in H. inversion H; subst. exact Hraw.
  - apply Contains_byte_cons in HY. destruct HY as [_ HY].
    cbn [url.getSchemeFrom] in H.
    destruct (isAlpha a); [apply (IH _ HY H)|].
    destruct (isDigit a || oneOf "+-." a).
    + destruct (Nat.eqb i 0); [inversion H; subst; exact Hraw|apply (IH _ HY H)].
    + destruct (Ascii.eqb a ":").
      * destruct (Nat.eqb i 0); [discriminate H|]. inversion H; subst. exact HY.
      * inversion H; subst. exact Hraw.
Qed.

Lemma cutAt_byte_first R c Q :
  strings.Contains R (String c "") = false ->
  strings.cutAt (String c "") (R ++ String c Q) = Some (R, Q).
Proof.
  induction R as [|a R IH]; intros H.
  - cbn [append strings.cutAt]. rewrite HasPrefix_byte.
    destruct (Ascii.ascii_dec c c); [reflexivity|congruence].
  - apply Contains_byte_cons in H. destruct H as [Ha HR].
    cbn [append strings.cutAt]. rewrite HasPrefix_byte.
    destruct (Ascii.ascii_dec c a); [congruence|]. rewrite (IH HR). reflexivity.
Qed.

Lemma drop_all_but_last a b :
  b <> "" ->
  strings.drop (String.length (a ++ b) - 1) (a ++ b)
  = strings.drop (String.length b - 1) b.
Proof.
  intros Hb. induction a as [|x a IH]; [reflexivity|].
  cbn [append String.length].
  assert (Hpos : 0 < String.length (a ++ b)).
  { rewrite length_app. destruct b; [congruence|cbn; lia]. }
  replace (S (String.length (a ++ b)) - 1)
    with (S (String.length (a ++ b) - 1)) by lia.
  cbn [strings.drop]. exact IH.
Qed.

Lemma last_is_not c Q :
  Q <> "" -> strings.Contains Q (String c "") = false ->
  String.eqb (strings.drop (String.length Q - 1) Q) (String c "") = false.
Proof.
  induction Q as [|a Q IH]; intros Hne H; [congruence|].
  apply Contains_byte_cons in H. destruct H as [Ha HQ].
  destruct Q as [|b Q].
  - cbn. apply Ascii.eqb_neq in Ha. rewrite Ha. reflexivity.
  - assert (Hne' : String b Q <> "") by discriminate.
    specialize (IH Hne' HQ).
    replace (String.length (String a (String b Q)) - 1)
      with (S (String.length (String b Q) - 1)) by (cbn; lia).
    cbn [strings.drop]. exact IH.
Qed.

(** After the rest of a URL that has no [?] comes the query, whole. *)
Lemma splitQuery_app R Q :
  strings.Contains R "?" = false ->
  strings.Contains Q "?" = false -> Q <> "" ->
  url.splitQuery (R ++ String "?" Q) = (R, Q).
Proof.
  intros HR HQ Hne. unfold url.splitQuery, strings.Cut.
  rewrite (cutAt_byte_first R "?" Q HR).
  assert (Hs : strings.HasSuffix (R ++ String "?" Q) "?" = false).
  { unfold strings.HasSuffix.
    change (String.length "?") with 1.
    rewrite append_snoc.
    rewrite (drop_all_but_last (R ++ "?") Q Hne).
    rewrite (last_is_not "?" Q Hne HQ). apply andb_false_r. }
  rewrite Hs. reflexivity.
Qed.

Ltac split_cases H1 H2 :=
  repeat match type of H1 with
         | (if ?b then _ else _) = _ => destruct b
         | match ?x with _ => _ end = _ => destruct x
         | (let '(_, _) := ?x in _) = _ => destruct x
         end;
  try discriminate H1; try discriminate H2.

(** The query does not take part in the parsing of what is before it. *)
Lemma parseHierarchy_query scheme rest q1 q2 u1 u2 :
  url.parseHierarchy scheme rest q1 = inl u1 ->
  url.parseHierarchy scheme rest q2 = inl u2 ->
  sameButQuery u1 u2 /\ url.RawQuery u1 = q1 /\ url.RawQuery u2 = q2.
Proof.
  unfold url.parseHierarchy, sameButQuery. intros H1 H2.
  split_cases H1 H2;
    inversion H1; inversion H2; subst; cbn; repeat split; reflexivity.
Qed.

Lemma not_the_asterisk Y Q : String.eqb (Y ++ String "?" Q) "*" = false.
Proof.
  destruct Y as [|a [|b Y]]; cbn [append].
  - reflexivity.
  - cbn. destruct (Ascii.eqb a "*"); reflexivity.
  - cbn. destruct (Ascii.eqb a "*"); reflexivity.
Qed.

Lemma parse_query Y Q1 Q2 u1 u2 :
  strings.Contains Y "?" = false ->
  strings.Contains Q1 "?" = false -> Q1 <> "" ->
  strings.Contains Q2 "?" = false -> Q2 <> "" ->
  url.parse (Y ++ String "?" Q1) = inl u1 ->
  url.parse (Y ++ String "?" Q2) = inl u2 ->
  sameButQuery u1 u2 /\ url.RawQuery u1 = Q1 /\ url.RawQuery u2 = Q2.
Proof.
  intros HY HQ1 Hne1 HQ2 Hne2. unfold url.parse.
  rewrite !not_the_asterisk, !getScheme_app_query.
  destruct (url.stringContainsCTLByte (Y ++ String "?" Q1)); [discriminate|].
  destruct (url.stringContainsCTLByte (Y ++ String "?" Q2)); [discriminate|].
  destruct (url.getScheme Y) as [[scheme rest]|] eqn:ES; [|discriminate].
  assert (Hrest : strings.Contains rest "?" = false)
    by (apply (getSchemeFrom_rest_Contains "?" Y 0 Y scheme rest HY HY ES)).
  rewrite (splitQuery_app rest Q1 Hrest HQ1 Hne1).
  rewrite (splitQuery_app rest Q2 Hrest HQ2 Hne2).
  apply parseHierarchy_query.
Qed.

Lemma cutAt_not_Contained s sep :
  strings.Contains s sep = false -> strings.cutAt sep s = None.
Proof.
  unfold strings.Contains. destruct (strings.cutAt sep s); [discriminate|reflexivity].
Qed.

Lemma Parse_query Y Q1 Q2 u1 u2 :
  strings.Contains Y "?" = false -> strings.Contains Y "#" = false ->
  strings.Contains Q1 "?" = false -> strings.Contains Q1 "#" = false -> Q1 <> "" ->
  strings.Contains Q2 "?" = false -> strings.Contains Q2 "#" = false -> Q2 <> "" ->
  url.Parse (Y ++ String "?" Q1) = inl u1 ->
  url.Parse (Y ++ String "?" Q2) = inl u2 ->
  sameButQuery u1 u2 /\ url.RawQuery u1 = Q1 /\ url.RawQuery u2 = Q2.
Proof.
  intros HY HYf HQ1 HQ1f Hne1 HQ2 HQ2f Hne2. unfold url.Parse, strings.Cut.
  assert (Hf : forall Q, strings.Contains Q "#" = false ->
                 strings.cutAt "#" (Y ++ String "?" Q) = None).
  { intros Q HQ. apply cutAt_not_Contained.
    apply Contains_byte_app; [exact HYf|].
    apply (Contains_byte_app "?" Q "#" eq_refl HQ). }
  rewrite (Hf Q1 HQ1f), (Hf Q2 HQ2f). cbn [String.eqb].
  destruct (url.parse (Y ++ String "?" Q1)) as [w1|] eqn:E1; [|discriminate].
  destruct (url.parse (Y ++ String "?" Q2)) as [w2|] eqn:E2; [|discriminate].
  intros H1 H2. inversion H1; inversion H2; subst.
  apply (parse_query Y Q1 Q2 u1 u2 HY HQ1 Hne1 HQ2 Hne2 E1 E2).
Qed.

(** The pieces of a string hold no byte the string does not hold. *)
Lemma splitFrom_pieces_Contains c sep X k :
  strings.Contains X (String c "") = false ->
  Forall (fun piece => strings.Contains piece (String c "") = false)
    (strings.splitFrom sep k X).
Proof.
  revert k. induction X as [|a X IH]; intros k H.
  - cbn. constructor; [reflexivity|constructor].
  - pose proof H as Hall. apply Contains_byte_cons in H. destruct H as [Ha HX].
    cbn [strings.splitFrom]. destruct k as [|k]; [|apply (IH k HX)].
    destruct (strings.HasPrefix (String a X) sep).
    + constructor; [reflexivity|apply (IH _ HX)].
    + specialize (IH 0 HX).
      destruct (strings.splitFrom sep 0 X) as [|p ps].
      * constructor; [|constructor].
        unfold strings.Contains. cbn [strings.cutAt]. rewrite HasPrefix_byte.
        destruct (Ascii.ascii_dec c a); [congruence|reflexivity].
      * inversion IH; subst. constructor; [|assumption].
        unfold strings.Contains in *. cbn [strings.cutAt]. rewrite HasPrefix_byte.
        destruct (Ascii.ascii_dec c a); [congruence|].
        destruct (strings.cutAt (String c "") p) as [[x y]|];
          [discriminate|reflexivity].
Qed.

Lemma parseGetterSrc_query getter Y Q1 Q2 u1 u2 :
  strings.Contains Y "?" = false -> strings.Contains Y "#" = false ->
  strings.Contains Q1 "?" = false -> strings.Contains Q1 "#" = false -> Q1 <> "" ->
  strings.Contains Q2 "?" = false -> strings.Contains Q2 "#" = false -> Q2 <> "" ->
  parseGetterSrc getter (Y ++ String "?" Q1) = Returns (Some u1, None) ->
  parseGetterSrc getter (Y ++ String "?" Q2) = Returns (Some u2, None) ->
  sameButRawQuery u1 u2 /\ RawQuery u1 = Q1 /\ RawQuery u2 = Q2.
Proof.
  intros HY HYf HQ1 HQ1f Hne1 HQ2 HQ2f Hne2. unfold parseGetterSrc.
  destruct (url.Parse (Y ++ String "?" Q1)) as [w1|] eqn:E1; [|discriminate].
  destruct (url.Parse (Y ++ String "?" Q2)) as [w2|] eqn:E2; [|discriminate].
  destruct (Parse_query Y Q1 Q2 w1 w2 HY HYf HQ1 HQ1f Hne1 HQ2 HQ2f Hne2 E1 E2)
    as ((Hs & Ho & Hu & Hh & Hp & Hfr) & Hq1 & Hq2).
  rewrite <- Hs, <- Hu, <- Hh, <- Hp, Hq1, Hq2.
  destruct (String.eqb (url.Scheme w1) ""); [discriminate|].
  intros H1 H2. inversion H1; inversion H2; subst.
  unfold sameButRawQuery. cbn. repeat split; reflexivity.
Qed.

Lemma ParseNormal_query Y Q1 Q2 u1 u2 :
  strings.Contains Y "?" = false -> strings.Contains Y "#" = false ->
  strings.Contains Q1 "?" = false -> strings.Contains Q1 "#" = false -> Q1 <> "" ->
  strings.Contains Q2 "?" = false -> strings.Contains Q2 "#" = false -> Q2 <> "" ->
  ParseNormal (Y ++ String "?" Q1) = Returns (Some u1, None) ->
  ParseNormal (Y ++ String "?" Q2) = Returns (Some u2, None) ->
  sameButRawQuery u1 u2 /\ RawQuery u1 = Q1 /\ RawQuery u2 = Q2.
Proof.
  intros HY HYf HQ1 HQ1f Hne1 HQ2 HQ2f Hne2. unfold ParseNormal.
  destruct (ParseNormalProtocol (Y ++ String "?" Q1)) as [p1 [e1|]];
    [discriminate|].
  destruct (ParseNormalProtocol (Y ++ String "?" Q2)) as [p2 [e2|]];
    [discriminate|].
  destruct (url.Parse (Y ++ String "?" Q1)) as [w1|] eqn:E1; [|discriminate].
  destruct (url.Parse (Y ++ String "?" Q2)) as [w2|] eqn:E2; [|discriminate].
  destruct (Parse_query Y Q1 Q2 w1 w2 HY HYf HQ1 HQ1f Hne1 HQ2 HQ2f Hne2 E1 E2)
    as ((Hs & Ho & Hu & Hh & Hp & Hfr) & Hq1 & Hq2).
  rewrite <- Hs, <- Hu, <- Hh, <- Hp, Hq1, Hq2.
  intros H1 H2. inversion H1; inversion H2; subst.
  unfold sameButRawQuery. cbn. repeat split; reflexivity.
Qed.

(** [Parse] on a reference with a plain query: the route through
    [Parse] is decided before the [?], and the query ends up in
    [RawQuery]. *)
Lemma Parse_plain_query front Q1 Q2 u1 u2 :
  strings.Contains front "?" = false -> strings.Contains front "#" = false ->
  plainQuery Q1 -> Q1 <> "" -> plainQuery Q2 -> Q2 <> "" ->
  Parse (front ++ String "?" Q1) = Returns (Some u1, None) ->
  Parse (front ++ String "?" Q2) = Returns (Some u2, None) ->
  sameButRawQuery u1 u2 /\ RawQuery u1 = Q1 /\ RawQuery u2 = Q2.
Proof.
  intros HY HYf (Hc1 & HQ1 & HQ1f) Hne1 (Hc2 & HQ2 & HQ2f) Hne2.
  assert (Ht : forall Q, strings.Contains Q ":" = false ->
                 strings.Contains (String "?" Q) ":" = false)
    by (intros Q HQ; apply (Contains_byte_app "?" Q ":" eq_refl HQ)).
  unfold Parse.
  rewrite !(Split_app_tail ":" "?" _ front eq_refl (Ht _ Hc1)).
  rewrite !(Split_app_tail ":" "?" _ front eq_refl (Ht _ Hc2)).
  rewrite !(Split_app_tail "//" "?" _ front eq_refl (Ht _ Hc1)).
  rewrite !(Split_app_tail "//" "?" _ front eq_refl (Ht _ Hc2)).
  rewrite !extendLast_length.
  pose proof (splitFrom_pieces_Contains "?" "::" front 0 HY) as Hp.
  pose proof (splitFrom_pieces_Contains "#" "::" front 0 HYf) as Hpf.
  change (strings.splitFrom "::" 0 front) with (strings.Split front "::") in Hp, Hpf.
  destruct (strings.Split front "::") as [|g [|x1 [|x2 items]]];
    cbn [List.length Nat.eqb].
  - destruct (Nat.eqb (List.length (strings.Split front "://")) 2).
    + apply ParseNormal_query; assumption.
    + apply parseGetterSrc_query; assumption.
  - destruct (Nat.eqb (List.length (strings.Split front "://")) 2).
    + apply ParseNormal_query; assumption.
    + apply parseGetterSrc_query; assumption.
  - cbn [extendLast nth].
    inversion Hp as [|? ? _ Hp']; inversion Hp' as [|? ? Hx1 _]; subst.
    inversion Hpf as [|? ? _ Hpf']; inversion Hpf' as [|? ? Hx1f _]; subst.
    apply parseGetterSrc_query; assumption.
  - destruct (Nat.eqb (List.length (strings.Split front "://")) 2).
    + apply ParseNormal_query; assumption.
    + apply parseGetterSrc_query; assumption.
Qed.

(** For references with a plain query the descriptors are as C2 needs
    them: two references that differ in the value of [sshkey] only, both
    values well-formed, get the same cache key. *)
Lemma cacheKey_ignores_sshkey_value_in_plain_query
    front pre post v1 v2 u1 u2 :
  strings.Contains front "?" = false -> strings.Contains front "#" = false ->
  startsParameter pre -> endsParameter post ->
  plainQuery (pre ++ "sshkey=" ++ v1 ++ post) ->
  plainQuery (pre ++ "sshkey=" ++ v2 ++ post) ->
  wellFormedValue v1 -> wellFormedValue v2 ->
  Parse (front ++ "?" ++ pre ++ "sshkey=" ++ v1 ++ post) = Returns (Some u1, None) ->
  Parse (front ++ "?" ++ pre ++ "sshkey=" ++ v2 ++ post) = Returns (Some u2, None) ->
  cacheKey u1 = cacheKey u2.
Proof.
  intros HY HYf Hpre Hpost Hq1 Hq2 Hv1 Hv2 HP1 HP2.
  assert (Hne : forall v, pre ++ "sshkey=" ++ v ++ post <> "").
  { intros v E. apply (f_equal String.length) in E.
    rewrite !length_app in E. cbn in E. lia. }
  destruct (Parse_plain_query front _ _ u1 u2 HY HYf Hq1 (Hne v1) Hq2 (Hne v2)
              HP1 HP2) as ((_ & Hs & _ & Hh & Hd & _) & HQ1 & HQ2).
  unfold cacheKey, srcDir. rewrite Hs, Hh, Hd, HQ1, HQ2.
  destruct (ParseQuery_agree_but_at_sshkey pre post v1 v2 Hpre Hpost Hv1 Hv2)
    as (H1 & H2 & HS).
  assert (Hpos : forall v,
             Nat.ltb 0 (String.length (pre ++ "sshkey=" ++ v ++ post)) = true).
  { intros v. rewrite !length_app. apply Nat.ltb_lt.
    change (String.length "sshkey=") with 7. lia. }
  rewrite H1, H2, (HS "redacted"), !Hpos. reflexivity.
Qed.

End QueryOfReference.

(** Why the query has to be plain there: a [::] and a [://] in the query
    send what follows them to the URL parser as the reference, and the
    secret lands in the directory, from where it reaches the cache key. *)
Example separators_in_the_query_move_the_secret :
  Parse "a?x=git::ssh://h/&sshkey=a/b"
  = Returns (Some {| Getter := "a?x=git"; Scheme := "ssh"; User := "";
                     Host := "h"; Dir := "/&sshkey=a"; File := "b";
                     RawQuery := "" |}, None)
  /\ cacheKey {| Getter := "a?x=git"; Scheme := "ssh"; User := "";
                 Host := "h"; Dir := "/&sshkey=a"; File := "b";
                 RawQuery := "" |}
     = "ssh_h_&sshkey=a".
Proof. split; vm_compute; reflexivity. Qed.

(** * Further properties of the package *)

(** ** The direct syntax: what [Parse] makes of [scheme://...] *)

Section DirectSyntax.

Lemma prefix_app sep s :
  String.prefix sep s = true -> exists tail, s = sep ++ tail.
Proof.
  revert s. induction sep as [|a sep IH]; intros s H.
  - exists s. reflexivity.
  - destruct s as [|b s]; [discriminate H|].
    rewrite prefix_cons in H. destruct (Ascii.ascii_dec a b) as [E|E];
      [|discriminate H].
    destruct (IH s H) as [tail Ht]. exists tail. subst. reflexivity.
Qed.

(** The first piece of a split in two or more is followed by the
    separator. *)
Lemma splitFrom_head sep s p q l :
  strings.splitFrom sep 0 s = p :: q :: l ->
  exists tail, s = p ++ sep ++ tail.
Proof.
  revert p. induction s as [|c s IH]; intros p H; [discriminate H|].
  cbn [strings.splitFrom] in H.
  destruct (strings.HasPrefix (String c s) sep) eqn:Hp.
  - inversion H; subst. destruct (prefix_app _ _ Hp) as [tail Ht].
    exists tail. exact Ht.
  - destruct (strings.splitFrom sep 0 s) as [|piece pieces] eqn:E.
    + inversion H.
    + inversion H; subst. destruct (IH piece eq_refl) as [tail Ht].
      exists tail. rewrite Ht. reflexivity.
Qed.

Lemma isAlpha_lowerByte c : isAlpha (strings.lowerByte c) = isAlpha c.
Proof. destruct c as [[] [] [] [] [] [] [] []]; vm_compute; reflexivity. Qed.

Lemma isDigit_lowerByte c : isDigit (strings.lowerByte c) = isDigit c.
Proof. destruct c as [[] [] [] [] [] [] [] []]; vm_compute; reflexivity. Qed.

Lemma schemeLike_ToLower s : schemeLike (strings.ToLower s) = schemeLike s.
Proof.
  destruct s as [|c s]; [reflexivity|].
  cbn [strings.ToLower schemeLike]. rewrite isAlpha_lowerByte. f_equal.
  induction s as [|d s IH]; [reflexivity|].
  cbn [strings.ToLower list_ascii_of_string forallb]. rewrite IH.
  unfold schemeByte at 1 3. rewrite isAlpha_lowerByte, isDigit_lowerByte.
  reflexivity.
Qed.

Lemma isProtocol_cases s :
  isProtocol s = true -> s = "s3" \/ s = "http" \/ s = "https".
Proof.
  unfold isProtocol, protocols. cbn [existsb]. intros H.
  destruct (String.eqb "s3" s) eqn:E1;
    [apply String.eqb_eq in E1; left; symmetry; exact E1|].
  destruct (String.eqb "http" s) eqn:E2;
    [apply String.eqb_eq in E2; right; left; symmetry; exact E2|].
  destruct (String.eqb "https" s) eqn:E3;
    [apply String.eqb_eq in E3; right; right; symmetry; exact E3|].
  discriminate H.
Qed.

Lemma isProtocol_schemeLike part0 :
  isProtocol (strings.ToLower part0) = true -> schemeLike part0 = true.
Proof.
  intros H. rewrite <- schemeLike_ToLower.
  destruct (isProtocol_cases _ H) as [E|[E|E]]; rewrite E; reflexivity.
Qed.

(** [getScheme] reads a scheme up to its colon. *)
Lemma getSchemeFrom_schemeBytes p P rest :
  P <> "" ->
  forallb schemeByte (list_ascii_of_string p) = true ->
  url.getSchemeFrom (String.length P) (P ++ p ++ String ":" rest)
    (p ++ String ":" rest)
  = Some (P ++ p, rest).
Proof.
  revert P. induction p as [|c p IH]; intros P HP Hall.
  - cbn [append url.getSchemeFrom].
    replace (isAlpha ":") with false by reflexivity.
    replace (isDigit ":" || oneOf "+-." ":") with false by reflexivity.
    replace (Ascii.eqb ":" ":") with true by reflexivity.
    destruct P as [|a P]; [contradiction HP; reflexivity|].
    cbn [String.length Nat.eqb]. rewrite <- (take_app (String a P) (String ":" rest)) at 2.
    rewrite append_empty_r. reflexivity.
  - cbn [list_ascii_of_string forallb] in Hall.
    apply andb_true_iff in Hall. destruct Hall as [Hc Hall].
    assert (Hnext : url.getSchemeFrom (String.length P)
                      (P ++ String c p ++ String ":" rest)
                      (String c p ++ String ":" rest)
                    = url.getSchemeFrom (S (String.length P))
                        (P ++ String c p ++ String ":" rest)
                        (p ++ String ":" rest)).
    { cbn [append url.getSchemeFrom]. unfold schemeByte in Hc.
      destruct (isAlpha c); [reflexivity|]. cbn [orb] in Hc. rewrite Hc.
      cbn [orb]. destruct P as [|a P]; [contradiction HP; reflexivity|].
      reflexivity. }
    rewrite Hnext.
    replace (P ++ String c p ++ String ":" rest)
      with ((P ++ String c "") ++ p ++ String ":" rest)
      by (rewrite append_assoc; reflexivity).
    rewrite <- (length_snoc P c).
    rewrite (IH (P ++ String c "")).
    + rewrite append_assoc. reflexivity.
    + destruct P; discriminate.
    + exact Hall.
Qed.

Lemma getScheme_schemeLike p rest :
  schemeLike p = true ->
  url.getScheme (p ++ String ":" rest) = Some (p, rest).
Proof.
  destruct p as [|c p]; [discriminate|]. cbn [schemeLike]. intros H.
  apply andb_true_iff in H. destruct H as [Hc Hall].
  unfold url.getScheme. cbn [append url.getSchemeFrom]. rewrite Hc.
  exact (getSchemeFrom_schemeBytes p (String c "") rest
           ltac:(discriminate) Hall).
Qed.

Lemma Contains_byte_intro a s d :
  a <> d -> strings.Contains s (String d "") = false ->
  strings.Contains (String a s) (String d "") = false.
Proof.
  unfold strings.Contains. cbn [strings.cutAt]. rewrite HasPrefix_byte.
  intros Hne H. destruct (Ascii.ascii_dec d a) as [E|E]; [congruence|].
  destruct (strings.cutAt (String d "") s) as [[x y]|];
    [discriminate H|reflexivity].
Qed.

Lemma forallb_not_Contains (P : ascii -> bool) s d :
  P d = false -> forallb P (list_ascii_of_string s) = true ->
  strings.Contains s (String d "") = false.
Proof.
  intros Hd. induction s as [|a s IH]; intros H; [reflexivity|].
  cbn [list_ascii_of_string forallb] in H. apply andb_true_iff in H.
  destruct H as [Ha H]. apply Contains_byte_intro; [congruence|exact (IH H)].
Qed.

Lemma schemeLike_not_Contains p d :
  schemeByte d = false -> schemeLike p = true ->
  strings.Contains p (String d "") = false.
Proof.
  intros Hd. destruct p as [|c p]; [reflexivity|]. cbn [schemeLike].
  intros H. apply andb_true_iff in H. destruct H as [Hc Hall].
  apply Contains_byte_intro.
  - intros E. subst d. unfold schemeByte in Hd. rewrite Hc in Hd. discriminate Hd.
  - exact (forallb_not_Contains schemeByte p d Hd Hall).
Qed.

(** Cutting at a byte passes over a front that does not hold it. *)
Lemma cutAt_app_free d a b :
  strings.Contains a (String d "") = false ->
  strings.cutAt (String d "") (a ++ b)
  = match strings.cutAt (String d "") b with
    | Some (x, y) => Some (a ++ x, y)
    | None => None
    end.
Proof.
  induction a as [|c a IH]; intros H.
  - cbn [append]. destruct (strings.cutAt (String d "") b) as [[x y]|];
      reflexivity.
  - apply Contains_byte_cons in H. destruct H as [Hne H].
    cbn [append strings.cutAt]. rewrite HasPrefix_byte.
    destruct (Ascii.ascii_dec d c) as [E|E]; [congruence|].
    rewrite (IH H).
    destruct (strings.cutAt (String d "") b) as [[x y]|]; reflexivity.
Qed.

(** Whatever [parse] returns for an input other than [*] carries the
    scheme [getScheme] found, lower-cased. *)
Lemma parse_Scheme_of rawURL u scheme rest :
  rawURL <> "*" ->
  url.getScheme rawURL = Some (scheme, rest) ->
  url.parse rawURL = inl u ->
  url.Scheme u = strings.ToLower scheme.
Proof.
  intros Hne Hs. unfold url.parse. rewrite Hs.
  apply String.eqb_neq in Hne. rewrite Hne. intros H.
  destruct (url.stringContainsCTLByte rawURL); [discriminate|].
  unfold url.parseHierarchy in H.
  repeat match type of H with
         | (let '(_, _) := ?x in _) = _ => destruct x
         | (if ?b then _ else _) = _ => destruct b
         | match ?x with _ => _ end = _ => destruct x
         | inr _ = inl _ => discriminate
         | inl _ = inl _ => inversion H; subst; clear H
         end; reflexivity.
Qed.

(** [url.Parse] of [scheme://...] keeps the scheme, in lower case. *)
Lemma url_Parse_Scheme p tail w :
  schemeLike p = true ->
  url.Parse (p ++ "://" ++ tail) = inl w ->
  url.Scheme w = strings.ToLower p.
Proof.
  intros Hp. unfold url.Parse, strings.Cut.
  assert (Hfree : strings.Contains p "#" = false)
    by (apply schemeLike_not_Contains; [reflexivity|exact Hp]).
  rewrite (cutAt_app_free "#" p ("://" ++ tail) Hfree).
  assert (Hfront : forall t v,
             url.parse (p ++ "://" ++ t) = inl v ->
             url.Scheme v = strings.ToLower p).
  { intros t v H.
    apply (parse_Scheme_of (p ++ "://" ++ t) v p ("//" ++ t)).
    - destruct p as [|c p]; [discriminate Hp|].
      destruct p; discriminate.
    - exact (getScheme_schemeLike p ("//" ++ t) Hp).
    - exact H. }
  change ("://" ++ tail) with (String ":" (String "/" (String "/" tail))).
  cbn [strings.cutAt]. rewrite !HasPrefix_byte.
  destruct (Ascii.ascii_dec "#" ":") as [E|_]; [discriminate E|].
  destruct (Ascii.ascii_dec "#" "/") as [E|_]; [discriminate E|].
  destruct (strings.cutAt "#" tail) as [[x y]|].
  - change (p ++ String ":" (String "/" (String "/" x))) with (p ++ "://" ++ x).
    destruct (url.parse (p ++ "://" ++ x)) as [v|e] eqn:Ev; [|discriminate].
    pose proof (Hfront x v Ev) as Hv.
    destruct (String.eqb y "").
    + intros H; inversion H; subst. exact Hv.
    + destruct (url.unescape y url.encodeFragment); [|discriminate].
      intros H; inversion H; subst. exact Hv.
  - change (p ++ String ":" (String "/" (String "/" tail)))
      with (p ++ "://" ++ tail).
    destruct (url.parse (p ++ "://" ++ tail)) as [v|e] eqn:Ev; [|discriminate].
    pose proof (Hfront tail v Ev) as Hv.
    destruct (String.eqb "" ""); intros H; inversion H; subst; exact Hv.
Qed.

(** A descriptor of [ParseNormal], for a reference with a [://]. *)
Lemma ParseNormal_direct path u :
  2 <= List.length (strings.Split path "://") ->
  ParseNormal path = Returns (Some u, None) ->
  Getter u = "normal" /\ isProtocol (Scheme u) = true.
Proof.
  unfold ParseNormal, ParseNormalProtocol, strings.Split. intros Hlen H.
  destruct (strings.splitFrom "://" 0 path) as [|part0 [|q l]] eqn:Es;
    [cbn in Hlen; lia|cbn in Hlen; lia|].
  destruct (isProtocol (strings.ToLower part0)) eqn:Hproto; [|discriminate H].
  destruct (splitFrom_head "://" path part0 q l Es) as [tail Hpath].
  destruct (url.Parse path) as [w|e] eqn:Ew; [|discriminate H].
  inversion H; subst u; clear H. cbn [Getter Scheme].
  split; [reflexivity|].
  rewrite Hpath in Ew.
  rewrite (url_Parse_Scheme part0 tail w (isProtocol_schemeLike part0 Hproto) Ew).
  exact Hproto.
Qed.

Lemma strategyOf_direct u :
  Getter u = "normal" -> isProtocol (Scheme u) = true ->
  strategyOf u = (if String.eqb (Scheme u) "s3" then viaS3Getter
                  else viaHttpGetter).
Proof.
  intros Hg Hs. unfold strategyOf. rewrite Hg. cbn [String.eqb Ascii.eqb Bool.eqb andb].
  destruct (isProtocol_cases _ Hs) as [E|[E|E]]; rewrite E; reflexivity.
Qed.

End DirectSyntax.

(** X1: in the direct syntax -- no forced getter, one [://] -- a reference
    that [Parse] accepts has the getter [normal] and one of the schemes
    [s3], [http] and [https], in lower case whatever the case of the
    reference; [Fetch] then hands the reference, as it was given, to the
    object-storage strategy for [s3] and to the HTTP strategy otherwise,
    never to the generic one. *)
Theorem Parse_direct_syntax path u :
  List.length (strings.Split path "::") <> 2 ->
  List.length (strings.Split path "://") = 2 ->
  Parse path = Returns (Some u, None) ->
  Getter u = "normal"
  /\ (Scheme u = "s3" \/ Scheme u = "http" \/ Scheme u = "https")
  /\ strategyOf u = (if String.eqb (Scheme u) "s3" then viaS3Getter
                     else viaHttpGetter)
  /\ retrievalSrc path u = path.
Proof.
  intros Hforced Hdirect. unfold Parse.
  apply Nat.eqb_neq in Hforced. rewrite Hforced, Hdirect. cbn [Nat.eqb].
  intros H.
  destruct (ParseNormal_direct path u ltac:(rewrite Hdirect; lia) H) as [Hg Hs].
  pose proof (strategyOf_direct u Hg Hs) as Hst.
  split; [exact Hg|]. split; [exact (isProtocol_cases _ Hs)|].
  split; [exact Hst|].
  unfold retrievalSrc. rewrite Hst. destruct (String.eqb (Scheme u) "s3"); reflexivity.
Qed.

(** ** What [Parse] returns, and [IsRemote] *)

Lemma parseGetterSrc_Scheme getter src u :
  parseGetterSrc getter src = Returns (Some u, None) ->
  Scheme u <> "" /\ Getter u = getter.
Proof.
  unfold parseGetterSrc. intros H.
  destruct (url.Parse src) as [w|e]; [|discriminate H].
  destruct (String.eqb (url.Scheme w) "") eqn:E; [discriminate H|].
  inversion H; subst u; clear H. cbn [Scheme Getter].
  split; [apply String.eqb_neq; exact E|reflexivity].
Qed.

Lemma parseGetterSrc_error getter src u e :
  parseGetterSrc getter src = Returns (u, Some e) ->
  exists msg, e = InvalidURLError msg.
Proof.
  unfold parseGetterSrc. intros H.
  destruct (url.Parse src) as [w|msg].
  - destruct (String.eqb (url.Scheme w) "");
      inversion H; subst; eexists; reflexivity.
  - inversion H; subst; eexists; reflexivity.
Qed.

(** X2: a descriptor of [Parse] always has a scheme, and its getter is the
    text before the [::] of a forced getter, [normal] in the direct syntax
    and empty otherwise.  [IsRemote] says true of exactly these
    references. *)
Theorem Parse_descriptor path u :
  Parse path = Returns (Some u, None) ->
  Scheme u <> ""
  /\ Getter u = (if Nat.eqb (List.length (strings.Split path "::")) 2
                 then nth 0 (strings.Split path "::") ""
                 else if Nat.eqb (List.length (strings.Split path "://")) 2
                      then "normal" else "")
  /\ IsRemote path = Returns true.
Proof.
  intros H.
  assert (HR : IsRemote path = Returns true) by (unfold IsRemote; rewrite H; reflexivity).
  unfold Parse in H.
  destruct (Nat.eqb (List.length (strings.Split path "::")) 2).
  - destruct (parseGetterSrc_Scheme _ _ _ H) as [Hs Hg]. auto.
  - destruct (Nat.eqb (List.length (strings.Split path "://")) 2) eqn:E.
    + apply Nat.eqb_eq in E.
      destruct (ParseNormal_direct path u ltac:(rewrite E; lia) H) as [Hg Hs].
      split; [|auto].
      intros Hempty. rewrite Hempty in Hs. discriminate Hs.
    + destruct (parseGetterSrc_Scheme _ _ _ H) as [Hs Hg]. auto.
Qed.

(** X3: the errors of [Parse]: an [InvalidURLError], or, in the direct
    syntax only, the unsupported-scheme error; never anything else, and
    never together with a descriptor.  [IsRemote] says false of exactly
    these references. *)
Theorem Parse_errors path u e :
  Parse path = Returns (u, Some e) ->
  u = None
  /\ IsRemote path = Returns false
  /\ ((exists msg, e = InvalidURLError msg)
      \/ (e = UnsupportedSchemeError path
          /\ List.length (strings.Split path "::") <> 2
          /\ List.length (strings.Split path "://") = 2)).
Proof.
  intros H.
  assert (HR : IsRemote path = Returns false)
    by (unfold IsRemote; rewrite H; reflexivity).
  destruct (Parse_returns_descriptor_or_error path u (Some e) H)
    as [(d & _ & Hd)|(Hu & _)]; [discriminate Hd|].
  split; [exact Hu|]. split; [exact HR|].
  unfold Parse in H.
  destruct (Nat.eqb (List.length (strings.Split path "::")) 2) eqn:E2.
  - left. exact (parseGetterSrc_error _ _ _ _ H).
  - destruct (Nat.eqb (List.length (strings.Split path "://")) 2) eqn:E.
    + right. apply Nat.eqb_neq in E2. apply Nat.eqb_eq in E.
      split; [|split; [exact E2|exact E]].
      unfold ParseNormal, ParseNormalProtocol in H.
      destruct (strings.Split path "://") as [|part0 parts].
      * inversion H; reflexivity.
      * destruct (isProtocol (strings.ToLower part0)).
        -- destruct (url.Parse path); discriminate H.
        -- inversion H; reflexivity.
    + left. exact (parseGetterSrc_error _ _ _ _ H).
Qed.

(** X5: a reference without a colon is never remote. *)
Theorem IsRemote_no_colon path :
  strings.Contains path ":" = false -> IsRemote path = Returns false.
Proof.
  intros H. destruct (Parse_no_colon path H) as [msg HP].
  unfold IsRemote. rewrite HP. reflexivity.
Qed.

Section IsRemoteAndFetch.

Context {W : Type}.
Variable os_RemoveAll : string -> W -> option error * W.
Variable r : Remote W.

(** X6: [IsRemote] and [Fetch] agree: of a reference that [IsRemote]
    says false of, [Fetch] returns the error of [Parse], with an empty
    path, and does nothing else, whatever the overrides and the state. *)
Theorem IsRemote_false_Fetch_fails path cacheDirOpt st :
  IsRemote path = Returns false ->
  exists e,
    Parse path = Returns (None, Some e)
    /\ Fetch os_RemoveAll r path cacheDirOpt st = (Returns ("", Some e), st).
Proof.
  unfold IsRemote. intros H.
  destruct (Parse path) as [[u [e|]]|msg] eqn:HP; try discriminate H.
  exists e.
  destruct (Parse_returns_descriptor_or_error path u (Some e) HP)
    as [(d & _ & Hd)|(Hu & _)]; [discriminate Hd|]. subst u.
  split; [reflexivity|].
  exact (Fetch_parse_error os_RemoveAll r path cacheDirOpt st None e HP).
Qed.

End IsRemoteAndFetch.

(** ** The cache key as a directory name *)

Section CacheKeyShape.

Lemma list_ascii_app a b :
  list_ascii_of_string (a ++ b)
  = (list_ascii_of_string a ++ list_ascii_of_string b)%list.
Proof. induction a as [|c a IH]; cbn; [reflexivity|rewrite IH; reflexivity]. Qed.

Lemma HasPrefix_byte_false c s d :
  strings.HasPrefix (String c s) (String d "") = false -> c <> d.
Proof.
  rewrite HasPrefix_byte. destruct (Ascii.ascii_dec d c); [discriminate|congruence].
Qed.

(** The replacer of [Fetch] leaves no colon, no slash and no dot. *)
Lemma replaceFrom_free d s k :
  d = ":"%char \/ d = "/"%char \/ d = "."%char ->
  strings.Contains (strings.replaceFrom replacer k s) (String d "") = false.
Proof.
  intros Hd.
  assert (Hu : "_"%char <> d) by (destruct Hd as [E|[E|E]]; subst d; discriminate).
  revert k. induction s as [|c s IH]; intros k; [reflexivity|].
  cbn [strings.replaceFrom]. destruct k as [|k]; [|apply IH].
  unfold replacer. cbn [strings.lookup].
  destruct (strings.HasPrefix (String c s) ":") eqn:H1; [apply IH|].
  destruct (strings.HasPrefix (String c s) "//") eqn:H2;
    [cbn [append]; apply Contains_byte_intro; [exact Hu|apply IH]|].
  destruct (strings.HasPrefix (String c s) "/") eqn:H3;
    [cbn [append]; apply Contains_byte_intro; [exact Hu|apply IH]|].
  destruct (strings.HasPrefix (String c s) ".") eqn:H4;
    [cbn [append]; apply Contains_byte_intro; [exact Hu|apply IH]|].
  apply Contains_byte_intro; [|apply IH].
  apply HasPrefix_byte_false in H1. apply HasPrefix_byte_false in H3.
  apply HasPrefix_byte_false in H4.
  destruct Hd as [E|[E|E]]; subst d; assumption.
Qed.

(** The [://] of the source directory leaves an underscore. *)
Lemma replaceFrom_underscore S R :
  In "_"%char
    (list_ascii_of_string (strings.replaceFrom replacer 0 (S ++ "://" ++ R))).
Proof.
  induction S as [|c S IH].
  - destruct R; cbn; left; reflexivity.
  - cbn [append strings.replaceFrom]. unfold replacer at 1. cbn [strings.lookup].
    destruct (strings.HasPrefix _ ":"); [exact IH|].
    destruct (strings.HasPrefix _ "//"); [left; reflexivity|].
    destruct (strings.HasPrefix _ "/"); [left; reflexivity|].
    destruct (strings.HasPrefix _ "."); [left; reflexivity|].
    right. exact IH.
Qed.

Lemma upperhex_not_slash n : n < 16 -> url.upperhex n <> "/"%char.
Proof.
  intros H. do 16 (destruct n as [|n]; [vm_compute; discriminate|]). lia.
Qed.

Lemma byte_of_bounded c : byte_of c < 256.
Proof. unfold byte_of. apply nat_ascii_bounded. Qed.

(** An escaped query component holds no slash. *)
Lemma QueryEscape_free s : strings.Contains (url.QueryEscape s) "/" = false.
Proof.
  unfold url.QueryEscape. induction s as [|c s IH]; [reflexivity|].
  cbn [url.escape].
  destruct (url.shouldEscape c url.encodeQueryComponent) eqn:E.
  - destruct (Ascii.eqb c " ").
    + apply Contains_byte_intro; [discriminate|exact IH].
    + apply Contains_byte_intro; [discriminate|].
      apply Contains_byte_intro.
      { apply upperhex_not_slash. apply Nat.Div0.div_lt_upper_bound.
        exact (byte_of_bounded c). }
      apply Contains_byte_intro; [|exact IH].
      apply upperhex_not_slash. apply Nat.mod_upper_bound. discriminate.
  - apply Contains_byte_intro; [|exact IH].
    intros Hc. subst c. discriminate E.
Qed.

Lemma Join_free d sep l :
  strings.Contains sep (String d "") = false ->
  Forall (fun piece => strings.Contains piece (String d "") = false) l ->
  strings.Contains (strings.Join l sep) (String d "") = false.
Proof.
  intros Hsep. induction 1 as [|x l Hx Hl IH]; [reflexivity|].
  cbn [strings.Join]. destruct l as [|y l]; [exact Hx|].
  apply Contains_byte_app; [exact Hx|].
  apply Contains_byte_app; [exact Hsep|exact IH].
Qed.

Lemma Values_Encode_free v : strings.Contains (url.Values_Encode v) "/" = false.
Proof.
  unfold url.Values_Encode. apply Join_free; [reflexivity|].
  apply Forall_forall. intros piece Hin.
  apply in_flat_map in Hin. destruct Hin as (k & _ & Hin).
  apply in_map_iff in Hin. destruct Hin as (value & E & _). subst piece.
  apply Contains_byte_app; [apply QueryEscape_free|].
  apply Contains_byte_app; [reflexivity|apply QueryEscape_free].
Qed.

Lemma ReplaceAll_free s old new d :
  old <> "" ->
  strings.Contains s (String d "") = false ->
  strings.Contains new (String d "") = false ->
  strings.Contains (strings.ReplaceAll s old new) (String d "") = false.
Proof.
  intros Hold Hs Hnew. unfold strings.ReplaceAll. apply Join_free; [exact Hnew|].
  unfold strings.Split. destruct old as [|a old]; [contradiction Hold; reflexivity|].
  apply splitFrom_pieces_Contains. exact Hs.
Qed.

Lemma cacheKey_free u : strings.Contains (cacheKey u) "/" = false.
Proof.
  unfold cacheKey. cbv zeta.
  assert (Hdir : strings.Contains (strings.Replace replacer (srcDir u)) "/" = false)
    by (apply replaceFrom_free; right; left; reflexivity).
  destruct (Nat.ltb 0 (String.length (RawQuery u))); [|exact Hdir].
  apply Contains_byte_app; [exact Hdir|].
  apply Contains_byte_app; [reflexivity|].
  apply ReplaceAll_free; [discriminate| |reflexivity].
  apply Values_Encode_free.
Qed.

Lemma cacheKey_underscore u :
  In "_"%char (list_ascii_of_string (cacheKey u)).
Proof.
  assert (Hdir : In "_"%char
                   (list_ascii_of_string (strings.Replace replacer (srcDir u)))).
  { unfold strings.Replace, srcDir.
    exact (replaceFrom_underscore (Scheme u) (Host u ++ Dir u)). }
  unfold cacheKey. cbv zeta.
  destruct (Nat.ltb 0 (String.length (RawQuery u))); [|exact Hdir].
  rewrite list_ascii_app. apply in_or_app. left. exact Hdir.
Qed.

End CacheKeyShape.

(** X7: the cache key of every descriptor is a proper directory name: it is
    not empty, not [.] or [..], and holds no slash, whatever the host, the
    directory and the query of the reference contain. *)
Theorem cacheKey_properElement u : properElement (cacheKey u).
Proof.
  pose proof (cacheKey_underscore u) as Hin.
  repeat split; try (intros E; rewrite E in Hin; cbn in Hin;
                     repeat (destruct Hin as [Hin|Hin]; try discriminate Hin);
                     contradiction).
  apply cacheKey_free.
Qed.

(** ** Where the cache directory lies *)

Section CachePlace.

Lemma Clean_nonempty path : filepath.Clean path <> "".
Proof.
  unfold filepath.Clean. destruct (String.eqb path ""); [discriminate|].
  cbv zeta. destruct (strings.HasPrefix path "/"); [discriminate|].
  destruct (String.eqb _ "") eqn:E; [discriminate|].
  apply String.eqb_neq. exact E.
Qed.

Lemma splitFrom_byte_pieces d s k :
  Forall (fun piece => strings.Contains piece (String d "") = false)
    (strings.splitFrom (String d "") k s).
Proof.
  revert k. induction s as [|c s IH]; intros k.
  - constructor; [reflexivity|constructor].
  - cbn [strings.splitFrom]. destruct k as [|k]; [|apply IH].
    rewrite HasPrefix_byte. destruct (Ascii.ascii_dec d c) as [E|E].
    + constructor; [reflexivity|apply IH].
    + specialize (IH 0).
      destruct (strings.splitFrom (String d "") 0 s) as [|piece pieces].
      * constructor; [|constructor].
        apply Contains_byte_intro; [congruence|reflexivity].
      * inversion IH; subst. constructor; [|assumption].
        apply Contains_byte_intro; [congruence|assumption].
Qed.

Lemma cleanStep_kept rooted out e :
  strings.Contains e "/" = false ->
  Forall kept out -> Forall kept (filepath.cleanStep rooted out e).
Proof.
  intros He Hout. unfold filepath.cleanStep.
  destruct (String.eqb e "") eqn:E1; [exact Hout|].
  destruct (String.eqb e ".") eqn:E2; [exact Hout|]. cbn [orb].
  apply String.eqb_neq in E1. apply String.eqb_neq in E2.
  assert (Hk : kept e) by (repeat split; assumption).
  destruct (String.eqb e "..").
  - destruct out as [|top rest].
    + destruct rooted; constructor; [exact Hk|constructor].
    + destruct (String.eqb top "..").
      * constructor; assumption.
      * inversion Hout; assumption.
  - constructor; assumption.
Qed.

Lemma fold_cleanStep_kept rooted pieces out :
  Forall (fun piece => strings.Contains piece "/" = false) pieces ->
  Forall kept out ->
  Forall kept (fold_left (filepath.cleanStep rooted) pieces out).
Proof.
  intros Hp. revert out. induction Hp as [|e pieces He Hp IH]; intros out Hout.
  - exact Hout.
  - cbn [fold_left]. apply IH. apply cleanStep_kept; assumption.
Qed.

Lemma Join_snoc l x sep :
  strings.Join (l ++ [x]) sep
  = match l with
    | [] => x
    | _ => strings.Join l sep ++ sep ++ x
    end.
Proof.
  induction l as [|a l IH]; [reflexivity|].
  cbn [app strings.Join]. destruct l as [|b l]; [reflexivity|].
  cbn [app] in *. rewrite IH. rewrite !append_assoc. reflexivity.
Qed.

(** The joined elements [Clean] writes out: not empty, not the root and
    not [.]. *)
Lemma Join_kept x l :
  kept x ->
  let body := strings.Join (x :: l) "/" in
  body <> "" /\ body <> "/" /\ body <> ".".
Proof.
  intros (Hne & Hdot & Hfree). cbv zeta.
  destruct x as [|c x]; [contradiction Hne; reflexivity|].
  apply Contains_byte_cons in Hfree. destruct Hfree as [Hc _].
  cbn [strings.Join]. destruct l as [|y l].
  - repeat split; [discriminate|congruence|exact Hdot].
  - cbn [append]. repeat split; [discriminate|congruence|].
    intros E. inversion E as [[Ec Ex]]. destruct x; discriminate Ex.
Qed.

Lemma cleanStep_proper rooted out e :
  properElement e -> filepath.cleanStep rooted out e = e :: out.
Proof.
  intros (H1 & H2 & H3 & _). unfold filepath.cleanStep.
  apply String.eqb_neq in H1. apply String.eqb_neq in H2.
  apply String.eqb_neq in H3. rewrite H1, H2, H3. reflexivity.
Qed.

Lemma Clean_proper e : properElement e -> filepath.Clean e = e.
Proof.
  intros He. pose proof He as (H1 & _ & _ & H4).
  unfold filepath.Clean. apply String.eqb_neq in H1. rewrite H1. cbv zeta.
  destruct e as [|c e]; [discriminate H1|].
  pose proof (Contains_byte_cons _ _ _ H4) as [Hc _].
  rewrite HasPrefix_byte.
  destruct (Ascii.ascii_dec "/" c) as [E|_]; [congruence|].
  rewrite (Split_byte_none _ _ H4). cbn [fold_left].
  rewrite (cleanStep_proper false [] _ He). cbn [rev app strings.Join].
  rewrite H1. reflexivity.
Qed.

(** Joining a directory and a proper element gives the entry of that
    name in the directory. *)
Lemma Join_child dir e :
  dir <> "" -> properElement e ->
  filepath.Join [dir; e] = child (filepath.Clean dir) e.
Proof.
  intros Hdir He. pose proof He as (H1 & _ & _ & H4).
  cbn [filepath.Join]. apply String.eqb_neq in Hdir. rewrite Hdir.
  cbn [strings.Join]. unfold filepath.Clean at 1 2. rewrite Hdir. cbv zeta.
  destruct dir as [|c dir]; [discriminate Hdir|].
  replace (String.eqb (String c dir ++ "/" ++ e) "") with false by reflexivity.
  replace (strings.HasPrefix (String c dir ++ "/" ++ e) "/")
    with (strings.HasPrefix (String c dir) "/")
    by (cbn [append]; rewrite !HasPrefix_byte; reflexivity).
  change (String c dir ++ "/" ++ e) with (String c dir ++ String "/" e).
  rewrite Split_byte_app, (Split_byte_none _ _ H4), fold_left_app.
  cbn [fold_left].
  set (rooted := strings.HasPrefix (String c dir) "/").
  assert (Hout : Forall kept (rev (fold_left (filepath.cleanStep rooted)
                                     (strings.Split (String c dir) "/") []))).
  { apply Forall_rev. apply fold_cleanStep_kept; [|constructor].
    apply splitFrom_byte_pieces. }
  rewrite (cleanStep_proper rooted _ _ He). cbn [rev]. rewrite Join_snoc.
  destruct (rev (fold_left (filepath.cleanStep rooted)
                   (strings.Split (String c dir) "/") [])) as [|x l].
  - cbn [strings.Join]. unfold child.
    destruct rooted; [reflexivity|].
    apply String.eqb_neq in H1. rewrite H1. reflexivity.
  - inversion Hout as [|? ? Hx _]; subst.
    destruct (Join_kept x l Hx) as (B1 & B2 & B3). cbv zeta in *.
    set (body := strings.Join (x :: l) "/") in *.
    unfold child. destruct rooted.
    + replace (String.eqb ("/" ++ body) "/") with false
        by (destruct body; [contradiction B1; reflexivity|reflexivity]).
      replace (String.eqb ("/" ++ body) ".") with false by reflexivity.
      reflexivity.
    + apply String.eqb_neq in B1, B2, B3. rewrite B1, B2, B3.
      destruct body; [discriminate B1|reflexivity].
Qed.

End CachePlace.

(** X8: the cache directory of a reference is the entry named by its cache
    key in the base directory: in [Home], cleaned, when there is no
    override, and in the override, taken relative to [Home], otherwise.  No
    reference makes its cache key lead anywhere else. *)
Theorem cacheDirPath_is_the_entry_of_the_key
    (W : Type) (r : Remote W) (cacheBaseDir : string) (u : Source) :
  getterDst cacheBaseDir u
  = (if String.eqb cacheBaseDir "" then cacheKey u
     else child (filepath.Clean cacheBaseDir) (cacheKey u))
  /\ cacheDirPath r "" u
     = (if String.eqb (Home r) "" then cacheKey u
        else child (filepath.Clean (Home r)) (cacheKey u)).
Proof.
  pose proof (cacheKey_free u) as Hfree.
  pose proof (cacheKey_underscore u) as Hin.
  assert (Hkey : properElement (cacheKey u)).
  { repeat split; try exact Hfree;
      intros E; rewrite E in Hin; cbn in Hin;
      repeat (destruct Hin as [Hin|Hin]; try discriminate Hin); contradiction. }
  assert (Hone : filepath.Join [cacheKey u] = cacheKey u).
  { cbn [filepath.Join strings.Join]. pose proof Hkey as (H1 & _).
    apply String.eqb_neq in H1. rewrite H1. apply Clean_proper. exact Hkey. }
  assert (Hdst : forall base,
             filepath.Join [base; cacheKey u]
             = if String.eqb base "" then cacheKey u
               else child (filepath.Clean base) (cacheKey u)).
  { intros base. destruct (String.eqb base "") eqn:E.
    - apply String.eqb_eq in E. subst base. exact Hone.
    - apply String.eqb_neq in E. apply Join_child; assumption. }
  split.
  - unfold getterDst. apply Hdst.
  - unfold cacheDirPath, getterDst. rewrite (Hdst ""). cbn [String.eqb].
    apply Hdst.
Qed.

(** ** What one call of [Fetch] returns and does *)

Section FetchShape.

Context {W : Type}.
Variable os_RemoveAll : string -> W -> option error * W.
Variable r : Remote W.

Abbreviation Fetch := (Fetch os_RemoveAll r).
Abbreviation Locate := (Locate os_RemoveAll r).

Lemma Join_nonempty elem :
  (exists e, In e elem /\ e <> "") -> filepath.Join elem <> "".
Proof.
  induction elem as [|a elem IH]; intros (e & Hin & Hne); [contradiction Hin|].
  cbn [filepath.Join]. destruct (String.eqb a "") eqn:E.
  - apply String.eqb_eq in E. subst a. apply IH. exists e.
    destruct Hin as [Hin|Hin]; [congruence|]. split; assumption.
  - apply Clean_nonempty.
Qed.

Lemma cacheDirPath_nonempty base u : cacheDirPath r base u <> "".
Proof.
  unfold cacheDirPath. apply Join_nonempty.
  exists (getterDst base u). split; [right; left; reflexivity|].
  unfold getterDst. apply Join_nonempty.
  exists (cacheKey u). split; [right; left; reflexivity|].
  intros E. pose proof (cacheKey_underscore u) as Hin. rewrite E in Hin.
  contradiction Hin.
Qed.

(** Every way [Fetch] returns, on a reference [Parse] accepts. *)
Lemma Fetch_cases path cacheDirOpt st u :
  Parse path = Returns (Some u, None) ->
  let base := cacheBaseDirOf cacheDirOpt in
  let dst := cacheDirPath r base u in
  let get := GetCalled (strategyOf u) (Home r) (retrievalSrc path u) dst in
  let found := Returns (filepath.Join [dst; File u], None) in
  (exists e, Fetch path cacheDirOpt st = (Returns ("", Some e), st)
             /\ forall msg, e <> InvalidURLError msg)
  \/ (isCached r base u (world st) = true
      /\ Fetch path cacheDirOpt st = (found, st))
  \/ (isCached r base u (world st) = false
      /\ exists w1,
          Get (getter r (strategyOf u)) (Home r) (retrievalSrc path u) dst
            (world st) = (None, w1)
          /\ Fetch path cacheDirOpt st
             = (found, {| world := w1; calls := (calls st ++ [get])%list |}))
  \/ (isCached r base u (world st) = false
      /\ strategyOf u <> viaGetter
      /\ exists e w1,
          Get (getter r (strategyOf u)) (Home r) (retrievalSrc path u) dst
            (world st) = (Some e, w1)
          /\ Fetch path cacheDirOpt st
             = (Returns ("", multierr.Append (Some e) (Some e)),
                {| world := w1; calls := (calls st ++ [get])%list |}))
  \/ (isCached r base u (world st) = false
      /\ strategyOf u = viaGetter
      /\ exists e w1 rmerr w2,
          Get (Getter_ r) (Home r) (retrievalSrc path u) dst (world st)
          = (Some e, w1)
          /\ os_RemoveAll dst w1 = (rmerr, w2)
          /\ Fetch path cacheDirOpt st
             = (Returns ("", match rmerr with
                             | Some _ => multierr.Append (Some e) rmerr
                             | None => Some e
                             end),
                {| world := w2;
                   calls := (calls st ++ [get; RemoveAllCalled dst])%list |})).
Proof.
  intros HP base dst get found.
  destruct (Nat.le_gt_cases (List.length cacheDirOpt) 1) as [Hlen|Hlen].
  2:{ left. exists (cacheDirOptError (List.length cacheDirOpt)).
      split; [|discriminate].
      exact (Fetch_too_many_overrides os_RemoveAll r path cacheDirOpt st u HP Hlen). }
  rewrite (Fetch_parsed os_RemoveAll r path cacheDirOpt st u HP Hlen).
  cbv zeta. fold base dst found.
  destruct (conflict r base u (world st)).
  { left. exists (CachePathConflictError (getterDst base u)).
    split; [reflexivity|discriminate]. }
  destruct (isCached r base u (world st)).
  { right. left. split; reflexivity. }
  right. right. rewrite retrieve_unfold. cbv zeta. fold dst.
  unfold afterRemoveAll, afterGet. cbn [world calls].
  destruct (Get (getter r (strategyOf u)) (Home r) (retrievalSrc path u) dst
              (world st)) as [[e|] w1] eqn:HGet.
  - right. subst get. destruct (strategyOf u) eqn:Hs.
    + right. split; [reflexivity|]. split; [reflexivity|].
      destruct (os_RemoveAll dst w1) as [rmerr w2] eqn:HRm.
      exists e, w1, rmerr, w2. split; [exact HGet|]. split; [exact HRm|].
      rewrite <- app_assoc. destruct rmerr; reflexivity.
    + left. split; [reflexivity|]. split; [discriminate|].
      exists e, w1. split; reflexivity.
    + left. split; [reflexivity|]. split; [discriminate|].
      exists e, w1. split; reflexivity.
  - left. split; [reflexivity|]. exists w1. split; reflexivity.
Qed.

Lemma Fetch_error_path path cacheDirOpt st p e st1 :
  Fetch path cacheDirOpt st = (Returns (p, Some e), st1) -> p = "".
Proof.
  destruct (Parse path) as [[[u|] [err|]]|msg] eqn:HP.
  - rewrite (Fetch_parse_error os_RemoveAll r path cacheDirOpt st _ err HP).
    intros H; inversion H; reflexivity.
  - destruct (Fetch_cases path cacheDirOpt st u HP)
      as [(e' & HF & _)|[(_ & HF)|[(_ & w1 & _ & HF)
         |[(_ & _ & e' & w1 & _ & HF)|(_ & _ & e' & w1 & rm & w2 & _ & _ & HF)]]]];
      rewrite HF; intros H; inversion H; reflexivity.
  - rewrite (Fetch_parse_error os_RemoveAll r path cacheDirOpt st _ err HP).
    intros H; inversion H; reflexivity.
  - unfold remote.Fetch. rewrite HP. discriminate.
  - unfold remote.Fetch. rewrite HP. discriminate.
Qed.

(** X10: [Fetch] returns a path or an error, never both and never neither: with
    an error the path is empty; without one the path is not empty and is
    the file of the descriptor joined to the cache directory, the same
    whether the cache was hit or the reference retrieved. *)
Theorem Fetch_path_or_error path cacheDirOpt st p err st1 :
  Fetch path cacheDirOpt st = (Returns (p, err), st1) ->
  match err with
  | Some _ => p = ""
  | None =>
      p <> ""
      /\ exists u,
          Parse path = Returns (Some u, None)
          /\ p = filepath.Join [cacheDirPath r (cacheBaseDirOf cacheDirOpt) u;
                                File u]
  end.
Proof.
  intros HF. destruct err as [e|].
  - exact (Fetch_error_path path cacheDirOpt st p e st1 HF).
  - destruct (Fetch_succeeded os_RemoveAll r path cacheDirOpt st p st1 HF)
      as (u & HP & _ & _ & Hp & _).
    split; [|exists u; split; assumption].
    rewrite Hp. apply Join_nonempty.
    exists (cacheDirPath r (cacheBaseDirOf cacheDirOpt) u).
    split; [left; reflexivity|apply cacheDirPath_nonempty].
Qed.

(** X11: one call of [Fetch] calls at most one retrieval strategy, at most
    once, and only on a cache miss; [os.RemoveAll] is called at most once,
    on the cache directory, right after a failed call of the generic
    strategy and never otherwise.  There is no retry and nothing else is
    called. *)
Theorem Fetch_calls_at_most_once path cacheDirOpt st res st1 :
  Fetch path cacheDirOpt st = (res, st1) ->
  st1 = st
  \/ exists u,
      let base := cacheBaseDirOf cacheDirOpt in
      let dst := cacheDirPath r base u in
      let get := GetCalled (strategyOf u) (Home r) (retrievalSrc path u) dst in
      Parse path = Returns (Some u, None)
      /\ isCached r base u (world st) = false
      /\ (calls st1 = (calls st ++ [get])%list
          \/ (strategyOf u = viaGetter
              /\ (exists e, res = Returns ("", Some e))
              /\ calls st1 = (calls st ++ [get; RemoveAllCalled dst])%list)).
Proof.
  destruct (Parse path) as [[[u|] [err|]]|msg] eqn:HP.
  - rewrite (Fetch_parse_error os_RemoveAll r path cacheDirOpt st _ err HP).
    intros H; inversion H; left; reflexivity.
  - destruct (Fetch_cases path cacheDirOpt st u HP)
      as [(e' & HF & _)|[(_ & HF)|[(Hmiss & w1 & _ & HF)
         |[(Hmiss & _ & e' & w1 & _ & HF)
          |(Hmiss & Hgen & e' & w1 & rm & w2 & _ & _ & HF)]]]];
      rewrite HF; intros H; inversion H; subst; clear H.
    + left; reflexivity.
    + left; reflexivity.
    + right. exists u. cbv zeta. split; [reflexivity|]. split; [exact Hmiss|].
      left; reflexivity.
    + right. exists u. cbv zeta. split; [reflexivity|]. split; [exact Hmiss|].
      left; reflexivity.
    + right. exists u. cbv zeta. split; [reflexivity|]. split; [exact Hmiss|].
      right. split; [exact Hgen|]. split; [|reflexivity].
      destruct rm; eexists; cbn; reflexivity.
  - rewrite (Fetch_parse_error os_RemoveAll r path cacheDirOpt st _ err HP).
    intros H; inversion H; left; reflexivity.
  - unfold remote.Fetch. rewrite HP. intros H; inversion H; left; reflexivity.
  - unfold remote.Fetch. rewrite HP. intros H; inversion H; left; reflexivity.
Qed.

Lemma cacheKey_same_directory u1 u2 :
  Scheme u1 = Scheme u2 -> Host u1 = Host u2 -> Dir u1 = Dir u2 ->
  RawQuery u1 = RawQuery u2 -> cacheKey u1 = cacheKey u2.
Proof.
  intros Hs Hh Hd Hq. unfold cacheKey, srcDir. rewrite Hs, Hh, Hd, Hq.
  reflexivity.
Qed.

(** X12: the cache is kept by source directory, not by file.  Once a
    reference has been retrieved, a reference to another file of the same
    scheme, host, directory and query is a cache hit: [Fetch] calls nothing
    and returns the path of that file in the cache directory, whatever the
    first retrieval put there. *)
Theorem Fetch_other_file_of_cached_directory
    path1 path2 cacheDirOpt st p1 st1 u1 u2 :
  getters_create_destination r ->
  directories_are_not_files r ->
  Parse path1 = Returns (Some u1, None) ->
  Parse path2 = Returns (Some u2, None) ->
  Scheme u1 = Scheme u2 -> Host u1 = Host u2 -> Dir u1 = Dir u2 ->
  RawQuery u1 = RawQuery u2 ->
  isCached r (cacheBaseDirOf cacheDirOpt) u1 (world st) = false ->
  Fetch path1 cacheDirOpt st = (Returns (p1, None), st1) ->
  Fetch path2 cacheDirOpt st1
  = (Returns (filepath.Join [cacheDirPath r (cacheBaseDirOf cacheDirOpt) u1;
                             File u2], None), st1).
Proof.
  intros Hmk Hexcl HP1 HP2 Hs Hh Hd Hq Hmiss HF.
  destruct (Fetch_succeeded os_RemoveAll r path1 cacheDirOpt st p1 st1 HF)
    as (u & HP & Hlen & _ & _ & Hrun).
  rewrite HP1 in HP. inversion HP; subst u; clear HP.
  cbv zeta in Hrun. rewrite Hmiss in Hrun. destruct Hrun as (w1 & HGet & Hst1).
  pose proof (Hmk _ _ _ _ _ _ HGet) as Hdir.
  assert (Hw : world st1 = w1) by (subst st1; reflexivity).
  assert (Hkey : cacheDirPath r (cacheBaseDirOf cacheDirOpt) u2
                 = cacheDirPath r (cacheBaseDirOf cacheDirOpt) u1).
  { unfold cacheDirPath, getterDst.
    rewrite (cacheKey_same_directory u1 u2 Hs Hh Hd Hq). reflexivity. }
  rewrite (Fetch_parsed os_RemoveAll r path2 cacheDirOpt st1 u2 HP2 Hlen).
  cbv zeta. unfold conflict, isCached. rewrite Hkey, Hw.
  rewrite (Hexcl _ _ Hdir), Hdir.
  destruct (String.eqb (Getter u2) "normal" && _); reflexivity.
Qed.

(** X13: the object-storage and the HTTP strategy are not cleaned up after.
    When one of them fails on a cache miss after it has made the
    destination directory, [Fetch] returns the error and leaves the
    directory; a second [Fetch] of the same reference then finds it, calls
    nothing and returns a path as if the reference had been retrieved. *)
Theorem Fetch_after_failed_direct_retrieval path cacheDirOpt st u e w1 :
  let base := cacheBaseDirOf cacheDirOpt in
  let dst := cacheDirPath r base u in
  let st1 := {| world := w1;
                calls := (calls st ++ [GetCalled (strategyOf u) (Home r) path
                                         dst])%list |} in
  directories_are_not_files r ->
  Parse path = Returns (Some u, None) ->
  List.length cacheDirOpt <= 1 ->
  conflict r base u (world st) = false ->
  isCached r base u (world st) = false ->
  strategyOf u <> viaGetter ->
  Get (getter r (strategyOf u)) (Home r) path dst (world st) = (Some e, w1) ->
  DirectoryExistsAt (fs r) dst w1 = true ->
  Fetch path cacheDirOpt st
  = (Returns ("", multierr.Append (Some e) (Some e)), st1)
  /\ Fetch path cacheDirOpt st1
     = (Returns (filepath.Join [dst; File u], None), st1).
Proof.
  intros base dst st1 Hexcl HP Hlen Hconf Hmiss Hdirect HGet Hdir. split.
  - exact (Fetch_direct_failure os_RemoveAll r path cacheDirOpt st u e w1
             HP Hlen Hconf Hmiss Hdirect HGet).
  - rewrite (Fetch_parsed os_RemoveAll r path cacheDirOpt st1 u HP Hlen).
    cbv zeta. fold base dst. unfold conflict, isCached. fold dst.
    cbn [world st1]. rewrite (Hexcl _ _ Hdir), Hdir.
    destruct (String.eqb (Getter u) "normal" && _); reflexivity.
Qed.

End FetchShape.

(** ** The errors [Locate] lets through *)

Section LocateShape.

Context {W : Type}.
Variable os_RemoveAll : string -> W -> option error * W.
Variable r : Remote W.

Abbreviation Fetch := (Fetch os_RemoveAll r).
Abbreviation Locate := (Locate os_RemoveAll r).

(** X14: an error of [Locate] is an error of [Fetch], returned with an empty
    path and in the state [Fetch] left; it is never an [InvalidURLError]. *)
Theorem Locate_error_is_the_error_of_Fetch urlOrPath cacheDirOpt st p e st1 :
  Locate urlOrPath cacheDirOpt st = (Returns (p, Some e), st1) ->
  p = ""
  /\ (forall msg, e <> InvalidURLError msg)
  /\ Fetch urlOrPath cacheDirOpt st = (Returns ("", Some e), st1).
Proof.
  unfold remote.Locate.
  destruct (FileExistsAt (fs r) urlOrPath (world st)
            || DirectoryExistsAt (fs r) urlOrPath (world st));
    [discriminate|].
  unfold bind.
  destruct (Fetch urlOrPath cacheDirOpt st) as [[[q [err|]]|msg] st'] eqn:HF;
    [|discriminate|discriminate].
  pose proof (Fetch_error_path os_RemoveAll r urlOrPath cacheDirOpt st q err st' HF)
    as Hq.
  subst q.
  destruct err as [m|m|l]; intros H; inversion H; subst; clear H;
    (split; [reflexivity|split; [intros msg; discriminate|reflexivity]]).
Qed.

(** X15: with go-getter as the generic strategy, as [NewRemote] installs it,
    no retrieval error is an [InvalidURLError]: once [Parse] accepts the
    reference, every error of [Fetch] reaches the caller of [Locate], and
    [Locate] never takes a reference that failed to download for a local
    path. *)
Theorem Locate_reports_every_retrieval_error
    Client_Get urlOrPath cacheDirOpt st u p e st1 :
  Getter_ r = GoGetter Client_Get ->
  FileExistsAt (fs r) urlOrPath (world st) = false ->
  DirectoryExistsAt (fs r) urlOrPath (world st) = false ->
  Parse urlOrPath = Returns (Some u, None) ->
  Fetch urlOrPath cacheDirOpt st = (Returns (p, Some e), st1) ->
  (forall msg, e <> InvalidURLError msg)
  /\ Locate urlOrPath cacheDirOpt st = (Returns ("", Some e), st1).
Proof.
  intros Hgo Hf Hd HP HF.
  assert (Hne : forall msg, e <> InvalidURLError msg).
  { destruct (Fetch_cases os_RemoveAll r urlOrPath cacheDirOpt st u HP)
      as [(e' & HF' & Hne)|[(_ & HF')|[(_ & w1 & _ & HF')
         |[(_ & _ & e' & w1 & _ & HF')
          |(_ & _ & e' & w1 & rm & w2 & HGet & _ & HF')]]]];
      rewrite HF' in HF; inversion HF; subst; clear HF.
    - exact Hne.
    - intros msg. discriminate.
    - rewrite Hgo in HGet. cbn [Get GoGetter] in HGet.
      destruct (Client_Get _ (world st)) as [[err|] w']; inversion HGet; subst.
      match goal with
      | H : _ = Some e |- _ => destruct rm; cbn in H; inversion H
      end; intros msg; discriminate. }
  split; [exact Hne|].
  rewrite (Locate_not_local os_RemoveAll r urlOrPath cacheDirOpt st Hf Hd), HF.
  destruct e as [m| |]; [exfalso; exact (Hne m eq_refl)| |]; reflexivity.
Qed.

End LocateShape.

(** ** [ParseS3Url] on the references [Fetch] hands to the object-storage
    strategy *)

Section S3References.

Lemma ParseNormal_URL path u :
  ParseNormal path = Returns (Some u, None) ->
  exists w,
    url.Parse path = inl w
    /\ Scheme u = url.Scheme w /\ Host u = url.Host w
    /\ File u = filepath.Base (url.Path w).
Proof.
  unfold ParseNormal. intros H.
  destruct (ParseNormalProtocol path) as [protocol [err|]]; [discriminate H|].
  destruct (url.Parse path) as [w|e]; [|discriminate H].
  inversion H; subst u; clear H. exists w. cbn. repeat split; reflexivity.
Qed.

(** [url.Parse] of [scheme:...] keeps the scheme, in lower case. *)
Lemma url_Parse_Scheme_colon p rest w :
  schemeLike p = true ->
  url.Parse (p ++ String ":" rest) = inl w ->
  url.Scheme w = strings.ToLower p.
Proof.
  intros Hp. unfold url.Parse, strings.Cut.
  assert (Hfree : strings.Contains p "#" = false)
    by (apply schemeLike_not_Contains; [reflexivity|exact Hp]).
  rewrite (cutAt_app_free "#" p (String ":" rest) Hfree).
  assert (Hfront : forall t v,
             url.parse (p ++ String ":" t) = inl v ->
             url.Scheme v = strings.ToLower p).
  { intros t v H. apply (parse_Scheme_of (p ++ String ":" t) v p t).
    - destruct p as [|c p]; [discriminate Hp|]. destruct p; discriminate.
    - exact (getScheme_schemeLike p t Hp).
    - exact H. }
  cbn [strings.cutAt]. rewrite HasPrefix_byte.
  destruct (Ascii.ascii_dec "#" ":") as [E|_]; [discriminate E|].
  destruct (strings.cutAt "#" rest) as [[x y]|].
  - destruct (url.parse (p ++ String ":" x)) as [v|e] eqn:Ev; [|discriminate].
    pose proof (Hfront x v Ev) as Hv.
    destruct (String.eqb y "").
    + intros H; inversion H; subst. exact Hv.
    + destruct (url.unescape y url.encodeFragment); [|discriminate].
      intros H; inversion H; subst. exact Hv.
  - destruct (url.parse (p ++ String ":" rest)) as [v|e] eqn:Ev; [|discriminate].
    pose proof (Hfront rest v Ev) as Hv.
    destruct (String.eqb "" ""); intros H; inversion H; subst; exact Hv.
Qed.

Lemma Split_two s sep :
  List.length (strings.Split s sep) = 2 -> sep <> "" ->
  exists tail, s = nth 0 (strings.Split s sep) "" ++ sep ++ tail.
Proof.
  intros Hlen Hsep. unfold strings.Split in *.
  destruct sep as [|a sep]; [contradiction Hsep; reflexivity|].
  destruct (strings.splitFrom (String a sep) 0 s) as [|p [|q l]] eqn:E;
    try discriminate Hlen.
  cbn [nth]. exact (splitFrom_head _ _ _ _ _ E).
Qed.

End S3References.

(** X16: in the direct syntax the reference that [Fetch] hands to the
    object-storage strategy is one [ParseS3Url] accepts, and the bucket it
    reads is the host of the descriptor; the object key and the file name
    [Fetch] returns come from the same path.  A direct [http] or [https]
    reference is rejected for its scheme. *)
Theorem ParseS3Url_of_direct_reference path u :
  List.length (strings.Split path "::") <> 2 ->
  List.length (strings.Split path "://") = 2 ->
  Parse path = Returns (Some u, None) ->
  exists w,
    url.Parse path = inl w
    /\ File u = path.Base (url.Path w)
    /\ ParseS3Url path
       = (if String.eqb (Scheme u) "s3"
          then (Host u, strings.TrimPrefix (url.Path w) "/", None)
          else ("", "", Some (errorString "invalid URL scheme (expected 's3')"))).
Proof.
  intros Hforced Hdirect. unfold Parse.
  apply Nat.eqb_neq in Hforced. rewrite Hforced, Hdirect. cbn [Nat.eqb].
  intros H. destruct (ParseNormal_URL path u H) as (w & Hw & Hs & Hh & Hf).
  exists w. split; [exact Hw|]. split; [exact Hf|].
  unfold ParseS3Url. rewrite Hw, <- Hs, <- Hh.
  destruct (String.eqb (Scheme u) "s3"); reflexivity.
Qed.

(** With the getter [normal] forced on an [s3] URL, [Fetch] picks the
    object-storage strategy and hands it the reference with its
    [normal::] in front, which [ParseS3Url] never accepts: the scheme it
    reads is [normal]. *)
Lemma ParseS3Url_forced path u :
  List.length (strings.Split path "::") = 2 ->
  Parse path = Returns (Some u, None) ->
  strategyOf u = viaS3Getter ->
  retrievalSrc path u = path
  /\ exists e, ParseS3Url path = ("", "", Some e).
Proof.
  intros Hforced HP Hs3.
  split; [unfold retrievalSrc; rewrite Hs3; reflexivity|].
  assert (Hg : Getter u = "normal").
  { unfold strategyOf in Hs3.
    destruct (String.eqb (Getter u) "normal") eqn:E;
      [apply String.eqb_eq; exact E|discriminate Hs3]. }
  destruct (Split_two path "::" Hforced ltac:(discriminate)) as [tail Hpath].
  unfold Parse in HP. rewrite Hforced in HP. cbn [Nat.eqb] in HP.
  destruct (parseGetterSrc_Scheme _ _ _ HP) as [_ Hget].
  rewrite Hg in Hget. rewrite <- Hget in Hpath.
  unfold ParseS3Url.
  destruct (url.Parse path) as [w|e] eqn:Ew; [|eexists; reflexivity].
  rewrite Hpath in Ew.
  change ("normal" ++ "::" ++ tail) with ("normal" ++ String ":" (":" ++ tail)) in Ew.
  rewrite (url_Parse_Scheme_colon "normal" _ w eq_refl Ew).
  eexists; reflexivity.
Qed.

(** ** The cache home and the constructor *)

Lemma ParseBool_true str :
  fst (strconv.ParseBool str) = true
  <-> In str ["1"; "t"; "T"; "true"; "TRUE"; "True"].
Proof.
  unfold strconv.ParseBool.
  destruct (existsb (String.eqb str) ["1"; "t"; "T"; "true"; "TRUE"; "True"])
    eqn:E.
  - split; [intros _|reflexivity].
    apply existsb_exists in E. destruct E as (x & Hin & Hx).
    apply String.eqb_eq in Hx. subst x. exact Hin.
  - split.
    + destruct (existsb (String.eqb str) ["0"; "f"; "F"; "false"; "FALSE"; "False"]);
        cbn [fst]; intros H; discriminate H.
    + intros Hin. exfalso.
      assert (E' : existsb (String.eqb str)
                     ["1"; "t"; "T"; "true"; "TRUE"; "True"] = true)
        by (apply existsb_exists; exists str; split;
            [exact Hin|apply String.eqb_refl]).
      rewrite E' in E. discriminate E.
Qed.

Lemma CacheDir_nonempty env : CacheDir env <> "".
Proof.
  unfold CacheDir. cbv zeta.
  destruct (String.eqb (getenvCacheHome env) "") eqn:E; cbn [negb].
  - destruct (UserCacheDir env) as [dir [err|]]; [discriminate|].
    cbn [filepath.Join]. destruct (String.eqb dir "").
    + cbn [strings.Join String.eqb Ascii.eqb Bool.eqb andb].
      apply Clean_nonempty.
    + apply Clean_nonempty.
  - apply String.eqb_neq. exact E.
Qed.

(** X24: [NewRemote] panics exactly when the variable that disables insecure
    features is set to one of the six spellings of true that
    [strconv.ParseBool] knows; every other value -- unset, a spelling of
    false, or a word such as [yes] -- leaves remote sources enabled.  The
    [Remote] it then returns has the go-getter strategy as its generic one
    and a home that is never empty: the directory given, or else the cache
    home of the environment. *)
Theorem NewRemote_panics_or_has_a_home
    (W : Type) env (Client_Get : Client -> W -> option error * W)
    s3Getter httpGetter homeDir fs :
  match NewRemote env Client_Get s3Getter httpGetter homeDir fs with
  | Panics msg =>
      msg = disabledMessage
      /\ In (getenvDisableInsecureFeatures env)
           ["1"; "t"; "T"; "true"; "TRUE"; "True"]
  | Returns r =>
      ~ In (getenvDisableInsecureFeatures env)
          ["1"; "t"; "T"; "true"; "TRUE"; "True"]
      /\ Home r <> ""
      /\ Home r = (if String.eqb homeDir "" then CacheDir env else homeDir)
      /\ Getter_ r = GoGetter Client_Get
  end.
Proof.
  unfold NewRemote.
  destruct (disableInsecureFeatures env) eqn:E; unfold disableInsecureFeatures in E.
  - split; [reflexivity|]. apply ParseBool_true. exact E.
  - cbn [Home Getter_]. split.
    + intros Hin. apply ParseBool_true in Hin. rewrite Hin in E. discriminate E.
    + split; [|split; reflexivity].
      destruct (String.eqb homeDir "") eqn:Eh.
      * apply CacheDir_nonempty.
      * apply String.eqb_neq. exact Eh.
Qed.

(** ** The HTTP and the object-storage strategy *)

Section StrategyFacts.

Context {W Body OsFile Session : Type}.
Variable pf : Platform W Body OsFile Session.

Lemma then_sys {A B} c (op : W -> A * W) (k : A -> IO W B) p :
  then_ (sys c op) k p
  = let '(a, w) := op (outside p) in
    k a {| outside := w; trace := (trace p ++ [c])%list |}.
Proof.
  unfold then_, sys. destruct (op (outside p)) as [a w]. reflexivity.
Qed.

Lemma then_assoc {A B C} (m : IO W A) (f : A -> IO W B) (g : B -> IO W C) p :
  then_ (then_ m f) g p = then_ m (fun a => then_ (f a) g) p.
Proof. unfold then_. destruct (m p) as [a p1]. reflexivity. Qed.

Lemma then_unit {A B} (a : A) (k : A -> IO W B) p :
  then_ (unit_ a) k p = k a p.
Proof. reflexivity. Qed.

Ltac run H :=
  repeat (first [rewrite then_assoc in H | rewrite then_sys in H
                |rewrite then_unit in H];
          cbn [outside trace] in H).

(** The calls of a [HttpGetter.Get] that returns nil. *)
Lemma HttpGetter_Get_succeeded wd src dst p p' :
  HttpGetter_Get pf wd src dst p = (Returns None, p') ->
  exists u,
    url.Parse src = inl u
    /\ trace p'
       = (trace p ++ [Head src; MkdirAll dst; HttpGet src;
                      Create (filepath.Join [dst; path.Base (url.Path u)]);
                      ReadFrom; CloseFile; CloseBody])%list.
Proof.
  unfold HttpGetter_Get. intros H.
  destruct (url.Parse src) as [u|e]; [|discriminate H].
  exists u. split; [reflexivity|]. cbv zeta in H.
  unfold HttpFileExists, closeFile, closeBody in H. run H.
  destruct (http_Head pf src (outside p)) as [[e|] w1]; [discriminate H|].
  run H.
  destruct (os_MkdirAll pf dst w1) as [[e|] w2]; [discriminate H|].
  run H.
  destruct (http_Get pf src w2) as [[[body|] [e|]] w3]; try discriminate H.
  - run H. destruct (Body_Close pf body _) as [x w4]. discriminate H.
  - run H. destruct (os_Create pf _ w3) as [[localFile|e] w4]; run H.
    + destruct (File_ReadFrom pf localFile body w4) as [err w5]. run H.
      destruct (File_Close pf localFile w5) as [x w6]. run H.
      destruct (Body_Close pf body w6) as [y w7].
      unfold unit_ in H. inversion H; subst; clear H. cbn [trace].
      repeat rewrite <- app_assoc. reflexivity.
    + destruct (Body_Close pf body w4) as [y w5]. discriminate H.
Qed.

(** What [S3FileExists] has called when it returns. *)
Lemma S3FileExists_returned path p region err p' :
  S3FileExists pf path p = (Returns (region, err), p') ->
  (exists e, err = Some e /\ region = "")
  \/ exists bucket key,
      ParseS3Url path = (bucket, key, None)
      /\ trace p' = (trace p ++ [NewSession None; GetBucketLocation bucket;
                                 HeadObject bucket key])%list.
Proof.
  unfold S3FileExists. destruct (ParseS3Url path) as [[bucket key] [e|]] eqn:HP.
  - unfold unit_. intros H; inversion H; subst. left. exists e. auto.
  - unfold mustNewSession. intros H. run H.
    destruct (session_NewSession pf None (outside p)) as [[sess|e] w1]; run H;
      [|discriminate H].
    destruct (s3_GetBucketLocation pf sess bucket w1) as [[resp [e|]] w2].
    + unfold unit_ in H. inversion H; subst. left. eexists. split; reflexivity.
    + run H. destruct (s3_HeadObject pf sess bucket key w2) as [herr w3].
      destruct resp as [[r|]|]; try discriminate H.
      unfold unit_ in H. inversion H; subst. right. exists bucket, key.
      split; [reflexivity|]. cbn [trace]. repeat rewrite <- app_assoc. reflexivity.
Qed.

(** The calls of a [S3Getter.Get] that returns nil. *)
Lemma S3Getter_Get_succeeded wd src dst p p' :
  S3Getter_Get pf wd src dst p = (Returns None, p') ->
  exists u bucket key region,
    url.Parse src = inl u
    /\ ParseS3Url src = (bucket, key, None)
    /\ trace p'
       = (trace p ++ [NewSession None; GetBucketLocation bucket;
                      HeadObject bucket key; MkdirAll dst;
                      NewSession (Some region); GetObject bucket key;
                      Create (filepath.Join [dst; path.Base (url.Path u)]);
                      ReadFrom; CloseFile; CloseBody])%list.
Proof.
  unfold S3Getter_Get. intros H.
  destruct (url.Parse src) as [u|e] eqn:HU; [|discriminate H].
  exists u. cbv zeta in H. unfold then_ at 1 in H.
  destruct (S3FileExists pf src p) as [[[region [e|]]|msg] p1] eqn:HE;
    try discriminate H.
  destruct (S3FileExists_returned src p region None p1 HE)
    as [(e & He & _)|(bucket & key & HP & Ht)]; [discriminate He|].
  rewrite HP in H. exists bucket, key, region.
  split; [reflexivity|]. split; [exact HP|].
  unfold mustNewSession, closeS3Body, closeFile, closeBody in H. run H.
  destruct (os_MkdirAll pf dst (outside p1)) as [[e|] w2]; [discriminate H|].
  run H.
  destruct (session_NewSession pf (Some region) w2) as [[sess|e] w3]; run H;
    [|discriminate H].
  destruct (s3_GetObject pf sess bucket key w3) as [[[body|] [e|]] w4];
    try discriminate H.
  - destruct body as [body|]; [|discriminate H]. run H.
    destruct (Body_Close pf body w4) as [x w5]. discriminate H.
  - run H. destruct (os_Create pf _ w4) as [[localFile|e] w5].
    + destruct body as [body|]; run H.
      * destruct (File_ReadFrom pf localFile body w5) as [err w6]. run H.
        destruct (File_Close pf localFile w6) as [x w7]. run H.
        destruct (Body_Close pf body w7) as [y w8].
        unfold unit_ in H. inversion H; subst; clear H. cbn [trace].
        rewrite Ht. repeat rewrite <- app_assoc. reflexivity.
      * destruct (File_Close pf localFile w5) as [x w6]. discriminate H.
    + destruct body as [body|]; [|discriminate H]. run H.
      destruct (Body_Close pf body w5) as [y w6]. discriminate H.
Qed.

(** X18: a [HttpGetter.Get] that returns nil has made these calls, in this
    order and no others: the [HEAD] request, [os.MkdirAll] on the
    destination, the [GET] request, [os.Create] on the last element of the
    URL path joined to the destination, the copy, and the two closes, of
    the file first. *)
Theorem HttpGetter_Get_calls_of_a_success wd src dst p p' :
  HttpGetter_Get pf wd src dst p = (Returns None, p') ->
  exists u,
    url.Parse src = inl u
    /\ trace p'
       = (trace p ++ [Head src; MkdirAll dst; HttpGet src;
                      Create (filepath.Join [dst; path.Base (url.Path u)]);
                      ReadFrom; CloseFile; CloseBody])%list.
Proof.
  unfold HttpGetter_Get. intros H.
  destruct (url.Parse src) as [u|e]; [|discriminate H].
  exists u. split; [reflexivity|]. cbv zeta in H.
  unfold HttpFileExists, closeFile, closeBody in H. run H.
  destruct (http_Head pf src (outside p)) as [[e|] w1]; [discriminate H|].
  run H.
  destruct (os_MkdirAll pf dst w1) as [[e|] w2]; [discriminate H|].
  run H.
  destruct (http_Get pf src w2) as [[[body|] [e|]] w3]; try discriminate H.
  - run H. destruct (Body_Close pf body _) as [x w4]. discriminate H.
  - run H. destruct (os_Create pf _ w3) as [[localFile|e] w4]; run H.
    + destruct (File_ReadFrom pf localFile body w4) as [err w5]. run H.
      destruct (File_Close pf localFile w5) as [x w6]. run H.
      destruct (Body_Close pf body w6) as [y w7].
      unfold unit_ in H. inversion H; subst; clear H. cbn [trace].
      repeat rewrite <- app_assoc. reflexivity.
    + destruct (Body_Close pf body w4) as [y w5]. discriminate H.
Qed.

(** X19: a [S3Getter.Get] that returns nil has made these calls, in this
    order and no others: a session without region, the bucket location and
    the [HEAD] of the object (in [S3FileExists]), [os.MkdirAll] on the
    destination, a second session, in the region found, [GetObject],
    [os.Create], the copy and the two closes.  Bucket and key are the ones
    [ParseS3Url] reads from the source. *)
Theorem S3Getter_Get_calls_of_a_success wd src dst p p' :
  S3Getter_Get pf wd src dst p = (Returns None, p') ->
  exists u bucket key region,
    url.Parse src = inl u
    /\ ParseS3Url src = (bucket, key, None)
    /\ trace p'
       = (trace p ++ [NewSession None; GetBucketLocation bucket;
                      HeadObject bucket key; MkdirAll dst;
                      NewSession (Some region); GetObject bucket key;
                      Create (filepath.Join [dst; path.Base (url.Path u)]);
                      ReadFrom; CloseFile; CloseBody])%list.
Proof.
  unfold S3Getter_Get. intros H.
  destruct (url.Parse src) as [u|e] eqn:HU; [|discriminate H].
  exists u. cbv zeta in H. unfold then_ at 1 in H.
  destruct (S3FileExists pf src p) as [[[region [e|]]|msg] p1] eqn:HE;
    try discriminate H.
  destruct (S3FileExists_returned src p region None p1 HE)
    as [(e & He & _)|(bucket & key & HP & Ht)]; [discriminate He|].
  rewrite HP in H. exists bucket, key, region.
  split; [reflexivity|]. split; [exact HP|].
  unfold mustNewSession, closeS3Body, closeFile, closeBody in H. run H.
  destruct (os_MkdirAll pf dst (outside p1)) as [[e|] w2]; [discriminate H|].
  run H.
  destruct (session_NewSession pf (Some region) w2) as [[sess|e] w3]; run H;
    [|discriminate H].
  destruct (s3_GetObject pf sess bucket key w3) as [[[body|] [e|]] w4];
    try discriminate H.
  - destruct body as [body|]; [|discriminate H]. run H.
    destruct (Body_Close pf body w4) as [x w5]. discriminate H.
  - run H. destruct (os_Create pf _ w4) as [[localFile|e] w5].
    + destruct body as [body|]; run H.
      * destruct (File_ReadFrom pf localFile body w5) as [err w6]. run H.
        destruct (File_Close pf localFile w6) as [x w7]. run H.
        destruct (Body_Close pf body w7) as [y w8].
        unfold unit_ in H. inversion H; subst; clear H. cbn [trace].
        rewrite Ht. repeat rewrite <- app_assoc. reflexivity.
      * destruct (File_Close pf localFile w5) as [x w6]. discriminate H.
    + destruct body as [body|]; [|discriminate H]. run H.
      destruct (Body_Close pf body w5) as [y w6]. discriminate H.
Qed.

(** X20: the strategy [Fetch] picks for a reference in the direct syntax,
    when it returns nil, has made the destination directory and created in
    it the file of the descriptor: called on the cache directory, it has
    created the very file whose path [Fetch] returns. *)
Theorem direct_strategy_creates_the_file_of_the_descriptor
    path u wd dst p p' :
  List.length (strings.Split path "::") <> 2 ->
  List.length (strings.Split path "://") = 2 ->
  Parse path = Returns (Some u, None) ->
  (if String.eqb (Scheme u) "s3" then S3Getter_Get pf wd path dst p
   else HttpGetter_Get pf wd path dst p) = (Returns None, p') ->
  exists made,
    trace p' = (trace p ++ made)%list
    /\ In (MkdirAll dst) made
    /\ In (Create (filepath.Join [dst; File u])) made
    /\ made <> [].
Proof.
  intros Hforced Hdirect HP HG.
  unfold Parse in HP. apply Nat.eqb_neq in Hforced.
  rewrite Hforced, Hdirect in HP. cbn [Nat.eqb] in HP.
  destruct (ParseNormal_URL path u HP) as (w & Hw & _ & _ & Hf).
  destruct (String.eqb (Scheme u) "s3").
  - destruct (S3Getter_Get_succeeded wd path dst p p' HG)
      as (w' & bucket & key & region & Hw' & _ & Ht).
    rewrite Hw in Hw'. inversion Hw'; subst w'. eexists. split; [exact Ht|].
    unfold path.Base. rewrite <- Hf. cbn [In].
    split; [auto 10|]. split; [auto 10|discriminate].
  - destruct (HttpGetter_Get_succeeded wd path dst p p' HG) as (w' & Hw' & Ht).
    rewrite Hw in Hw'. inversion Hw'; subst w'. eexists. split; [exact Ht|].
    unfold path.Base. rewrite <- Hf. cbn [In].
    split; [auto 10|]. split; [auto 10|discriminate].
Qed.

(** X21: [HttpGetter.Get] reads [resp.Body] before it looks at the error of
    [http.Get].  When the request fails and there is no response, the call
    panics instead of returning the error; the destination directory has
    been made by then and is left behind. *)
Theorem HttpGetter_Get_panics_without_response
    wd src dst p u w1 w2 err w3 :
  url.Parse src = inl u ->
  http_Head pf src (outside p) = (None, w1) ->
  os_MkdirAll pf dst w1 = (None, w2) ->
  http_Get pf src w2 = (None, err, w3) ->
  HttpGetter_Get pf wd src dst p
  = (Panics nilDereference,
     {| outside := w3;
        trace := (trace p ++ [Head src; MkdirAll dst; HttpGet src])%list |}).
Proof.
  intros HU HH HM HG. unfold HttpGetter_Get. rewrite HU. cbv zeta.
  unfold HttpFileExists. rewrite then_sys, HH. rewrite then_sys.
  cbn [outside trace]. rewrite HM. rewrite then_sys. cbn [outside trace].
  rewrite HG. unfold unit_. repeat rewrite <- app_assoc. reflexivity.
Qed.

(** X22: [S3FileExists] reads the region through the pointers [resp] and
    [resp.LocationConstraint] without a test for nil.  For a bucket whose
    location comes back without a constraint the call panics, after the
    [HEAD] of the object and whether or not the object exists. *)
Theorem S3FileExists_panics_without_location_constraint
    path p bucket key sess w1 resp w2 herr w3 :
  ParseS3Url path = (bucket, key, None) ->
  session_NewSession pf None (outside p) = (inl sess, w1) ->
  s3_GetBucketLocation pf sess bucket w1 = (resp, None, w2) ->
  resp = None \/ resp = Some None ->
  s3_HeadObject pf sess bucket key w2 = (herr, w3) ->
  S3FileExists pf path p
  = (Panics nilDereference,
     {| outside := w3;
        trace := (trace p ++ [NewSession None; GetBucketLocation bucket;
                              HeadObject bucket key])%list |}).
Proof.
  intros HP HS HL Hnil HH. unfold S3FileExists. rewrite HP.
  unfold mustNewSession. rewrite then_assoc, then_sys, HS.
  rewrite then_unit, then_sys. cbn [outside trace]. rewrite HL.
  rewrite then_sys. cbn [outside trace]. rewrite HH.
  unfold unit_. repeat rewrite <- app_assoc.
  destruct Hnil as [E|E]; subst resp; reflexivity.
Qed.

(** X23: when [GetObject] fails, [S3Getter.Get] does not return its error:
    with no response it panics where [resp.Body] is read, and with a
    response that has no body it panics in the deferred close.  The
    destination directory has been made by then and is left behind. *)
Theorem S3Getter_Get_panics_when_GetObject_fails
    wd src dst p u region p1 bucket key w2 sess w3 resp e w4 :
  url.Parse src = inl u ->
  S3FileExists pf src p = (Returns (region, None), p1) ->
  ParseS3Url src = (bucket, key, None) ->
  os_MkdirAll pf dst (outside p1) = (None, w2) ->
  session_NewSession pf (Some region) w2 = (inl sess, w3) ->
  s3_GetObject pf sess bucket key w3 = (resp, Some e, w4) ->
  resp = None \/ resp = Some None ->
  S3Getter_Get pf wd src dst p
  = (Panics nilDereference,
     {| outside := w4;
        trace := (trace p1 ++ [MkdirAll dst; NewSession (Some region);
                               GetObject bucket key])%list |}).
Proof.
  intros HU HE HP HM HS HG Hnil. unfold S3Getter_Get. rewrite HU. cbv zeta.
  unfold then_ at 1. rewrite HE, HP. rewrite then_sys, HM.
  unfold mustNewSession. rewrite then_assoc, then_sys. cbn [outside trace].
  rewrite HS. rewrite then_unit, then_sys. cbn [outside trace]. rewrite HG.
  unfold closeS3Body, unit_. repeat rewrite <- app_assoc.
  destruct Hnil as [E|E]; subst resp; reflexivity.
Qed.

(** X17: with the getter [normal] forced on an [s3] URL, [Fetch] picks the
    object-storage strategy and hands it the reference with its
    [normal::] in front.  [S3Getter.Get] reads the scheme [normal] from
    it and fails before it calls anything: such a reference is never
    retrieved. *)
Theorem S3Getter_Get_rejects_forced_reference path u wd dst p :
  List.length (strings.Split path "::") = 2 ->
  Parse path = Returns (Some u, None) ->
  strategyOf u = viaS3Getter ->
  retrievalSrc path u = path
  /\ exists e, S3Getter_Get pf wd path dst p = (Returns (Some e), p).
Proof.
  intros Hforced HP Hs3.
  destruct (ParseS3Url_forced path u Hforced HP Hs3) as [Hsrc [e He]].
  split; [exact Hsrc|].
  unfold S3Getter_Get.
  destruct (url.Parse path) as [w|msg] eqn:Hw; [|eexists; reflexivity].
  cbv zeta. unfold then_ at 1, S3FileExists. rewrite He. unfold unit_.
  exists e. reflexivity.
Qed.

End StrategyFacts.

(** ** The further properties on concrete inputs *)

(** The object of the bucket, in the direct syntax. *)
Lemma Parse_direct_syntax_witness :
  (List.length (strings.Split object "::") <> 2
   /\ List.length (strings.Split object "://") = 2
   /\ Parse object = Returns (Some objectSource, None))
  /\ Getter objectSource = "normal"
  /\ (Scheme objectSource = "s3" \/ Scheme objectSource = "http"
      \/ Scheme objectSource = "https")
  /\ strategyOf objectSource
     = (if String.eqb (Scheme objectSource) "s3" then viaS3Getter
        else viaHttpGetter)
  /\ retrievalSrc object objectSource = object.
Proof.
  assert (H1 : List.length (strings.Split object "::") <> 2)
    by (vm_compute; discriminate).
  assert (H2 : List.length (strings.Split object "://") = 2)
    by (vm_compute; reflexivity).
  assert (HP : Parse object = Returns (Some objectSource, None))
    by (vm_compute; reflexivity).
  split; [exact (conj H1 (conj H2 HP))|].
  exact (Parse_direct_syntax object objectSource H1 H2 HP).
Defined.

(** The chart, with its forced getter. *)
Lemma Parse_descriptor_witness :
  Parse chart = Returns (Some chartSource, None)
  /\ Scheme chartSource <> ""
  /\ Getter chartSource
     = (if Nat.eqb (List.length (strings.Split chart "::")) 2
        then nth 0 (strings.Split chart "::") ""
        else if Nat.eqb (List.length (strings.Split chart "://")) 2
             then "normal" else "")
  /\ IsRemote chart = Returns true.
Proof.
  assert (HP : Parse chart = Returns (Some chartSource, None))
    by (vm_compute; reflexivity).
  split; [exact HP|].
  exact (Parse_descriptor chart chartSource HP).
Defined.

(** An unsupported scheme in the direct syntax. *)
Lemma Parse_errors_witness :
  Parse "ftp://host/chart.tgz"
  = Returns (None, Some (UnsupportedSchemeError "ftp://host/chart.tgz"))
  /\ @None Source = None
  /\ IsRemote "ftp://host/chart.tgz" = Returns false
  /\ ((exists msg,
          UnsupportedSchemeError "ftp://host/chart.tgz" = InvalidURLError msg)
      \/ (UnsupportedSchemeError "ftp://host/chart.tgz"
          = UnsupportedSchemeError "ftp://host/chart.tgz"
          /\ List.length (strings.Split "ftp://host/chart.tgz" "::") <> 2
          /\ List.length (strings.Split "ftp://host/chart.tgz" "://") = 2)).
Proof.
  assert (HP : Parse "ftp://host/chart.tgz"
               = Returns (None, Some (UnsupportedSchemeError
                                        "ftp://host/chart.tgz")))
    by (vm_compute; reflexivity).
  split; [exact HP|].
  exact (Parse_errors "ftp://host/chart.tgz" None _ HP).
Defined.

(** The relative path. *)
Lemma IsRemote_no_colon_witness :
  strings.Contains localPath ":" = false
  /\ IsRemote localPath = Returns false.
Proof.
  assert (H : strings.Contains localPath ":" = false)
    by (vm_compute; reflexivity).
  split; [exact H|]. exact (IsRemote_no_colon localPath H).
Defined.

Lemma IsRemote_false_Fetch_fails_witness :
  IsRemote "ftp://host/chart.tgz" = Returns false
  /\ exists e,
      Parse "ftp://host/chart.tgz" = Returns (None, Some e)
      /\ Fetch sample.removeAll sample.r "ftp://host/chart.tgz" [] fresh
         = (Returns ("", Some e), fresh).
Proof.
  assert (H : IsRemote "ftp://host/chart.tgz" = Returns false)
    by (vm_compute; reflexivity).
  split; [exact H|].
  exact (IsRemote_false_Fetch_fails sample.removeAll sample.r
           "ftp://host/chart.tgz" [] fresh H).
Defined.

(** The chart fetched into an empty cache. *)
Lemma Fetch_path_or_error_witness :
  Fetch sample.removeAll sample.r chart [] fresh
  = (Returns (chartFile, None), fetched)
  /\ chartFile <> ""
  /\ exists u,
      Parse chart = Returns (Some u, None)
      /\ chartFile
         = filepath.Join [cacheDirPath sample.r (cacheBaseDirOf []) u; File u].
Proof.
  assert (H : Fetch sample.removeAll sample.r chart [] fresh
              = (Returns (chartFile, None), fetched))
    by (vm_compute; reflexivity).
  split; [exact H|].
  exact (Fetch_path_or_error sample.removeAll sample.r chart [] fresh
           chartFile None fetched H).
Defined.

(** The chart out of reach: one call of the generic strategy, one
    removal. *)
Lemma Fetch_calls_at_most_once_witness :
  Fetch sample.removeAll sample.r chart [] offline
  = (Returns ("", Some (notFound chartSrc)),
     {| world := world offline;
        calls := [GetCalled viaGetter "/cache" chartSrc chartDir;
                  RemoveAllCalled chartDir] |})
  /\ ({| world := world offline;
         calls := [GetCalled viaGetter "/cache" chartSrc chartDir;
                   RemoveAllCalled chartDir] |} = offline
      \/ exists u,
          let base := cacheBaseDirOf [] in
          let dst := cacheDirPath sample.r base u in
          let get := GetCalled (strategyOf u) (Home sample.r)
                       (retrievalSrc chart u) dst in
          Parse chart = Returns (Some u, None)
          /\ isCached sample.r base u (world offline) = false
          /\ ([GetCalled viaGetter "/cache" chartSrc chartDir;
               RemoveAllCalled chartDir]
              = (calls offline ++ [get])%list
              \/ (strategyOf u = viaGetter
                  /\ (exists e,
                         Returns ("", Some (notFound chartSrc))
                         = Returns ("", Some e))
                  /\ [GetCalled viaGetter "/cache" chartSrc chartDir;
                      RemoveAllCalled chartDir]
                     = (calls offline ++ [get; RemoveAllCalled dst])%list))).
Proof.
  assert (H : Fetch sample.removeAll sample.r chart [] offline
              = (Returns ("", Some (notFound chartSrc)),
                 {| world := world offline;
                    calls := [GetCalled viaGetter "/cache" chartSrc chartDir;
                              RemoveAllCalled chartDir] |}))
    by (vm_compute; reflexivity).
  split; [exact H|].
  exact (Fetch_calls_at_most_once sample.removeAll sample.r chart [] offline
           _ _ H).
Defined.

(** The object is fetched, then another object of the same directory is
    asked for: nothing is retrieved for it. *)
Lemma Fetch_other_file_of_cached_directory_witness :
  (getters_create_destination sample.r
   /\ directories_are_not_files sample.r
   /\ Parse object = Returns (Some objectSource, None)
   /\ Parse sibling = Returns (Some siblingSource, None)
   /\ isCached sample.r (cacheBaseDirOf []) objectSource (world online) = false
   /\ Fetch sample.removeAll sample.r object [] online
      = (Returns ("/cache/s3_bucket_charts/values.yaml", None), fetchedObject))
  /\ Fetch sample.removeAll sample.r sibling [] fetchedObject
     = (Returns (filepath.Join
                   [cacheDirPath sample.r (cacheBaseDirOf []) objectSource;
                    File siblingSource], None), fetchedObject)
  /\ filepath.Join [cacheDirPath sample.r (cacheBaseDirOf []) objectSource;
                    File siblingSource]
     = "/cache/s3_bucket_charts/other.yaml".
Proof.
  assert (HP1 : Parse object = Returns (Some objectSource, None))
    by (vm_compute; reflexivity).
  assert (HP2 : Parse sibling = Returns (Some siblingSource, None))
    by (vm_compute; reflexivity).
  assert (Hmiss : isCached sample.r (cacheBaseDirOf []) objectSource
                    (world online) = false) by (vm_compute; reflexivity).
  assert (HF : Fetch sample.removeAll sample.r object [] online
               = (Returns ("/cache/s3_bucket_charts/values.yaml", None),
                  fetchedObject)) by (vm_compute; reflexivity).
  split.
  - exact (conj sample_getters_create_destination
             (conj sample_directories_are_not_files
                (conj HP1 (conj HP2 (conj Hmiss HF))))).
  - split; [|vm_compute; reflexivity].
    exact (Fetch_other_file_of_cached_directory sample.removeAll sample.r
             object sibling [] online _ fetchedObject objectSource siblingSource
             sample_getters_create_destination sample_directories_are_not_files
             HP1 HP2 eq_refl eq_refl eq_refl eq_refl Hmiss HF).
Defined.

Lemma rPartial_directories_are_not_files :
  directories_are_not_files sample.rPartial.
Proof.
  intros path w. cbn [fs sample.rPartial DirectoryExistsAt FileExistsAt sample.osFS].
  destruct (sample.stat w path) as [[|]|]; intros H; try reflexivity;
    discriminate H.
Qed.

(** The object out of reach, fetched twice with strategies that make the
    destination before they fail. *)
Lemma Fetch_after_failed_direct_retrieval_witness :
  (directories_are_not_files sample.rPartial
   /\ Parse object = Returns (Some objectSource, None)
   /\ conflict sample.rPartial (cacheBaseDirOf []) objectSource (world offline)
      = false
   /\ isCached sample.rPartial (cacheBaseDirOf []) objectSource (world offline)
      = false
   /\ strategyOf objectSource <> viaGetter
   /\ Get (getter sample.rPartial (strategyOf objectSource))
        (Home sample.rPartial) object
        (cacheDirPath sample.rPartial (cacheBaseDirOf []) objectSource)
        (world offline)
      = (Some (notFound object), world halfMade)
   /\ DirectoryExistsAt (fs sample.rPartial)
        (cacheDirPath sample.rPartial (cacheBaseDirOf []) objectSource)
        (world halfMade) = true)
  /\ Fetch sample.removeAll sample.rPartial object [] offline
     = (Returns ("", Some (multiError [notFound object; notFound object])),
        halfMade)
  /\ Fetch sample.removeAll sample.rPartial object [] halfMade
     = (Returns ("/cache/s3_bucket_charts/values.yaml", None), halfMade).
Proof.
  assert (HP : Parse object = Returns (Some objectSource, None))
    by (vm_compute; reflexivity).
  assert (Hlen : List.length (@nil string) <= 1) by (simpl; lia).
  assert (Hconf : conflict sample.rPartial (cacheBaseDirOf []) objectSource
                    (world offline) = false) by (vm_compute; reflexivity).
  assert (Hmiss : isCached sample.rPartial (cacheBaseDirOf []) objectSource
                    (world offline) = false) by (vm_compute; reflexivity).
  assert (Hdirect : strategyOf objectSource <> viaGetter)
    by (vm_compute; discriminate).
  assert (HGet : Get (getter sample.rPartial (strategyOf objectSource))
                   (Home sample.rPartial) object
                   (cacheDirPath sample.rPartial (cacheBaseDirOf []) objectSource)
                   (world offline)
                 = (Some (notFound object), world halfMade))
    by (vm_compute; reflexivity).
  assert (Hdir : DirectoryExistsAt (fs sample.rPartial)
                   (cacheDirPath sample.rPartial (cacheBaseDirOf []) objectSource)
                   (world halfMade) = true) by (vm_compute; reflexivity).
  split.
  - exact (conj rPartial_directories_are_not_files
             (conj HP (conj Hconf (conj Hmiss (conj Hdirect (conj HGet Hdir)))))).
  - exact (Fetch_after_failed_direct_retrieval sample.removeAll sample.rPartial
             object [] offline objectSource (notFound object) (world halfMade)
             rPartial_directories_are_not_files HP Hlen Hconf Hmiss Hdirect
             HGet Hdir).
Defined.

(** The chart out of reach, located. *)
Lemma Locate_error_is_the_error_of_Fetch_witness :
  Locate sample.removeAll sample.r chart [] offline
  = (Returns ("", Some (notFound chartSrc)),
     {| world := world offline;
        calls := [GetCalled viaGetter "/cache" chartSrc chartDir;
                  RemoveAllCalled chartDir] |})
  /\ "" = ""
  /\ (forall msg, notFound chartSrc <> InvalidURLError msg)
  /\ Fetch sample.removeAll sample.r chart [] offline
     = (Returns ("", Some (notFound chartSrc)),
        {| world := world offline;
           calls := [GetCalled viaGetter "/cache" chartSrc chartDir;
                     RemoveAllCalled chartDir] |}).
Proof.
  assert (H : Locate sample.removeAll sample.r chart [] offline
              = (Returns ("", Some (notFound chartSrc)),
                 {| world := world offline;
                    calls := [GetCalled viaGetter "/cache" chartSrc chartDir;
                              RemoveAllCalled chartDir] |}))
    by (vm_compute; reflexivity).
  split; [exact H|].
  exact (Locate_error_is_the_error_of_Fetch sample.removeAll sample.r chart []
           offline _ _ _ H).
Defined.

(** The same with go-getter as the generic strategy. *)
Lemma Locate_reports_every_retrieval_error_witness :
  (Getter_ sample.rGo = GoGetter sample.client
   /\ FileExistsAt (fs sample.rGo) chart (world offline) = false
   /\ DirectoryExistsAt (fs sample.rGo) chart (world offline) = false
   /\ Parse chart = Returns (Some chartSource, None)
   /\ Fetch sample.removeAll sample.rGo chart [] offline
      = (Returns ("", Some (clientError chartSrc)),
         {| world := world offline;
            calls := [GetCalled viaGetter "/cache" chartSrc chartDir;
                      RemoveAllCalled chartDir] |}))
  /\ (forall msg, clientError chartSrc <> InvalidURLError msg)
  /\ Locate sample.removeAll sample.rGo chart [] offline
     = (Returns ("", Some (clientError chartSrc)),
        {| world := world offline;
           calls := [GetCalled viaGetter "/cache" chartSrc chartDir;
                     RemoveAllCalled chartDir] |}).
Proof.
  assert (HP : Parse chart = Returns (Some chartSource, None))
    by (vm_compute; reflexivity).
  assert (HF : Fetch sample.removeAll sample.rGo chart [] offline
               = (Returns ("", Some (clientError chartSrc)),
                  {| world := world offline;
                     calls := [GetCalled viaGetter "/cache" chartSrc chartDir;
                               RemoveAllCalled chartDir] |}))
    by (vm_compute; reflexivity).
  split; [exact (conj eq_refl (conj eq_refl (conj eq_refl (conj HP HF))))|].
  exact (Locate_reports_every_retrieval_error sample.removeAll sample.rGo
           sample.client chart [] offline chartSource "" _ _
           eq_refl eq_refl eq_refl HP HF).
Defined.

(** The object, as the object-storage strategy reads it. *)
Lemma ParseS3Url_of_direct_reference_witness :
  (List.length (strings.Split object "::") <> 2
   /\ List.length (strings.Split object "://") = 2
   /\ Parse object = Returns (Some objectSource, None))
  /\ ParseS3Url object = ("bucket", "charts/values.yaml", None)
  /\ exists w,
      url.Parse object = inl w
      /\ File objectSource = path.Base (url.Path w)
      /\ ParseS3Url object
         = (if String.eqb (Scheme objectSource) "s3"
            then (Host objectSource, strings.TrimPrefix (url.Path w) "/", None)
            else ("", "", Some (errorString
                                  "invalid URL scheme (expected 's3')"))).
Proof.
  assert (H1 : List.length (strings.Split object "::") <> 2)
    by (vm_compute; discriminate).
  assert (H2 : List.length (strings.Split object "://") = 2)
    by (vm_compute; reflexivity).
  assert (HP : Parse object = Returns (Some objectSource, None))
    by (vm_compute; reflexivity).
  split; [exact (conj H1 (conj H2 HP))|].
  split; [vm_compute; reflexivity|].
  exact (ParseS3Url_of_direct_reference object objectSource H1 H2 HP).
Defined.

(** The page, downloaded. *)
Lemma HttpGetter_Get_calls_of_a_success_witness :
  HttpGetter_Get (sample.platform false) "/cache" page pageDir
    (sample.boot [page]) = (Returns None, pageDownloaded)
  /\ exists u,
      url.Parse page = inl u
      /\ trace pageDownloaded
         = (trace (sample.boot [page])
            ++ [Head page; MkdirAll pageDir; HttpGet page;
                Create (filepath.Join [pageDir; path.Base (url.Path u)]);
                ReadFrom; CloseFile; CloseBody])%list.
Proof.
  assert (H : HttpGetter_Get (sample.platform false) "/cache" page pageDir
                (sample.boot [page]) = (Returns None, pageDownloaded))
    by (vm_compute; reflexivity).
  split; [exact H|].
  exact (HttpGetter_Get_calls_of_a_success (sample.platform false) "/cache"
           page pageDir (sample.boot [page]) pageDownloaded H).
Defined.

(** The object, downloaded. *)
Lemma S3Getter_Get_calls_of_a_success_witness :
  S3Getter_Get (sample.platform false) "/cache" object objectDir
    (sample.boot [object]) = (Returns None, objectDownloaded)
  /\ exists u bucket key region,
      url.Parse object = inl u
      /\ ParseS3Url object = (bucket, key, None)
      /\ trace objectDownloaded
         = (trace (sample.boot [object])
            ++ [NewSession None; GetBucketLocation bucket;
                HeadObject bucket key; MkdirAll objectDir;
                NewSession (Some region); GetObject bucket key;
                Create (filepath.Join [objectDir; path.Base (url.Path u)]);
                ReadFrom; CloseFile; CloseBody])%list.
Proof.
  assert (H : S3Getter_Get (sample.platform false) "/cache" object objectDir
                (sample.boot [object]) = (Returns None, objectDownloaded))
    by (vm_compute; reflexivity).
  split; [exact H|].
  exact (S3Getter_Get_calls_of_a_success (sample.platform false) "/cache"
           object objectDir (sample.boot [object]) objectDownloaded H).
Defined.

(** The page again: the file made is the one [Fetch] returns the path
    of. *)
Lemma direct_strategy_creates_the_file_of_the_descriptor_witness :
  (List.length (strings.Split page "::") <> 2
   /\ List.length (strings.Split page "://") = 2
   /\ Parse page = Returns (Some pageSource, None)
   /\ (if String.eqb (Scheme pageSource) "s3"
       then S3Getter_Get (sample.platform false) "/cache" page pageDir
              (sample.boot [page])
       else HttpGetter_Get (sample.platform false) "/cache" page pageDir
              (sample.boot [page]))
      = (Returns None, pageDownloaded))
  /\ filepath.Join [pageDir; File pageSource] = pageFile
  /\ exists made,
      trace pageDownloaded = (trace (sample.boot [page]) ++ made)%list
      /\ In (MkdirAll pageDir) made
      /\ In (Create (filepath.Join [pageDir; File pageSource])) made
      /\ made <> [].
Proof.
  assert (H1 : List.length (strings.Split page "::") <> 2)
    by (vm_compute; discriminate).
  assert (H2 : List.length (strings.Split page "://") = 2)
    by (vm_compute; reflexivity).
  assert (HP : Parse page = Returns (Some pageSource, None))
    by (vm_compute; reflexivity).
  assert (HG : (if String.eqb (Scheme pageSource) "s3"
                then S3Getter_Get (sample.platform false) "/cache" page pageDir
                       (sample.boot [page])
                else HttpGetter_Get (sample.platform false) "/cache" page
                       pageDir (sample.boot [page]))
               = (Returns None, pageDownloaded))
    by (vm_compute; reflexivity).
  split; [exact (conj H1 (conj H2 (conj HP HG)))|].
  split; [vm_compute; reflexivity|].
  exact (direct_strategy_creates_the_file_of_the_descriptor
           (sample.platform false) page pageSource "/cache" pageDir
           (sample.boot [page]) pageDownloaded H1 H2 HP HG).
Defined.

(** The page answers [HEAD] and the download fails. *)
Lemma HttpGetter_Get_panics_without_response_witness :
  (http_Head (sample.platform true) page (outside (sample.boot [page]))
   = (None, outside (sample.boot [page]))
   /\ os_MkdirAll (sample.platform true) pageDir (outside (sample.boot [page]))
      = (None, sample.mkdirAll pageDir (outside (sample.boot [page])))
   /\ http_Get (sample.platform true) page
        (sample.mkdirAll pageDir (outside (sample.boot [page])))
      = (None, Some (sample.refused "Get" page),
         sample.mkdirAll pageDir (outside (sample.boot [page]))))
  /\ HttpGetter_Get (sample.platform true) "/cache" page pageDir
       (sample.boot [page])
     = (Panics nilDereference,
        {| outside := sample.mkdirAll pageDir (outside (sample.boot [page]));
           trace := [Head page; MkdirAll pageDir; HttpGet page] |}).
Proof.
  split; [repeat split; vm_compute; reflexivity|].
  assert (HU : exists u, url.Parse page = inl u)
    by (vm_compute; eexists; reflexivity).
  destruct HU as [u HU].
  exact (HttpGetter_Get_panics_without_response (sample.platform true) "/cache"
           page pageDir (sample.boot [page]) u _ _ _ _ HU eq_refl eq_refl eq_refl).
Defined.

(** A bucket without a location constraint. *)
Lemma S3FileExists_panics_without_location_constraint_witness :
  (ParseS3Url "s3://classic/a.yaml" = ("classic", "a.yaml", None)
   /\ s3_GetBucketLocation (sample.platform false) tt "classic"
        (outside (sample.boot ["s3://classic/a.yaml"]))
      = (Some None, None, outside (sample.boot ["s3://classic/a.yaml"]))
   /\ s3_HeadObject (sample.platform false) tt "classic" "a.yaml"
        (outside (sample.boot ["s3://classic/a.yaml"]))
      = (None, outside (sample.boot ["s3://classic/a.yaml"])))
  /\ S3FileExists (sample.platform false) "s3://classic/a.yaml"
       (sample.boot ["s3://classic/a.yaml"])
     = (Panics nilDereference,
        {| outside := outside (sample.boot ["s3://classic/a.yaml"]);
           trace := [NewSession None; GetBucketLocation "classic";
                     HeadObject "classic" "a.yaml"] |}).
Proof.
  assert (HP : ParseS3Url "s3://classic/a.yaml" = ("classic", "a.yaml", None))
    by (vm_compute; reflexivity).
  split; [split; [exact HP|split; vm_compute; reflexivity]|].
  exact (S3FileExists_panics_without_location_constraint (sample.platform false)
           "s3://classic/a.yaml" (sample.boot ["s3://classic/a.yaml"])
           "classic" "a.yaml" tt _ (Some None) _ None _
           HP eq_refl eq_refl (or_intror eq_refl) eq_refl).
Defined.

(** The object is there and [GetObject] fails. *)
Lemma S3Getter_Get_panics_when_GetObject_fails_witness :
  (S3FileExists (sample.platform true) object (sample.boot [object])
   = (Returns ("eu-west-1", None),
      {| outside := outside (sample.boot [object]);
         trace := [NewSession None; GetBucketLocation "bucket";
                   HeadObject "bucket" "charts/values.yaml"] |})
   /\ ParseS3Url object = ("bucket", "charts/values.yaml", None)
   /\ s3_GetObject (sample.platform true) tt "bucket" "charts/values.yaml"
        (sample.mkdirAll objectDir (outside (sample.boot [object])))
      = (Some None, Some (sample.refused "GetObject" object),
         sample.mkdirAll objectDir (outside (sample.boot [object]))))
  /\ S3Getter_Get (sample.platform true) "/cache" object objectDir
       (sample.boot [object])
     = (Panics nilDereference,
        {| outside := sample.mkdirAll objectDir (outside (sample.boot [object]));
           trace := [NewSession None; GetBucketLocation "bucket";
                     HeadObject "bucket" "charts/values.yaml";
                     MkdirAll objectDir; NewSession (Some "eu-west-1");
                     GetObject "bucket" "charts/values.yaml"] |}).
Proof.
  assert (HE : S3FileExists (sample.platform true) object (sample.boot [object])
               = (Returns ("eu-west-1", None),
                  {| outside := outside (sample.boot [object]);
                     trace := [NewSession None; GetBucketLocation "bucket";
                               HeadObject "bucket" "charts/values.yaml"] |}))
    by (vm_compute; reflexivity).
  assert (HP : ParseS3Url object = ("bucket", "charts/values.yaml", None))
    by (vm_compute; reflexivity).
  split; [split; [exact HE|split; [exact HP|vm_compute; reflexivity]]|].
  assert (HU : exists u, url.Parse object = inl u)
    by (vm_compute; eexists; reflexivity).
  destruct HU as [u HU].
  exact (S3Getter_Get_panics_when_GetObject_fails (sample.platform true) "/cache"
           object objectDir (sample.boot [object]) u "eu-west-1" _
           "bucket" "charts/values.yaml" _ tt _ (Some None)
           (sample.refused "GetObject" object) _
           HU HE HP eq_refl eq_refl eq_refl (or_intror eq_refl)).
Defined.

(** The object with the getter forced. *)
Lemma S3Getter_Get_rejects_forced_reference_witness :
  (List.length (strings.Split forced "::") = 2
   /\ Parse forced = Returns (Some objectSource, None)
   /\ strategyOf objectSource = viaS3Getter)
  /\ S3Getter_Get (sample.platform false) "/cache" forced objectDir
       (sample.boot [object])
     = (Returns (Some (errorString "invalid URL scheme (expected 's3')")),
        sample.boot [object])
  /\ retrievalSrc forced objectSource = forced
  /\ exists e,
      S3Getter_Get (sample.platform false) "/cache" forced objectDir
        (sample.boot [object])
      = (Returns (Some e), sample.boot [object]).
Proof.
  assert (H1 : List.length (strings.Split forced "::") = 2)
    by (vm_compute; reflexivity).
  assert (HP : Parse forced = Returns (Some objectSource, None))
    by (vm_compute; reflexivity).
  assert (Hs : strategyOf objectSource = viaS3Getter)
    by (vm_compute; reflexivity).
  split; [exact (conj H1 (conj HP Hs))|].
  split; [vm_compute; reflexivity|].
  exact (S3Getter_Get_rejects_forced_reference (sample.platform false)
           forced objectSource "/cache" objectDir (sample.boot [object])
           H1 HP Hs).
Defined.

(** ** When [Parse] panics *)



(** ** The cache home *)

(** X25: [CacheDir] is the cache home of the environment when that is set;
    otherwise the entry [helmfile] of the user cache directory, and
    [.helmfile], relative to the working directory, when there is none.  It
    is never empty. *)
Theorem CacheDir_is_the_cache_home env :
  CacheDir env <> ""
  /\ CacheDir env
     = (if String.eqb (getenvCacheHome env) "" then
          match UserCacheDir env with
          | (_, Some _) => ".helmfile"
          | (dir, None) =>
              if String.eqb dir "" then "helmfile"
              else child (filepath.Clean dir) "helmfile"
          end
        else getenvCacheHome env).
Proof.
  split; [apply CacheDir_nonempty|].
  assert (Hproper : properElement "helmfile")
    by (repeat split; try discriminate; reflexivity).
  unfold CacheDir. cbv zeta.
  destruct (String.eqb (getenvCacheHome env) ""); cbn [negb]; [|reflexivity].
  destruct (UserCacheDir env) as [dir [err|]]; [reflexivity|].
  destruct (String.eqb dir "") eqn:E.
  - apply String.eqb_eq in E. subst dir. reflexivity.
  - apply String.eqb_neq in E. apply Join_child; assumption.
Qed.

(** ** The cache key and the order of the query parameters *)

Section ParameterOrder.

Lemma ascii_compare_lt_trans a b c :
  Ascii.compare a b = Lt -> Ascii.compare b c = Lt -> Ascii.compare a c = Lt.
Proof.
  unfold Ascii.compare. rewrite !N.compare_lt_iff. apply N.lt_trans.
Qed.

Lemma compare_lt_trans a : forall b c,
  String.compare a b = Lt -> String.compare b c = Lt -> String.compare a c = Lt.
Proof.
  induction a as [|x a IH]; intros [|y b] [|z c]; cbn; try discriminate; auto.
  destruct (Ascii.compare x y) eqn:Exy; try discriminate.
  - apply Ascii.compare_eq_iff in Exy. subst y.
    destruct (Ascii.compare x z); try discriminate; auto. apply IH.
  - intros _. destruct (Ascii.compare y z) eqn:Eyz; try discriminate.
    + apply Ascii.compare_eq_iff in Eyz. subst z. rewrite Exy. auto.
    + rewrite (ascii_compare_lt_trans x y z Exy Eyz). auto.
Qed.

Lemma leb_trans a b c :
  String.leb a b = true -> String.leb b c = true -> String.leb a c = true.
Proof.
  unfold String.leb.
  destruct (String.compare a b) eqn:Eab; try discriminate; intros _.
  - apply String.compare_eq_iff in Eab. subst b. auto.
  - destruct (String.compare b c) eqn:Ebc; try discriminate; intros _.
    + apply String.compare_eq_iff in Ebc. subst c. rewrite Eab. reflexivity.
    + rewrite (compare_lt_trans a b c Eab Ebc). reflexivity.
Qed.

Lemma insertSorted_two a b :
  url.insertSorted a [b] = url.insertSorted b [a].
Proof.
  cbn. destruct (String.leb a b) eqn:Eab, (String.leb b a) eqn:Eba; try reflexivity.
  - rewrite (String.leb_antisym a b Eab Eba). reflexivity.
  - destruct (String.leb_total a b) as [E|E]; congruence.
Qed.

Lemma insertSorted_comm a b l :
  url.insertSorted a (url.insertSorted b l)
  = url.insertSorted b (url.insertSorted a l).
Proof.
  induction l as [|c l IH]; [apply insertSorted_two|].
  cbn [url.insertSorted].
  destruct (String.leb b c) eqn:Ebc, (String.leb a c) eqn:Eac;
    cbn [url.insertSorted]; rewrite ?Ebc, ?Eac.
  - destruct (String.leb a b) eqn:Eab, (String.leb b a) eqn:Eba; try reflexivity.
    + rewrite (String.leb_antisym a b Eab Eba). reflexivity.
    + destruct (String.leb_total a b) as [E|E]; congruence.
  - destruct (String.leb a b) eqn:Eab; [|reflexivity].
    rewrite (leb_trans a b c Eab Ebc) in Eac. discriminate Eac.
  - destruct (String.leb b a) eqn:Eba; [|reflexivity].
    rewrite (leb_trans b a c Eba Eac) in Ebc. discriminate Ebc.
  - rewrite IH. reflexivity.
Qed.

Lemma sortStrings_Permutation l1 l2 :
  Permutation l1 l2 -> url.sortStrings l1 = url.sortStrings l2.
Proof.
  unfold url.sortStrings. induction 1 as [|x l l' _ IH|x y l|l l' l'' _ IH1 _ IH2].
  - reflexivity.
  - cbn [fold_right]. rewrite IH. reflexivity.
  - cbn [fold_right]. apply insertSorted_comm.
  - congruence.
Qed.

Lemma find_Permutation (m1 m2 : url.Values) key :
  NoDup (map fst m1) -> Permutation m1 m2 ->
  find (fun kv => String.eqb (fst kv) key) m1
  = find (fun kv => String.eqb (fst kv) key) m2.
Proof.
  intros Hnd Hp. induction Hp as [|x l l' Hp IH|x y l|l l' l'' Hp1 IH1 Hp2 IH2].
  - reflexivity.
  - cbn [find]. destruct (String.eqb (fst x) key); [reflexivity|].
    apply IH. inversion Hnd; assumption.
  - cbn [find].
    destruct (String.eqb (fst y) key) eqn:Ey, (String.eqb (fst x) key) eqn:Ex;
      try reflexivity.
    apply String.eqb_eq in Ey, Ex. exfalso.
    inversion Hnd as [|? ? Hin _]; subst. apply Hin. left. congruence.
  - rewrite IH1 by exact Hnd. apply IH2.
    apply (Permutation_NoDup (Permutation_map fst Hp1) Hnd).
Qed.

Lemma Values_Has_Permutation (m1 m2 : url.Values) key :
  Permutation m1 m2 -> url.Values_Has m1 key = url.Values_Has m2 key.
Proof.
  intros Hp. unfold url.Values_Has.
  induction Hp as [|x l l' Hp IH|x y l|l l' l'' Hp1 IH1 Hp2 IH2]; cbn [existsb].
  - reflexivity.
  - rewrite IH. reflexivity.
  - rewrite !orb_assoc, (orb_comm (String.eqb (fst y) key)). reflexivity.
  - congruence.
Qed.

Lemma Values_Has_false m key :
  url.Values_Has m key = false <-> ~ In key (map fst m).
Proof.
  unfold url.Values_Has. induction m as [|[k vs] m IH]; cbn.
  - tauto.
  - rewrite orb_false_iff, IH. rewrite String.eqb_neq. tauto.
Qed.

Lemma redact_fresh m key value :
  ~ In key (map fst m) -> map (redact key value) m = m.
Proof.
  induction m as [|[k vs] m IH]; cbn; intros H; [reflexivity|].
  unfold redact at 1. cbn [fst].
  destruct (String.eqb k key) eqn:E;
    [apply String.eqb_eq in E; tauto|].
  rewrite IH by tauto. reflexivity.
Qed.

Lemma Values_Set_redact m key value :
  NoDup (map fst m) -> url.Values_Has m key = true ->
  url.Values_Set m key value = map (redact key value) m.
Proof.
  induction m as [|[k vs] m IH]; intros Hnd Hhas; [discriminate Hhas|].
  cbn [url.Values_Set map]. unfold redact at 1. cbn [fst].
  inversion Hnd as [|? ? Hin Hnd']; subst.
  destruct (String.eqb k key) eqn:E.
  - apply String.eqb_eq in E. subst k.
    rewrite (redact_fresh m key value Hin). reflexivity.
  - f_equal. apply IH; [exact Hnd'|].
    unfold url.Values_Has in *. cbn [existsb fst] in Hhas. rewrite E in Hhas.
    exact Hhas.
Qed.

Lemma map_fst_redact m key value : map fst (map (redact key value) m) = map fst m.
Proof.
  rewrite map_map. apply map_ext. intros [k vs]. unfold redact. cbn [fst].
  destruct (String.eqb k key); reflexivity.
Qed.

Lemma Values_append_fresh m key value :
  ~ In key (map fst m) -> url.Values_append m key value = (m ++ [(key, [value])])%list.
Proof.
  induction m as [|[k vs] m IH]; cbn; intros H; [reflexivity|].
  destruct (String.eqb k key) eqn:E; [apply String.eqb_eq in E; tauto|].
  rewrite IH by tauto. reflexivity.
Qed.

Lemma fold_appendPair pairs : forall m,
  NoDup (map fst m ++ map fst pairs) ->
  fold_left appendPair pairs m = (m ++ map single pairs)%list.
Proof.
  induction pairs as [|[k v] pairs IH]; intros m Hnd.
  - cbn. rewrite app_nil_r. reflexivity.
  - cbn [fold_left map]. unfold appendPair at 2. cbn [fst snd].
    cbn [map fst] in Hnd.
    rewrite Values_append_fresh.
    + rewrite IH.
      * rewrite <- app_assoc. reflexivity.
      * rewrite map_app. cbn [map fst]. rewrite <- app_assoc. exact Hnd.
    + intros Hin. apply NoDup_remove_2 in Hnd. apply Hnd.
      apply in_or_app. left. exact Hin.
Qed.

Lemma fst_parsePair m err piece :
  fst (url.parsePair (m, err) piece)
  = match decodePiece piece with
    | Some kv => appendPair m kv
    | None => m
    end.
Proof.
  unfold url.parsePair, decodePiece.
  destruct (strings.Contains piece ";"); [reflexivity|].
  destruct (String.eqb piece ""); [reflexivity|].
  destruct (strings.Cut piece "=") as [[key value] found].
  destruct (url.QueryUnescape key) as [k|e]; [|reflexivity].
  destruct (url.QueryUnescape value) as [v|e]; reflexivity.
Qed.

Lemma fst_fold_parsePair pieces : forall m err,
  fst (fold_left url.parsePair pieces (m, err))
  = fold_left appendPair (decoded pieces) m.
Proof.
  induction pieces as [|piece pieces IH]; intros m err; [reflexivity|].
  cbn [fold_left decoded flat_map]. fold (decoded pieces).
  rewrite fold_left_app.
  pose proof (fst_parsePair m err piece) as H.
  destruct (url.parsePair (m, err) piece) as [m' err']. cbn [fst] in H.
  rewrite IH, H. destruct (decodePiece piece); reflexivity.
Qed.

Lemma Split_Join pieces :
  pieces <> [] ->
  Forall (fun piece => strings.Contains piece "&" = false) pieces ->
  strings.Split (strings.Join pieces "&") "&" = pieces.
Proof.
  intros Hne Hall. induction Hall as [|x l Hx Hl IH]; [contradiction Hne; reflexivity|].
  cbn [strings.Join]. destruct l as [|y l].
  - apply Split_byte_none. exact Hx.
  - change (x ++ "&" ++ strings.Join (y :: l) "&")
      with (x ++ String "&" (strings.Join (y :: l) "&")).
    rewrite Split_byte_app, (Split_byte_none _ _ Hx), IH by discriminate.
    reflexivity.
Qed.

Lemma length_Join pieces sep :
  String.length (strings.Join pieces sep)
  = list_sum (map String.length pieces)
    + (List.length pieces - 1) * String.length sep.
Proof.
  induction pieces as [|x l IH]; [reflexivity|].
  cbn [strings.Join]. destruct l as [|y l].
  - cbn. lia.
  - rewrite !length_app, IH. cbn [map List.length]. unfold list_sum.
    cbn [fold_right Nat.sub Nat.mul]. rewrite !Nat.sub_0_r. lia.
Qed.

Lemma list_sum_Permutation l1 l2 :
  Permutation l1 l2 -> list_sum l1 = list_sum l2.
Proof.
  induction 1 as [|x l l' _ IH|x y l|l l' l'' _ IH1 _ IH2];
    cbn [list_sum fold_right]; try lia.
  unfold list_sum in *. cbn [fold_right]. lia.
Qed.

Lemma ParseQuery_single pieces :
  pieces <> [] ->
  Forall (fun piece => strings.Contains piece "&" = false) pieces ->
  NoDup (map fst (decoded pieces)) ->
  fst (url.ParseQuery (strings.Join pieces "&")) = map single (decoded pieces).
Proof.
  intros Hne Hall Hnd. unfold url.ParseQuery.
  rewrite (Split_Join pieces Hne Hall), fst_fold_parsePair.
  rewrite fold_appendPair; [reflexivity|exact Hnd].
Qed.

Lemma Values_Encode_Permutation (m1 m2 : url.Values) :
  NoDup (map fst m1) -> Permutation m1 m2 ->
  url.Values_Encode m1 = url.Values_Encode m2.
Proof.
  intros Hnd Hp. unfold url.Values_Encode.
  rewrite (sortStrings_Permutation _ _ (Permutation_map fst Hp)).
  f_equal. apply flat_map_ext. intros k. unfold url.Values_Get.
  rewrite (find_Permutation m1 m2 k Hnd Hp). reflexivity.
Qed.

End ParameterOrder.

(** X9: the cache key does not depend on the order of the query parameters.
    Two descriptors with the same scheme, host and directory whose queries
    are the same parameters, joined with [&] in any two orders, have the
    same cache key, provided no key occurs twice: [Values.Encode] sorts the
    parameters by key. *)
Theorem cacheKey_ignores_parameter_order u1 u2 pieces1 pieces2 :
  Scheme u1 = Scheme u2 -> Host u1 = Host u2 -> Dir u1 = Dir u2 ->
  RawQuery u1 = strings.Join pieces1 "&" ->
  RawQuery u2 = strings.Join pieces2 "&" ->
  Forall (fun piece => strings.Contains piece "&" = false) pieces1 ->
  Permutation pieces1 pieces2 ->
  NoDup (map fst (decoded pieces1)) ->
  cacheKey u1 = cacheKey u2.
Proof.
  intros Hs Hh Hd Hq1 Hq2 Hall Hp Hnd.
  unfold cacheKey, srcDir. cbv zeta. rewrite Hs, Hh, Hd, Hq1, Hq2.
  assert (Hlen : String.length (strings.Join pieces1 "&")
                 = String.length (strings.Join pieces2 "&")).
  { rewrite !length_Join, (Permutation_length Hp).
    rewrite (list_sum_Permutation _ _ (Permutation_map String.length Hp)).
    reflexivity. }
  rewrite Hlen.
  destruct (Nat.ltb 0 (String.length (strings.Join pieces2 "&"))) eqn:E;
    [|reflexivity].
  assert (Hne1 : pieces1 <> []).
  { intros E1. subst pieces1. apply Permutation_nil in Hp. subst pieces2.
    discriminate E. }
  assert (Hne2 : pieces2 <> []).
  { intros E2. subst pieces2. discriminate E. }
  assert (Hall2 : Forall (fun piece => strings.Contains piece "&" = false) pieces2).
  { apply Forall_forall. intros x Hx. rewrite Forall_forall in Hall. apply Hall.
    apply (Permutation_in x (Permutation_sym Hp) Hx). }
  assert (Hpd : Permutation (decoded pieces1) (decoded pieces2)).
  { unfold decoded. apply Permutation_flat_map. exact Hp. }
  assert (Hnd2 : NoDup (map fst (decoded pieces2))).
  { apply (Permutation_NoDup (Permutation_map fst Hpd) Hnd). }
  rewrite (ParseQuery_single pieces1 Hne1 Hall Hnd).
  rewrite (ParseQuery_single pieces2 Hne2 Hall2 Hnd2).
  assert (Hpm : Permutation (map single (decoded pieces1))
                  (map single (decoded pieces2)))
    by (apply Permutation_map; exact Hpd).
  assert (Hk : forall pairs, map fst (map single pairs) = map fst pairs).
  { intros pairs. rewrite map_map. apply map_ext. intros [k v]. reflexivity. }
  assert (Hnm : NoDup (map fst (map single (decoded pieces1))))
    by (rewrite Hk; exact Hnd).
  assert (Hnm2 : NoDup (map fst (map single (decoded pieces2))))
    by (rewrite Hk; exact Hnd2).
  rewrite <- (Values_Has_Permutation _ _ "sshkey" Hpm).
  do 3 f_equal.
  destruct (url.Values_Has (map single (decoded pieces1)) "sshkey") eqn:Ehas.
  - rewrite (Values_Set_redact _ "sshkey" "redacted" Hnm Ehas).
    rewrite (Values_Set_redact _ "sshkey" "redacted" Hnm2)
      by (rewrite <- (Values_Has_Permutation _ _ "sshkey" Hpm); exact Ehas).
    apply Values_Encode_Permutation.
    + rewrite map_fst_redact. exact Hnm.
    + apply Permutation_map. exact Hpm.
  - apply Values_Encode_Permutation; assumption.
Qed.

(** The repository fetched with its two parameters in either order. *)
Lemma cacheKey_ignores_parameter_order_witness :
  (RawQuery (keyedSource "ref=v1&depth=1") = strings.Join ["ref=v1"; "depth=1"] "&"
   /\ RawQuery (keyedSource "depth=1&ref=v1")
      = strings.Join ["depth=1"; "ref=v1"] "&"
   /\ Forall (fun piece => strings.Contains piece "&" = false)
        ["ref=v1"; "depth=1"]
   /\ Permutation ["ref=v1"; "depth=1"] ["depth=1"; "ref=v1"]
   /\ NoDup (map fst (decoded ["ref=v1"; "depth=1"])))
  /\ cacheKey (keyedSource "ref=v1&depth=1")
     = "ssh_example_com_org.depth=1_ref=v1"
  /\ cacheKey (keyedSource "ref=v1&depth=1")
     = cacheKey (keyedSource "depth=1&ref=v1").
Proof.
  assert (Hall : Forall (fun piece => strings.Contains piece "&" = false)
                   ["ref=v1"; "depth=1"])
    by (repeat constructor).
  assert (Hp : Permutation ["ref=v1"; "depth=1"] ["depth=1"; "ref=v1"])
    by apply perm_swap.
  assert (Hnd : NoDup (map fst (decoded ["ref=v1"; "depth=1"]))).
  { vm_compute. constructor.
    - intros [H|[]]. discriminate H.
    - constructor; [intros []|constructor]. }
  split; [exact (conj eq_refl (conj eq_refl (conj Hall (conj Hp Hnd))))|].
  split; [vm_compute; reflexivity|].
  exact (cacheKey_ignores_parameter_order (keyedSource "ref=v1&depth=1")
           (keyedSource "depth=1&ref=v1") ["ref=v1"; "depth=1"]
           ["depth=1"; "ref=v1"] eq_refl eq_refl eq_refl eq_refl eq_refl
           Hall Hp Hnd).
Defined.

